(** * ripple-payments: a shallow embedding of the transaction engine,
      the retry transport, the payport resolver, the fee resolver, the key
      derivation glue and the balance-activity monitor.

    Conventions of the embedding.

    - A JavaScript string that holds a number ([amount], [feeMain],
      [payportBalance], a ledger balance value) is represented by the
      [BigNumber] that [new BigNumber(s)] builds from it; printing with
      [toString] and re-reading is the identity on that representation.
    - [async] functions are computations in the monad [M]: they thread the
      state of the ledger client together with a trace of the remote calls
      issued so far, and either resolve to a value or reject with a thrown
      value.
    - The ledger client (ripple-lib), the bip32 package, the promise-retry
      package and the unit converters of payments-common are collaborators
      that live outside the repository; the ledger client is an abstract
      record of operations, the others are modelled by the small part of
      their documented behaviour that the code relies on. *)

From Stdlib Require Import ZArith NArith QArith Qabs List String Ascii Bool Arith Lia Lqa.
Import ListNotations.

Set Implicit Arguments.
Open Scope string_scope.
Open Scope nat_scope.

(* ================================================================== *)
(** * Definitions *)
(* ================================================================== *)

(** ** bignumber.js values *)

(** The values of the bignumber.js library: NaN, the two infinities and the
    finite decimal numbers, the latter as rationals.  Sums and differences
    are exact, an undetermined one is NaN, and every comparison with NaN is
    false. *)

Module BigNumber.

Inductive t : Type :=
| NaN
| PosInf
| NegInf
| Fin (q : Q).

Definition of_Z (z : Z) : t := Fin (inject_Z z).

Definition isNaN (x : t) : bool :=
  match x with NaN => true | _ => false end.

Definition isFinite (x : t) : bool :=
  match x with Fin _ => true | _ => false end.

Definition negated (x : t) : t :=
  match x with
  | NaN => NaN
  | PosInf => NegInf
  | NegInf => PosInf
  | Fin q => Fin (- q)
  end.

Definition plus (x y : t) : t :=
  match x, y with
  | NaN, _ | _, NaN => NaN
  | PosInf, NegInf | NegInf, PosInf => NaN
  | PosInf, _ | _, PosInf => PosInf
  | NegInf, _ | _, NegInf => NegInf
  | Fin a, Fin b => Fin (a + b)
  end.

Definition minus (x y : t) : t := plus x (negated y).

(** [comparedTo] is [null] as soon as one side is NaN. *)
Definition comparedTo (x y : t) : option comparison :=
  match x, y with
  | NaN, _ | _, NaN => None
  | PosInf, PosInf => Some Eq
  | NegInf, NegInf => Some Eq
  | PosInf, _ => Some Gt
  | _, PosInf => Some Lt
  | NegInf, _ => Some Lt
  | _, NegInf => Some Gt
  | Fin a, Fin b => Some (a ?= b)%Q
  end.

Definition lt (x y : t) : bool :=
  match comparedTo x y with Some Lt => true | _ => false end.

Definition gt (x y : t) : bool :=
  match comparedTo x y with Some Gt => true | _ => false end.

Definition lte (x y : t) : bool :=
  match comparedTo x y with Some Lt | Some Eq => true | _ => false end.

Definition gte (x y : t) : bool :=
  match comparedTo x y with Some Gt | Some Eq => true | _ => false end.

(** [shiftedBy k]: multiplication by [10^k]. *)
Definition shiftedBy (k : Z) (x : t) : t :=
  match x with
  | Fin q => Fin (q * (inject_Z 10) ^ k)
  | other => other
  end.

Definition zero : t := of_Z 0.

End BigNumber.

Abbreviation BigNumber := BigNumber.t.

(** ** Thrown values *)

(** Every [throw new Error(...)] site of the package, one tag per site. *)
Inductive Failure : Type :=
| InvalidAddress (address : string)
| InvalidExtraId (extraId : string)
| GetBalanceOfExtraId (extraId : string)
| UnsupportedFeeRateType
| MissingPayportBalance
| NaNPayportBalance
| InvalidAmount
| SendToSelf
| BelowMinBalance
| WouldReduceBelowMinBalance
| InsufficientPayportBalance
| InsufficientSweepBalance
| NeuteredPrivateKey
| UnitConversion.

(** A value caught by [catch]: a falsy value, an [Error] of this package, or
    an error object of a collaborator, known by its constructor name. *)
Inductive Thrown : Type :=
| Falsy
| Local (f : Failure)
| Foreign (constructorName : string).

(** [e ? e.constructor.name : ''] *)
Definition constructor_name (e : Thrown) : string :=
  match e with
  | Falsy => ""
  | Local _ => "Error"
  | Foreign n => n
  end.

Inductive Result (A : Type) : Type :=
| Ok (a : A)
| Err (e : Thrown).

Arguments Ok {A} a.
Arguments Err {A} e.

(** ** The ledger client and the trace of remote calls *)

Record XrpBalance : Type := mkBalance {
  currency : string;
  (** [None]: the field is missing or the empty string (falsy) *)
  value : option BigNumber
}.

(** The result of [Number.parseInt]. *)
Inductive JsNumber : Type :=
| JsNaN
| JsInt (z : Z).

(** [{ address, tag }] of a transaction's source or destination; [tag] is a
    number or [undefined]. *)
Record Adjustment : Type := mkAdjustment {
  adj_address : string;
  adj_tag : option Z
}.

Record PaymentEnd : Type := mkPaymentEnd {
  end_address : string;
  end_tag : option JsNumber;
  end_currency : string;
  end_value : BigNumber
}.

Record PaymentSpec : Type := mkPaymentSpec {
  spec_source : PaymentEnd;
  spec_destination : PaymentEnd
}.

Record Instructions : Type := mkInstructions {
  maxLedgerVersionOffset : N;
  sequence : option N
}.

Record BalanceChange : Type := mkBalanceChange {
  bc_currency : string;
  bc_value : string
}.

Record Outcome : Type := mkOutcome {
  (** [None]: [outcome.result] is not a string *)
  result : option string;
  ledgerVersion : N;
  indexInLedger : N;
  (** [balanceChanges[address]], [None] when the address has no entry *)
  balanceChanges : string -> option (list BalanceChange)
}.

Record Tx : Type := mkTx {
  tx_id : string;
  tx_type : string;
  tx_source : Adjustment;
  tx_destination : Adjustment;
  tx_outcome : option Outcome
}.

Record Ledger : Type := mkLedger {
  ledgerHash : string;
  closeTime : string
}.

Record GetTransactionsOptions : Type := mkGetTransactionsOptions {
  earliestFirst : bool;
  excludeFailures : bool;
  limit : nat;
  start : option string;
  minLedgerVersion : option N;
  maxLedgerVersion : option N
}.

(** The capability set of the ledger client, over its own state [St]. *)
Record RippleAPI (St : Type) : Type := mkRippleAPI {
  isConnected : St -> bool;
  connect : St -> Result unit * St;
  disconnect : St -> Result unit * St;
  getBalances : string -> St -> Result (list XrpBalance) * St;
  (** [cushion] is [undefined] when no fee level matched *)
  getFee : option Q -> St -> Result BigNumber * St;
  preparePayment : string -> PaymentSpec -> Instructions -> St -> Result string * St;
  getTransactions : string -> GetTransactionsOptions -> St -> Result (list Tx) * St;
  getLedger : N -> St -> Result Ledger * St;
  (** the two ends of [completeLedgers], already read with [parseInt] *)
  getServerInfo : St -> Result (N * N) * St
}.

(** What an observer sees: the runs that promise-retry starts, the lines
    that the retry handler logs, the calls to the ledger client, the
    warnings, and the activities handed to the callback of the caller. *)
Inductive Event : Type :=
| EvAttempt (number : nat)
| EvLogRetry (connectionError : bool) (remaining : Z)
| EvDisconnect
| EvConnect
| EvGetBalances (address : string)
| EvGetFee (cushion : option Q)
| EvPreparePayment (address : string) (spec : PaymentSpec)
| EvGetTransactions (address : string) (options : GetTransactionsOptions)
| EvGetLedger (version : N)
| EvGetServerInfo
| EvWarn
| EvCallback (externalId : string) (activitySequence : string).

Record World (St : Type) : Type := mkWorld {
  api_state : St;
  (** most recent event first *)
  trace : list Event
}.

Definition M (St A : Type) : Type := World St -> Result A * World St.

Definition ret {St A} (a : A) : M St A := fun w => (Ok a, w).

Definition throw {St A} (e : Thrown) : M St A := fun w => (Err e, w).

Definition bind {St A B} (m : M St A) (k : A -> M St B) : M St B :=
  fun w =>
    match m w with
    | (Ok a, w') => k a w'
    | (Err e, w') => (Err e, w')
    end.

Declare Scope m_scope.
Delimit Scope m_scope with m.
Notation "x <- m ;; k" := (bind m (fun x => k))
  (at level 61, m at next level, right associativity) : m_scope.
Notation "m ;;; k" := (bind m (fun _ => k))
  (at level 61, right associativity) : m_scope.
Open Scope m_scope.

Definition emit {St} (ev : Event) : M St unit :=
  fun w => (Ok tt, mkWorld (api_state w) (ev :: trace w)).

(** A remote call: recorded in the trace, then answered by the client. *)
Definition remote {St A} (ev : Event) (call : St -> Result A * St) : M St A :=
  fun w =>
    let (r, s') := call (api_state w) in
    (r, mkWorld s' (ev :: trace w)).

Definition count_events {St} (p : Event -> bool) (w : World St) : nat :=
  List.length (List.filter p (trace w)).

Definition is_attempt (ev : Event) : bool :=
  match ev with EvAttempt _ => true | _ => false end.
Definition is_connect (ev : Event) : bool :=
  match ev with EvConnect => true | _ => false end.
Definition is_disconnect (ev : Event) : bool :=
  match ev with EvDisconnect => true | _ => false end.
Definition is_preparePayment (ev : Event) : bool :=
  match ev with EvPreparePayment _ _ => true | _ => false end.

(** ** utils: [padLeft] and [retryIfDisconnected] *)

Module Utils.

(** [while (x.length < n) x = `${v}${x}`]: every turn of the loop adds
    [v.length] characters, so with a non-empty [v] at most [n - x.length]
    turns are taken; the two call sites pass [v = '0']. *)
Fixpoint padLeft_loop (turns : nat) (x : string) (n : nat) (v : string) : string :=
  match turns with
  | O => x
  | S turns' =>
      if String.length x <? n then padLeft_loop turns' (v ++ x) n v else x
  end.

Definition padLeft (x : string) (n : nat) (v : string) : string :=
  padLeft_loop (n - String.length x) x n v.

Definition CONNECTION_ERRORS : list string :=
  ["ConnectionError"; "NotConnectedError"; "DisconnectedError"]%string.
Definition RETRYABLE_ERRORS : list string :=
  CONNECTION_ERRORS ++ ["TimeoutError"%string].
Definition MAX_RETRIES : nat := 3.

Definition includes (l : list string) (s : string) : bool :=
  List.existsb (String.eqb s) l.

(** What one run of the function handed to [promiseRetry] ends in: a value,
    a rejection, or the rejection that [retry(e)] raises to ask for another
    attempt. *)
Inductive Attempt (A : Type) : Type :=
| Resolved (a : A)
| Rejected (e : Thrown)
| RetryRequested (e : Thrown).

Arguments Resolved {A} a.
Arguments Rejected {A} e.
Arguments RetryRequested {A} e.

Section Retry.
Context {St : Type} (api : RippleAPI St).

(** Modelled from the spec: [promiseRetry] belongs to the promise-retry
    package, which is not part of the sources.  "Maximum of 3 retry attempts
    total; exhausting retries re-throws the last error": with the option
    [retries], the function is run once and, each time it asks for a retry,
    run again while fewer than [retries] retries have been made; [number]
    counts the runs from 1; a rejection that does not ask for a retry is
    final; when no retry is left the promise rejects with the error given
    to [retry].  The delays between the runs are not represented. *)
Fixpoint promiseRetry_from {A} (retriesLeft : nat) (number : nat)
  (fn : nat -> World St -> Attempt A * World St) (w : World St) : Result A * World St :=
  match fn number (snd (emit (EvAttempt number) w)) with
  | (Resolved a, w') => (Ok a, w')
  | (Rejected e, w') => (Err e, w')
  | (RetryRequested e, w') =>
      match retriesLeft with
      | O => (Err e, w')
      | S r => promiseRetry_from r (S number) fn w'
      end
  end.

Definition promiseRetry {A} (fn : nat -> World St -> Attempt A * World St)
  (retries : nat) : M St A :=
  promiseRetry_from retries 1 fn.

(** [if (rippleApi.isConnected()) await rippleApi.disconnect();
     await rippleApi.connect()] *)
Definition reconnect : M St unit :=
  fun w =>
    ((if isConnected api (api_state w)
      then remote EvDisconnect (disconnect api)
      else ret tt) ;;;
     remote EvConnect (connect api)) w.

(** The [catch] handler of [retryIfDisconnected]. *)
Definition on_rejected {A} (attempt : nat) (e : Thrown) (w : World St)
  : Attempt A * World St :=
  let eName := constructor_name e in
  let remaining := (Z.of_nat MAX_RETRIES - Z.of_nat attempt)%Z in
  if includes RETRYABLE_ERRORS eName then
    if includes CONNECTION_ERRORS eName then
      match (emit (EvLogRetry true remaining) ;;; reconnect) w with
      | (Ok _, w') => (RetryRequested e, w')
      | (Err e', w') => (Rejected e', w')
      end
    else
      (RetryRequested e, snd (emit (EvLogRetry false remaining) w))
  else (Rejected e, w).

Definition retryIfDisconnected {A} (fn : M St A) : M St A :=
  promiseRetry
    (fun attempt w =>
       match fn w with
       | (Ok a, w') => (Resolved a, w')
       | (Err e, w') => on_rejected attempt e w'
       end)
    MAX_RETRIES.

End Retry.

End Utils.

(** ** JavaScript strings of integers *)

Module Js.

Definition digit_char (d : N) : ascii := ascii_of_N (48 + d).

(** The decimal digits of [n], most significant first, pushed in front of
    [acc]; [fuel] bounds the number of digits. *)
Fixpoint digits_loop (fuel : nat) (n : N) (acc : string) : string :=
  match fuel with
  | O => acc
  | S fuel' =>
      let acc' := String (digit_char (n mod 10)) acc in
      if (n / 10 =? 0)%N then acc' else digits_loop fuel' (n / 10) acc'
  end.

(** [String(n)] for a non-negative integer below [10^21], which JavaScript
    prints in plain decimal notation. *)
Definition String_of_N (n : N) : string :=
  digits_loop (S (N.to_nat (N.log2 n))) n "".

(** [String(z)] for an integer. *)
Definition String_of_Z (z : Z) : string :=
  match z with
  | Zneg p => String "-" (String_of_N (Npos p))
  | _ => String_of_N (Z.to_N z)
  end.

Definition is_digit (c : ascii) : bool :=
  let n := N_of_ascii c in ((48 <=? n) && (n <=? 57))%N.

(** The value of the longest prefix of decimal digits of [s], continuing
    from [acc]; [None] when no digit has been read. *)
Fixpoint parse_digits (s : string) (acc : option N) : option N :=
  match s with
  | String c s' =>
      if is_digit c
      then parse_digits s'
             (Some (10 * match acc with Some a => a | None => 0 end
                    + (N_of_ascii c - 48))%N)
      else acc
  | EmptyString => acc
  end.

(** [Number.parseInt(s)] on a string without leading blanks and without a
    hexadecimal prefix: an optional sign, then the longest run of decimal
    digits. *)
Definition parseInt (s : string) : JsNumber :=
  match s with
  | String "-" s' =>
      match parse_digits s' None with
      | Some n => JsInt (- Z.of_N n)
      | None => JsNaN
      end
  | String "+" s' =>
      match parse_digits s' None with
      | Some n => JsInt (Z.of_N n)
      | None => JsNaN
      end
  | _ =>
      match parse_digits s None with
      | Some n => JsInt (Z.of_N n)
      | None => JsNaN
      end
  end.

(** [s.startsWith(p)] *)
Definition startsWith (p s : string) : bool := String.prefix p s.

End Js.

(** ** constants and helpers *)

Module Constants.

Definition DECIMAL_PLACES : nat := 6.
Definition MIN_BALANCE : BigNumber := BigNumber.of_Z 20.
Definition DEFAULT_MAX_LEDGER_VERSION_OFFSET : N := 100.

End Constants.

Module Helpers.
Import Constants.

Definition in_range (lo hi : N) (c : ascii) : bool :=
  let n := N_of_ascii c in ((lo <=? n) && (n <=? hi))%N.

(** The character class [[1-9A-HJ-NP-Za-km-z]]. *)
Definition is_base58_char (c : ascii) : bool :=
  in_range 49 57 c || in_range 65 72 c || in_range 74 78 c
  || in_range 80 90 c || in_range 97 107 c || in_range 109 122 c.

Fixpoint string_forall (p : ascii -> bool) (s : string) : bool :=
  match s with
  | EmptyString => true
  | String c s' => p c && string_forall p s'
  end.

(** [ADDRESS_REGEX = /^r[1-9A-HJ-NP-Za-km-z]{25,34}$/] *)
Definition ADDRESS_REGEX_test (s : string) : bool :=
  match s with
  | String "r" rest =>
      string_forall is_base58_char rest
      && (25 <=? String.length rest) && (String.length rest <=? 34)
  | _ => false
  end.

(** [EXTRA_ID_REGEX = /^[0-9]+$/] *)
Definition EXTRA_ID_REGEX_test (s : string) : bool :=
  match s with
  | EmptyString => false
  | _ => string_forall Js.is_digit s
  end.

Definition isValidAddress (address : string) : bool := ADDRESS_REGEX_test address.
Definition isValidExtraId (extraId : string) : bool := EXTRA_ID_REGEX_test extraId.

Definition assertValidAddress {St} (address : string) : M St unit :=
  if negb (isValidAddress address)
  then throw (Local (InvalidAddress address))
  else ret tt.

Definition assertValidExtraIdOrNil {St} (extraId : option string) : M St unit :=
  match extraId with
  | Some e =>
      if negb (isValidExtraId e) then throw (Local (InvalidExtraId e)) else ret tt
  | None => ret tt
  end.

(** What [createUnitConverters(decimals)] returns, as far as this package
    uses it: the two string converters. *)
Record UnitConverters : Type := mkUnitConverters {
  toMainDenominationString : BigNumber -> Result BigNumber;
  toBaseDenominationString : BigNumber -> Result BigNumber
}.

(** Modelled from the spec: [createUnitConverters] belongs to the
    payments-common package and is not part of the sources; the fee resolver
    "fills in the other denomination by unit conversion" at [decimals]
    places.  A value that is not a finite number is rejected here.  The
    payments class below takes [createUnitConverters] as a parameter, this
    is the instance used in the concrete runs. *)
Definition createUnitConverters (decimals : nat) : UnitConverters :=
  mkUnitConverters
    (fun amount =>
       if BigNumber.isFinite amount
       then Ok (BigNumber.shiftedBy (- Z.of_nat decimals) amount)
       else Err (Local UnitConversion))
    (fun amount =>
       if BigNumber.isFinite amount
       then Ok (BigNumber.shiftedBy (Z.of_nat decimals) amount)
       else Err (Local UnitConversion)).

End Helpers.

(** ** BaseRipplePayments *)

Module Payments.
Import Constants Helpers Utils.

Record Signatory : Type := mkSignatory {
  sig_address : string;
  sig_secret : string
}.

Record Payport : Type := mkPayport {
  pp_address : string;
  (** [None]: [extraId] is [null] or [undefined] *)
  pp_extraId : option string
}.

(** The argument of [resolvePayport]: a number, a string or a payport. *)
Inductive ResolveablePayport : Type :=
| ByIndex (index : Z)
| ByAddress (address : string)
| ByPayport (payport : Payport).

Inductive FeeLevel : Type := Custom | Low | Medium | High.
Inductive FeeRateType : Type := Base | Main | BasePerWeight.

(** [options.payportBalance]: absent, a number, or a string. *)
Inductive PayportBalanceOption : Type :=
| PbUndefined
| PbNumber (n : BigNumber)
| PbString (s : BigNumber).

Record CreateTransactionOptions : Type := mkOptions {
  feeLevel : option FeeLevel;
  feeRate : BigNumber;
  feeRateType : option FeeRateType;
  opt_maxLedgerVersionOffset : option N;
  opt_sequence : option N;
  payportBalance : PayportBalanceOption
}.

Definition DEFAULT_CREATE_TRANSACTION_OPTIONS : CreateTransactionOptions :=
  mkOptions None BigNumber.NaN None None None PbUndefined.

Record FeeOption : Type := mkFeeOption {
  targetFeeLevel : FeeLevel;
  targetFeeRate : BigNumber;
  targetFeeRateType : FeeRateType;
  feeMain : BigNumber;
  feeBase : BigNumber
}.

Record BalanceResult : Type := mkBalanceResult {
  confirmedBalance : BigNumber;
  unconfirmedBalance : BigNumber;
  sweepable : bool
}.

Record FromTo : Type := mkFromTo {
  fromAddress : string;
  fromIndex : Z;
  fromExtraId : option string;
  fromPayport : Payport;
  toAddress : string;
  toIndex : option Z;
  toExtraId : option string;
  toPayport : Payport
}.

Inductive TransactionStatus : Type := Unsigned | Signed.

Record UnsignedTransaction : Type := mkUnsignedTransaction {
  utx_fromIndex : Z;
  utx_fromAddress : string;
  utx_fromExtraId : option string;
  utx_toIndex : option Z;
  utx_toAddress : string;
  utx_toExtraId : option string;
  utx_amount : BigNumber;
  utx_targetFeeLevel : FeeLevel;
  utx_targetFeeRate : BigNumber;
  utx_targetFeeRateType : FeeRateType;
  utx_fee : BigNumber;
  utx_status : TransactionStatus;
  utx_data : string
}.

(** [isNil(extraId) ? undefined : Number.parseInt(extraId)] *)
Definition extraIdToTag (extraId : option string) : option JsNumber :=
  match extraId with
  | None => None
  | Some e => Some (Js.parseInt e)
  end.

(** [x || y] on an optional number: [undefined] and [0] are falsy. *)
Definition or_else (x : option N) (y : option N) : option N :=
  match x with
  | Some 0%N | None => y
  | Some _ => x
  end.

Definition liftR {St A} (r : Result A) : M St A := fun w => (r, w).

Section Account.
Context {St : Type} (api : RippleAPI St).
Variables hotSignatory depositSignatory : Signatory.
Variable config_maxLedgerVersionOffset : option N.
Variable createUnitConverters : nat -> UnitConverters.

(** [createUnitConverters(DECIMAL_PLACES)] and the two methods of
    [RipplePaymentsUtils] that call it. *)
Definition toMainDenomination (amount : BigNumber) : Result BigNumber :=
  toMainDenominationString (createUnitConverters DECIMAL_PLACES) amount.
Definition toBaseDenomination (amount : BigNumber) : Result BigNumber :=
  toBaseDenominationString (createUnitConverters DECIMAL_PLACES) amount.

Definition retryDced {A} (fn : M St A) : M St A := retryIfDisconnected api fn.

Definition doGetPayport (index : Z) : Payport :=
  if (index =? 0)%Z then mkPayport (sig_address hotSignatory) None
  else if (index =? 1)%Z then mkPayport (sig_address depositSignatory) None
  else mkPayport (sig_address depositSignatory) (Some (Js.String_of_Z index)).

Definition doResolvePayport (payport : ResolveablePayport) : M St Payport :=
  match payport with
  | ByIndex index => ret (doGetPayport index)
  | ByAddress address =>
      assertValidAddress address ;;; ret (mkPayport address None)
  | ByPayport p =>
      assertValidAddress (pp_address p) ;;;
      assertValidExtraIdOrNil (pp_extraId p) ;;;
      ret p
  end.

Definition resolvePayport (payport : ResolveablePayport) : M St Payport :=
  doResolvePayport payport.

Definition getPayport (index : Z) : M St Payport := ret (doGetPayport index).

Definition resolveFromTo (from : Z) (to : ResolveablePayport) : M St FromTo :=
  fromPayport <- getPayport from ;;
  toPayport <- resolvePayport to ;;
  ret (mkFromTo (pp_address fromPayport) from (pp_extraId fromPayport) fromPayport
         (pp_address toPayport)
         (match to with ByIndex i => Some i | _ => None end)
         (pp_extraId toPayport) toPayport).

(** [new BigNumber(balance).gt(0)] *)
Definition isSweepableAddressBalance (balance : BigNumber) : bool :=
  BigNumber.gt balance BigNumber.zero.

Definition getBalance (payportOrIndex : ResolveablePayport) : M St BalanceResult :=
  payport <- resolvePayport payportOrIndex ;;
  match pp_extraId payport with
  | Some extraId => throw (Local (GetBalanceOfExtraId extraId))
  | None =>
      let address := pp_address payport in
      balances <- retryDced (remote (EvGetBalances address) (getBalances api address)) ;;
      let xrpBalance := List.find (fun b => String.eqb (currency b) "XRP") balances in
      let xrpAmount :=
        match xrpBalance with
        | Some b => match value b with Some v => v | None => BigNumber.zero end
        | None => BigNumber.zero
        end in
      let confirmed := BigNumber.minus xrpAmount MIN_BALANCE in
      ret (mkBalanceResult confirmed BigNumber.zero (isSweepableAddressBalance xrpAmount))
  end.

Definition resolveIndexFromAdjustment (adjustment : Adjustment) : option Z :=
  let address := adj_address adjustment in
  let tag := adj_tag adjustment in
  if String.eqb address (sig_address hotSignatory) then Some 0%Z
  else if String.eqb address (sig_address depositSignatory) then
    (* tag || 1 *)
    match tag with
    | Some 0%Z | None => Some 1%Z
    | Some t => Some t
    end
  else None.

Definition resolveFeeOption (feeOption : CreateTransactionOptions) : M St FeeOption :=
  match feeLevel feeOption with
  | Some Custom =>
      let targetFeeRate := feeRate feeOption in
      match feeRateType feeOption with
      | Some Base =>
          let feeBase := targetFeeRate in
          feeMain <- liftR (toMainDenomination feeBase) ;;
          ret (mkFeeOption Custom targetFeeRate Base feeMain feeBase)
      | Some Main =>
          let feeMain := targetFeeRate in
          feeBase <- liftR (toBaseDenomination feeMain) ;;
          ret (mkFeeOption Custom targetFeeRate Main feeMain feeBase)
      | _ => throw (Local UnsupportedFeeRateType)
      end
  | other =>
      (* feeOption.feeLevel || FeeLevel.Medium *)
      let targetFeeLevel := match other with Some l => l | None => Medium end in
      let cushion :=
        match targetFeeLevel with
        | Low => Some 1%Q
        | Medium => Some (12 # 10)%Q
        | High => Some (15 # 10)%Q
        | Custom => None
        end in
      feeMain <- retryDced (remote (EvGetFee cushion) (getFee api cushion)) ;;
      feeBase <- liftR (toBaseDenomination feeMain) ;;
      ret (mkFeeOption targetFeeLevel feeMain Main feeMain feeBase)
  end.

Definition resolvePayportBalance (fromPayport : Payport)
  (options : CreateTransactionOptions) : M St BigNumber :=
  match pp_extraId fromPayport with
  | None =>
      balances <- getBalance (ByPayport fromPayport) ;;
      ret (confirmedBalance balances)
  | Some _ =>
      match payportBalance options with
      | PbString payportBalance =>
          if BigNumber.isNaN payportBalance
          then throw (Local NaNPayportBalance)
          else ret payportBalance
      | _ => throw (Local MissingPayportBalance)
      end
  end.

Definition doCreateTransaction (fromTo : FromTo) (feeOption : FeeOption)
  (amount : BigNumber) (payportBalance : BigNumber)
  (options : CreateTransactionOptions) : M St UnsignedTransaction :=
  if BigNumber.isNaN amount || BigNumber.lte amount BigNumber.zero
  then throw (Local InvalidAmount)
  else
  if String.eqb (fromAddress fromTo) (toAddress fromTo)
  then throw (Local SendToSelf)
  else
  let feeMain := feeMain feeOption in
  let sequence := opt_sequence options in
  let maxLedgerVersionOffset :=
    match or_else (or_else (opt_maxLedgerVersionOffset options)
                           config_maxLedgerVersionOffset)
                  (Some DEFAULT_MAX_LEDGER_VERSION_OFFSET) with
    | Some n => n
    | None => DEFAULT_MAX_LEDGER_VERSION_OFFSET
    end in
  addressBalances <- getBalance (ByPayport (mkPayport (fromAddress fromTo) None)) ;;
  let addressBalance := confirmedBalance addressBalances in
  if BigNumber.lt addressBalance BigNumber.zero
  then throw (Local BelowMinBalance)
  else
  let totalValue := BigNumber.plus amount feeMain in
  if BigNumber.lt (BigNumber.minus addressBalance totalValue) BigNumber.zero
  then throw (Local WouldReduceBelowMinBalance)
  else
  if match fromExtraId fromTo with Some _ => true | None => false end
     && BigNumber.gt totalValue payportBalance
  then throw (Local InsufficientPayportBalance)
  else
  let spec :=
    mkPaymentSpec
      (mkPaymentEnd (fromAddress fromTo) (extraIdToTag (fromExtraId fromTo)) "XRP" amount)
      (mkPaymentEnd (toAddress fromTo) (extraIdToTag (toExtraId fromTo)) "XRP" amount) in
  preparedTx <-
    retryDced (remote (EvPreparePayment (fromAddress fromTo) spec)
                 (preparePayment api (fromAddress fromTo) spec
                    (mkInstructions maxLedgerVersionOffset sequence))) ;;
  ret (mkUnsignedTransaction
         (fromIndex fromTo) (fromAddress fromTo) (fromExtraId fromTo)
         (toIndex fromTo) (toAddress fromTo) (toExtraId fromTo)
         amount
         (targetFeeLevel feeOption) (targetFeeRate feeOption)
         (targetFeeRateType feeOption) feeMain Unsigned preparedTx).

Definition createTransaction (from : Z) (to : ResolveablePayport)
  (amount : BigNumber) (options : CreateTransactionOptions)
  : M St UnsignedTransaction :=
  fromTo <- resolveFromTo from to ;;
  feeOption <- resolveFeeOption options ;;
  payportBalance <- resolvePayportBalance (fromPayport fromTo) options ;;
  let amountBn := amount in
  doCreateTransaction fromTo feeOption amountBn payportBalance options.

Definition createSweepTransaction (from : Z) (to : ResolveablePayport)
  (options : CreateTransactionOptions) : M St UnsignedTransaction :=
  fromTo <- resolveFromTo from to ;;
  feeOption <- resolveFeeOption options ;;
  payportBalance <- resolvePayportBalance (fromPayport fromTo) options ;;
  let amountBn := BigNumber.minus payportBalance (feeMain feeOption) in
  if BigNumber.lt amountBn BigNumber.zero
  then throw (Local InsufficientSweepBalance)
  else doCreateTransaction fromTo feeOption amountBn payportBalance options.

End Account.

End Payments.

(** ** bip32 key derivation *)

Module KeyDerivation.
Import Utils.

Record BIP32Node : Type := mkNode {
  depth : nat;
  parentFingerprint : N;
  (** [undefined] on a neutered node *)
  privateKey : option (list Byte.byte);
  publicKey : list Byte.byte;
  chainCode : list Byte.byte
}.

Definition isNeutered (key : BIP32Node) : bool :=
  match privateKey key with
  | None => true
  | Some _ => false
  end.

Definition neutered (key : BIP32Node) : BIP32Node :=
  mkNode (depth key) (parentFingerprint key) None (publicKey key) (chainCode key).

Record KeyPair : Type := mkKeyPair {
  kp_privateKey : string;
  kp_publicKey : string
}.

Record HdSignatory : Type := mkHdSignatory {
  hd_address : string;
  hd_secret : KeyPair
}.

(** One segment of a derivation path: ["44'"] is [(44, true)]. *)
Definition PathPart : Type := (N * bool)%type.

(** ["m/44'/144'/0'".split('/').slice(1)] *)
Definition derivationPathParts : list PathPart :=
  [(44%N, true); (144%N, true); (0%N, true)].

Definition hex_digit (n : N) : ascii :=
  if (n <? 10)%N then ascii_of_N (48 + n) else ascii_of_N (87 + n).

(** [buffer.toString('hex')] *)
Fixpoint toString_hex (b : list Byte.byte) : string :=
  match b with
  | [] => EmptyString
  | x :: b' =>
      let n := Byte.to_N x in
      String (hex_digit (n / 16)) (String (hex_digit (n mod 16)) (toString_hex b'))
  end.

Definition toUpperCase_char (c : ascii) : ascii :=
  let n := N_of_ascii c in
  if ((97 <=? n) && (n <=? 122))%N then ascii_of_N (n - 32) else c.

Fixpoint toUpperCase (s : string) : string :=
  match s with
  | EmptyString => EmptyString
  | String c s' => String (toUpperCase_char c) (toUpperCase s')
  end.

Definition rbind {A B} (r : Result A) (k : A -> Result B) : Result B :=
  match r with
  | Ok a => k a
  | Err e => Err e
  end.

Definition hdNodeToPublicKey (key : BIP32Node) : string :=
  let hexKey := padLeft (toString_hex (publicKey key)) 66 "0" in
  toUpperCase hexKey.

Definition hdNodeToPrivateKey (key : BIP32Node) : Result string :=
  match isNeutered key, privateKey key with
  | false, Some k =>
      let hexKey := padLeft (toString_hex k) 64 "0" in
      Ok (toUpperCase hexKey)
  | _, _ => Err (Local NeuteredPrivateKey)
  end.

Section Bip32.
(** The cryptography of the bip32, crypto and base-x packages. *)
Variable fromBase58 : string -> Result BIP32Node.
Variable childPrivateKey : BIP32Node -> N -> list Byte.byte.
Variable childPublicKey : BIP32Node -> N -> list Byte.byte.
Variable childChainCode : BIP32Node -> N -> list Byte.byte.
Variable fingerprint : BIP32Node -> N.
Variables sha256 ripemd160 : list Byte.byte -> list Byte.byte.
Variable Buffer_from_hex : string -> list Byte.byte.
Variable base58_encode : list Byte.byte -> string.

Definition HIGHEST_BIT : N := 2147483648.

(** Modelled from the spec: [derive] belongs to the bip32 package, which is
    not part of the sources.  An extended key has a depth, a chain code,
    public key bytes and optional private key bytes, and "neutered
    (public-only) keys cannot yield a private key": the index is a UInt32,
    a hardened child (index from [2^31] on) is computed from the private
    key and so cannot be derived from a neutered node, and the child of a
    neutered node is neutered.  The arithmetic on the keys is left to the
    parameters of this section. *)
Definition derive (key : BIP32Node) (index : N) : Result BIP32Node :=
  if (4294967296 <=? index)%N then Err (Foreign "TypeError")
  else if (HIGHEST_BIT <=? index)%N && isNeutered key then Err (Foreign "TypeError")
  else
    Ok (mkNode (S (depth key)) (fingerprint key)
          (if isNeutered key then None else Some (childPrivateKey key index))
          (childPublicKey key index) (childChainCode key index)).

(** bip32's [deriveHardened(index)]: the index is a UInt31, and the child is
    the one of index [index + 2^31]. *)
Definition deriveHardened (key : BIP32Node) (index : N) : Result BIP32Node :=
  if (HIGHEST_BIT <=? index)%N then Err (Foreign "TypeError")
  else derive key (index + HIGHEST_BIT).

(** bip32's [derivePath("m/...")]: a path that starts at ["m"] is refused on
    a node that has a parent, then the segments are derived in turn. *)
Definition derivePath_m (key : BIP32Node) (parts : list PathPart) : Result BIP32Node :=
  if negb (parentFingerprint key =? 0)%N then Err (Foreign "TypeError")
  else
    List.fold_left
      (fun (prevHd : Result BIP32Node) (part : PathPart) =>
         rbind prevHd (fun hd =>
           if snd part then deriveHardened hd (fst part) else derive hd (fst part)))
      parts (Ok key).

Definition deriveBasePath (key : BIP32Node) : Result BIP32Node :=
  let parts := List.skipn (depth key) derivationPathParts in
  if 0 <? List.length parts then derivePath_m key parts else Ok key.

Definition publicKeyToAddress (pubkeyHex : string) : string :=
  let pubkeyBuffer := Buffer_from_hex pubkeyHex in
  let accountId := ripemd160 (sha256 pubkeyBuffer) in
  let payload := Byte.x00 :: accountId in
  let checksum := List.firstn 4 (sha256 (sha256 payload)) in
  base58_encode (payload ++ checksum).

Definition deriveSignatory (hdKey : string) (index : N) : Result HdSignatory :=
  rbind (fromBase58 hdKey) (fun key =>
  rbind (deriveBasePath key) (fun base =>
  rbind (derive base 0) (fun account =>
  rbind (derive account index) (fun derived =>
  rbind (if isNeutered derived then Ok EmptyString else hdNodeToPrivateKey derived)
    (fun privateKey =>
  let publicKey := hdNodeToPublicKey derived in
  let address := publicKeyToAddress publicKey in
  Ok (mkHdSignatory address (mkKeyPair privateKey publicKey))))))).

End Bip32.

End KeyDerivation.

(** ** RippleBalanceMonitor *)

Module Monitor.
Import Utils Helpers.

Inductive ActivityType : Type := In_ | Out.

Record BalanceActivity : Type := mkBalanceActivity {
  ba_type : ActivityType;
  ba_networkSymbol : string;
  ba_assetSymbol : string;
  ba_address : string;
  ba_extraId : option string;
  ba_amount : string;
  ba_externalId : string;
  activitySequence : string;
  ba_confirmationId : string;
  ba_confirmationNumber : N;
  ba_timestamp : string
}.

Record GetBalanceActivityOptions : Type := mkRange {
  (** a number, the [confirmationNumber] of an activity, or [undefined] *)
  range_from : option N;
  range_to : option N
}.

Definition isPaymentTx (tx : Tx) : bool := String.eqb (tx_type tx) "payment".

(** The three parts of the ordering key. *)
Definition primarySequence (ledgerVersion : N) : string :=
  padLeft (Js.String_of_N ledgerVersion) 12 "0".
Definition secondarySequence (indexInLedger : N) : string :=
  padLeft (Js.String_of_N indexInLedger) 8 "0".
Definition tertiarySequence (type : ActivityType) : string :=
  match type with Out => "00" | In_ => "01" end.

Definition make_activitySequence (ledgerVersion indexInLedger : N)
  (type : ActivityType) : string :=
  primarySequence ledgerVersion ++ "." ++ secondarySequence indexInLedger
  ++ "." ++ tertiarySequence type.

Section WithApi.
Context {St : Type} (api : RippleAPI St).

Definition retryDced {A} (fn : M St A) : M St A := retryIfDisconnected api fn.

Definition txToBalanceActivity (address : string) (tx : Tx)
  : M St (option BalanceActivity) :=
  match tx_outcome tx with
  | None => emit EvWarn ;;; ret None
  | Some outcome =>
      let succeeded :=
        match result outcome with
        | Some txResult =>
            Js.startsWith "tes" txResult || Js.startsWith "tec" txResult
        | None => false
        end in
      if negb succeeded then ret None
      else
        let confirmationNumber := ledgerVersion outcome in
        ledger <- retryDced (remote (EvGetLedger confirmationNumber)
                               (getLedger api confirmationNumber)) ;;
        let changes :=
          match balanceChanges outcome address with
          | Some l => l
          | None => []
          end in
        match List.find (fun c => String.eqb (bc_currency c) "XRP") changes with
        | None => ret None
        | Some balanceChange =>
            let amount := bc_value balanceChange in
            let type := if Js.startsWith "-" amount then Out else In_ in
            let tag :=
              if isPaymentTx tx
              then adj_tag (match type with
                            | Out => tx_source tx
                            | In_ => tx_destination tx
                            end)
              else None in
            ret (Some (mkBalanceActivity type "XRP" (bc_currency balanceChange)
                         address
                         (match tag with
                          | Some t => Some (Js.String_of_Z t)
                          | None => None
                          end)
                         amount (tx_id tx)
                         (make_activitySequence (ledgerVersion outcome)
                            (indexInLedger outcome) type)
                         (ledgerHash ledger) confirmationNumber
                         (closeTime ledger)))
        end
  end.

Definition resolveFromToLedgers (options : GetBalanceActivityOptions)
  : M St (N * N) :=
  completeLedgers <- retryDced (remote EvGetServerInfo (getServerInfo api)) ;;
  let fromLedgerVersion := fst completeLedgers in
  let toLedgerVersion := snd completeLedgers in
  fromLedgerVersion <-
    match range_from options with
    | Some requestedFrom =>
        if (requestedFrom <? fromLedgerVersion)%N
        then emit EvWarn ;;; ret fromLedgerVersion
        else ret requestedFrom
    | None => ret fromLedgerVersion
    end ;;
  toLedgerVersion <-
    match range_to options with
    | Some requestedTo =>
        if (toLedgerVersion <? requestedTo)%N
        then emit EvWarn ;;; ret toLedgerVersion
        else ret requestedTo
    | None => ret toLedgerVersion
    end ;;
  ret (fromLedgerVersion, toLedgerVersion).

(** [tx.outcome.ledgerVersion]: reading a field of [undefined] throws. *)
Definition outcome_ledgerVersion (tx : Tx) : M St N :=
  match tx_outcome tx with
  | Some outcome => ret (ledgerVersion outcome)
  | None => throw (Foreign "TypeError")
  end.

Definition limit_ : nat := 10.

Section Retrieve.
Variable address : string.
Variable callbackFn : BalanceActivity -> M St unit.
Variables from to : N.

(** The test of the [while] loop. *)
Definition continue_paging (lastTx : option Tx) (transactions : option (list Tx))
  : M St bool :=
  match transactions with
  | None => ret true
  | Some txs =>
      if Nat.eqb (List.length txs) limit_ then
        match lastTx with
        | Some l => v <- outcome_ledgerVersion l ;; ret (v <=? to)%N
        | None => ret false
        end
      else ret false
  end.

(** The body of the inner [for] loop. *)
Definition visit (lastTx : option Tx) (tx : Tx) : M St unit :=
  let same :=
    match lastTx with
    | Some l => String.eqb (tx_id tx) (tx_id l)
    | None => false
    end in
  if same then ret tt
  else
    v <- outcome_ledgerVersion tx ;;
    if (v <? from)%N || (to <? v)%N then ret tt
    else
      activity <- txToBalanceActivity address tx ;;
      match activity with
      | Some a => callbackFn a
      | None => ret tt
      end.

Fixpoint for_each {A} (f : A -> M St unit) (l : list A) : M St unit :=
  match l with
  | [] => ret tt
  | x :: l' => f x ;;; for_each f l'
  end.

(** [transactions[transactions.length - 1]] *)
Definition last_of (txs : list Tx) : option Tx :=
  List.nth_error txs (List.length txs - 1).

(** The [while] loop, unrolled at most [fuel] times; [None] when the loop
    has not stopped by then. *)
Fixpoint paging_loop (fuel : nat) (lastTx : option Tx)
  (transactions : option (list Tx)) : M St (option unit) :=
  match fuel with
  | O => ret None
  | S fuel' =>
      continue <- continue_paging lastTx transactions ;;
      if continue then
        let getTransactionOptions :=
          match lastTx with
          | Some l => mkGetTransactionsOptions true false limit_ (Some (tx_id l)) None None
          | None => mkGetTransactionsOptions true false limit_ None (Some from) (Some to)
          end in
        txs <- retryDced (remote (EvGetTransactions address getTransactionOptions)
                            (getTransactions api address getTransactionOptions)) ;;
        for_each (visit lastTx) txs ;;;
        paging_loop fuel' (last_of txs) (Some txs)
      else ret (Some tt)
  end.

End Retrieve.

Definition retrieveBalanceActivities (fuel : nat) (address : string)
  (callbackFn : BalanceActivity -> M St unit)
  (options : GetBalanceActivityOptions) : M St (option (N * N)) :=
  assertValidAddress address ;;;
  range <- resolveFromToLedgers options ;;
  done <- paging_loop address callbackFn (fst range) (snd range) fuel None None ;;
  match done with
  | Some _ => ret (Some range)
  | None => ret None
  end.

End WithApi.

End Monitor.

(** ** helpers: extended keys and payports *)

Module KeyFormat.
Import Helpers.

(** The character class [[a-km-zA-HJ-NP-Z1-9]]. *)
Definition is_key_char (c : ascii) : bool :=
  in_range 97 107 c || in_range 109 122 c || in_range 65 72 c
  || in_range 74 78 c || in_range 80 90 c || in_range 49 57 c.

(** [XPUB_REGEX = /^xpub[a-km-zA-HJ-NP-Z1-9]{100,108}$/] *)
Definition XPUB_REGEX_test (s : string) : bool :=
  match s with
  | String "x" (String "p" (String "u" (String "b" rest))) =>
      string_forall is_key_char rest
      && (100 <=? String.length rest) && (String.length rest <=? 108)
  | _ => false
  end.

(** [XPRV_REGEX = /^xprv[a-km-zA-HJ-NP-Z1-9]{100,108}$/] *)
Definition XPRV_REGEX_test (s : string) : bool :=
  match s with
  | String "x" (String "p" (String "r" (String "v" rest))) =>
      string_forall is_key_char rest
      && (100 <=? String.length rest) && (String.length rest <=? 108)
  | _ => false
  end.

Definition isValidXprv (xprv : string) : bool := XPRV_REGEX_test xprv.
Definition isValidXpub (xpub : string) : bool := XPUB_REGEX_test xpub.

End KeyFormat.

Module RipplePaymentsUtils.
Import Helpers Payments.

(** [isValidPayport] of the bundle.  [Payport.is(payport)] holds of every
    value of the record type, and an [async] function that returns the
    promise of [this.isValidExtraId(extraId)] resolves to the value of that
    promise. *)
Definition isValidPayport {St} (payport : Payport) : M St bool :=
  let address := pp_address payport in
  let extraId := pp_extraId payport in
  ret (isValidAddress address
       && match extraId with
          | None => true
          | Some e => isValidExtraId e
          end).

End RipplePaymentsUtils.

Module BaseRipplePayments.
Import Helpers Payments.

(** [isNil(payport.extraId) ? payport.address
     : `${payport.address}:${payport.extraId}`] *)
Definition serializePayport (payport : Payport) : string :=
  match pp_extraId payport with
  | None => pp_address payport
  | Some extraId => pp_address payport ++ ":" ++ extraId
  end.

End BaseRipplePayments.

(** ** bip32: the watch key *)

Module WatchKey.
Import KeyDerivation.

Section Bip32.
Variable fromBase58 : string -> Result BIP32Node.
Variable toBase58 : BIP32Node -> string.
Variable childPrivateKey : BIP32Node -> N -> list Byte.byte.
Variable childPublicKey : BIP32Node -> N -> list Byte.byte.
Variable childChainCode : BIP32Node -> N -> list Byte.byte.
Variable fingerprint : BIP32Node -> N.

(** [xprv] is a string or a node:
    [typeof xprv === 'string' ? fromBase58(xprv) : xprv]. *)
Definition xprvToXpub (xprv : string + BIP32Node) : Result string :=
  rbind (match xprv with
         | inl s => fromBase58 s
         | inr node => Ok node
         end) (fun key =>
  rbind (deriveBasePath childPrivateKey childPublicKey childChainCode fingerprint key)
    (fun derivedPubKey =>
  Ok (toBase58 (neutered derivedPubKey)))).

End Bip32.

End WatchKey.

(** ** Thrown values of the lookup, signing, account and validation code *)

(** The messages of [getPayportValidationMessage]. *)
Inductive ValidationMessage : Type :=
| InvalidPayportAddress
| PayportExtraIdRequired (address : string)
| InvalidPayportExtraId.

(** The [throw new Error(...)] sites of the code below, one tag per site. *)
Inductive Refusal : Type :=
| TransactionNotFound (eString : string)
| UnsupportedTxType (type : string)
| UnsupportedTxCurrency (currency : string)
| ReadOnlyPayments
| CannotSignFrom (address : string)
| BroadcastFailed (id resultCode : string)
| InvalidHdKey
| InvalidAccountConfig
| InvalidAccountIdIndex (index : Z)
| InvalidPayport (message : ValidationMessage).

(** How a call of that code ends: with a value, with an error of one of
    these sites, or with a value thrown by the code above or by a
    collaborator. *)
Inductive Settled (A : Type) : Type :=
| Returns (a : A)
| Refuses (r : Refusal)
| Throws (e : Thrown).

Arguments Returns {A} a.
Arguments Refuses {A} r.
Arguments Throws {A} e.

Definition settle {A} (r : Result A) : Settled A :=
  match r with
  | Ok a => Returns a
  | Err e => Throws e
  end.

Definition sbind {A B} (s : Settled A) (k : A -> Settled B) : Settled B :=
  match s with
  | Returns a => k a
  | Refuses r => Refuses r
  | Throws e => Throws e
  end.

(** An [async] function of that code. *)
Definition Task (St A : Type) : Type := World St -> Settled A * World St.

Definition done {St A} (a : A) : Task St A := fun w => (Returns a, w).

Definition refuse {St A} (r : Refusal) : Task St A := fun w => (Refuses r, w).

Definition rethrow {St A} (e : Thrown) : Task St A := fun w => (Throws e, w).

(** [await] of a computation of the code above. *)
Definition await {St A} (m : M St A) : Task St A :=
  fun w => let (r, w') := m w in (settle r, w').

Definition andThen {St A B} (t : Task St A) (k : A -> Task St B) : Task St B :=
  fun w =>
    match t w with
    | (Returns a, w') => k a w'
    | (Refuses r, w') => (Refuses r, w')
    | (Throws e, w') => (Throws e, w')
    end.

Notation "x <~ t ;; k" := (andThen t (fun x => k))
  (at level 61, t at next level, right associativity) : m_scope.

(** A call to the ledger client that leaves no entry in the trace. *)
Definition request {St A} (call : St -> Result A * St) : M St A :=
  fun w =>
    let (r, s') := call (api_state w) in
    (r, mkWorld s' (trace w)).

(** ** The ledger client, continued *)

Module LedgerClient.

Record Amount : Type := mkAmount {
  amt_currency : string;
  amt_value : BigNumber
}.

(** The answer of [getTransaction], as far as [getTransactionInfo] reads
    it: [specification.source] with its [maxAmount] and [amount],
    [specification.destination], and the [outcome]. *)
Record Transaction : Type := mkTransaction {
  id : string;
  type : string;
  source : Adjustment;
  source_maxAmount : option Amount;
  source_amount : option Amount;
  destination : Adjustment;
  outcome_result : string;
  outcome_ledgerVersion : N;
  (** [None]: [outcome.timestamp] is missing or empty *)
  outcome_timestamp : option string;
  outcome_fee : BigNumber
}.

(** The answer of [getLedger], with the ledger version that
    [getTransactionInfo] reads off it. *)
Record LedgerHeader : Type := mkLedgerHeader {
  ledgerHash : string;
  ledgerVersion : N
}.

Record SignResult : Type := mkSignResult {
  signedTransaction : string;
  sign_id : string
}.

Record SubmitResult : Type := mkSubmitResult {
  engine_result : option string;
  resultCode : option string
}.

Record Settings : Type := mkSettings {
  requireDestinationTag : option bool
}.

Record SubscribeResponse : Type := mkSubscribeResponse {
  status : string
}.

(** The operations of the ledger client that the code below calls, beside
    those of [RippleAPI]. *)
Record t (St : Type) : Type := mk {
  getTransaction : string -> St -> Result Transaction * St;
  getLedger : N -> St -> Result LedgerHeader * St;
  getLedgerVersion : St -> Result Z * St;
  (** [sign(txJSON, secret)] is a local computation *)
  sign : string -> string -> Result SignResult;
  submit : string -> St -> Result SubmitResult * St;
  getSettings : string -> St -> Result Settings * St;
  (** [request('subscribe', { accounts })] *)
  subscribe : list string -> St -> Result SubscribeResponse * St
}.

End LedgerClient.

(** ** BaseRipplePayments: lookup, signing and broadcast *)

Module Ledgering.
Import Helpers Utils Payments LedgerClient.

(** [s.includes(sub)] *)
Fixpoint string_includes (s sub : string) : bool :=
  String.prefix sub s
  || match s with
     | EmptyString => false
     | String _ s' => string_includes s' sub
     end.

Definition NOT_FOUND_ERRORS : list string :=
  ["MissingLedgerHistoryError"; "NotFoundError"]%string.

(** [TransactionStatus.Confirmed] and [TransactionStatus.Failed]. *)
Inductive InfoStatus : Type := Confirmed | Failed.

Record TransactionInfo : Type := mkTransactionInfo {
  info_id : string;
  info_fromIndex : option Z;
  info_fromAddress : string;
  info_fromExtraId : option string;
  info_toIndex : option Z;
  info_toAddress : string;
  info_toExtraId : option string;
  info_amount : BigNumber;
  info_fee : BigNumber;
  info_status : InfoStatus;
  info_confirmationId : string;
  info_confirmationNumber : N;
  info_confirmationTimestamp : option string;
  info_isExecuted : bool;
  info_isConfirmed : bool;
  info_confirmations : Z;
  info_data : Transaction
}.

(** [{ ...unsignedTx, id, data, status }] *)
Record SignedTransaction : Type := mkSignedTransaction {
  stx_unsigned : UnsignedTransaction;
  stx_id : string;
  stx_data : SignResult;
  stx_status : TransactionStatus
}.

Record BroadcastResult : Type := mkBroadcastResult {
  br_id : string;
  br_rebroadcast : bool;
  br_data : SubmitResult
}.

(** [a || b] on strings: [undefined] and the empty string are falsy. *)
Definition or_string (a : option string) (b : string) : string :=
  match a with
  | Some EmptyString | None => b
  | Some s => s
  end.

Section Account.
Context {St : Type} (api : RippleAPI St) (client : LedgerClient.t St).
Variables hotSignatory depositSignatory : Signatory.
(** [this.isReadOnly()], which the two kinds of account define. *)
Variable isReadOnly : bool.
(** [e.toString()] of a caught value; it throws on [null] and [undefined]. *)
Variable toString : Thrown -> Result string.

Definition getTransactionInfo (txId : string) : Task St TransactionInfo :=
  fun w =>
    match retryDced api (request (getTransaction client txId)) w with
    | (Err e, w') =>
        match toString e with
        | Err thrown => (Throws thrown, w')
        | Ok eString =>
            if List.existsb (fun type => string_includes eString type) NOT_FOUND_ERRORS
            then (Refuses (TransactionNotFound eString), w')
            else (Throws e, w')
        end
    | (Ok tx, w') =>
        (if negb (String.eqb (type tx) "payment")
         then refuse (UnsupportedTxType (type tx))
         else
           (* source.maxAmount || source.amount *)
           match match source_maxAmount tx with
                 | Some a => Some a
                 | None => source_amount tx
                 end with
           | None => rethrow (Foreign "TypeError")
           | Some amountObject =>
               if negb (String.eqb (amt_currency amountObject) "XRP")
               then refuse (UnsupportedTxCurrency (amt_currency amountObject))
               else
                 let fromIndex :=
                   resolveIndexFromAdjustment hotSignatory depositSignatory (source tx) in
                 let toIndex :=
                   resolveIndexFromAdjustment hotSignatory depositSignatory
                     (destination tx) in
                 let amount := amt_value amountObject in
                 let status :=
                   if Js.startsWith "tes" (outcome_result tx) then Confirmed else Failed in
                 let confirmationNumber := outcome_ledgerVersion tx in
                 ledger <~ await (retryDced api
                                    (remote (EvGetLedger confirmationNumber)
                                       (getLedger client confirmationNumber))) ;;
                 currentLedgerVersion <~
                   await (retryDced api (request (getLedgerVersion client))) ;;
                 done (mkTransactionInfo
                         (id tx) fromIndex (adj_address (source tx))
                         (option_map Js.String_of_Z (adj_tag (source tx)))
                         toIndex (adj_address (destination tx))
                         (option_map Js.String_of_Z (adj_tag (destination tx)))
                         amount (outcome_fee tx) status
                         (ledgerHash ledger) (ledgerVersion ledger)
                         (outcome_timestamp tx)
                         (match status with Confirmed => true | Failed => false end)
                         true
                         (currentLedgerVersion - Z.of_N confirmationNumber)%Z
                         tx)
           end) w'
    end.

(** [unsignedTx.data] is the prepared transaction, kept as its [txJSON]. *)
Definition signTransaction (unsignedTx : UnsignedTransaction) : Task St SignedTransaction :=
  if isReadOnly then refuse ReadOnlyPayments
  else
    let txJSON := utx_data unsignedTx in
    secret <~ (if String.eqb (utx_fromAddress unsignedTx) (sig_address hotSignatory)
               then done (sig_secret hotSignatory)
               else if String.eqb (utx_fromAddress unsignedTx) (sig_address depositSignatory)
               then done (sig_secret depositSignatory)
               else refuse (CannotSignFrom (utx_fromAddress unsignedTx))) ;;
    signResult <~ await (liftR (sign client txJSON secret)) ;;
    done (mkSignedTransaction unsignedTx (sign_id signResult) signResult Signed).

Definition broadcastTransaction (signedTx : SignedTransaction) : Task St BroadcastResult :=
  fun w =>
    let signedTxString := signedTransaction (stx_data signedTx) in
    (* try { ... } catch (e) { } *)
    let (rebroadcast, w1) :=
      match getTransactionInfo (stx_id signedTx) w with
      | (Returns existing, w') => (String.eqb (info_id existing) (stx_id signedTx), w')
      | (_, w') => (false, w')
      end in
    (result <~ await (retryDced api (request (submit client signedTxString))) ;;
     let resultCode := or_string (engine_result result)
                         (or_string (LedgerClient.resultCode result) "") in
     if negb (Js.startsWith "tes" resultCode)
     then refuse (BroadcastFailed (stx_id signedTx) resultCode)
     else done (mkBroadcastResult (stx_id signedTx) rebroadcast result)) w1.

End Account.

End Ledgering.

(** ** HdRipplePayments *)

Module HdRipplePayments.
Import KeyDerivation KeyFormat WatchKey.

Record t : Type := mk {
  config_hdKey : string;
  (** [null] when the account was built from an xpub *)
  xprv : option string;
  xpub : string;
  hotSignatory : HdSignatory;
  depositSignatory : HdSignatory
}.

Section Bip32.
Variable fromBase58 : string -> Result BIP32Node.
Variable toBase58 : BIP32Node -> string.
Variable childPrivateKey : BIP32Node -> N -> list Byte.byte.
Variable childPublicKey : BIP32Node -> N -> list Byte.byte.
Variable childChainCode : BIP32Node -> N -> list Byte.byte.
Variable fingerprint : BIP32Node -> N.
Variables sha256 ripemd160 : list Byte.byte -> list Byte.byte.
Variable Buffer_from_hex : string -> list Byte.byte.
Variable base58_encode : list Byte.byte -> string.

(** The constructor. *)
Definition new (hdKey : string) : Settled t :=
  sbind (if isValidXprv hdKey
         then sbind (settle (xprvToXpub fromBase58 toBase58 childPrivateKey childPublicKey
                               childChainCode fingerprint (inl hdKey)))
                (fun xpub => Returns (Some hdKey, xpub))
         else if isValidXpub hdKey
         then Returns (None, hdKey)
         else Refuses InvalidHdKey) (fun keys =>
  sbind (settle (deriveSignatory fromBase58 childPrivateKey childPublicKey childChainCode
                   fingerprint sha256 ripemd160 Buffer_from_hex base58_encode hdKey 0))
    (fun hot =>
  sbind (settle (deriveSignatory fromBase58 childPrivateKey childPublicKey childChainCode
                   fingerprint sha256 ripemd160 Buffer_from_hex base58_encode hdKey 1))
    (fun deposit =>
  Returns (mk hdKey (fst keys) (snd keys) hot deposit)))).

Definition isReadOnly (this : t) : bool :=
  match xprv this with
  | None => true
  | Some _ => false
  end.

(** The [hdKey] of [getPublicConfig()]. *)
Definition getPublicConfig (this : t) : Settled string :=
  settle (xprvToXpub fromBase58 toBase58 childPrivateKey childPublicKey childChainCode
            fingerprint (inl (config_hdKey this))).

Definition getAccountIds (this : t) : list string := [xpub this].

Definition getAccountId (this : t) (index : Z) : string := xpub this.

End Bip32.

End HdRipplePayments.

(** ** AccountRipplePayments *)

Module AccountRipplePayments.
Import Helpers.

(** A [RippleAccountConfig] that passed the codec: an address, an object
    that carries [address] and [secret], or an object that carries
    [publicKey] and [privateKey]; an object that carries all four is a key
    pair, [RippleKeyPair.is] being asked first. *)
Inductive RippleAccountConfig : Type :=
| ConfigAddress (address : string)
| ConfigSecretPair (address secret : string)
| ConfigKeyPair (publicKey privateKey : string).

(** The [secret] of a signatory: a string, or the key pair itself. *)
Inductive RippleSecret : Type :=
| SecretString (secret : string)
| SecretKeyPair (publicKey privateKey : string).

Record RippleSignatory : Type := mkRippleSignatory {
  address : string;
  secret : RippleSecret
}.

Record t : Type := mk {
  readOnly : bool;
  hotSignatory : RippleSignatory;
  depositSignatory : RippleSignatory
}.

Section Api.
(** [rippleApi.deriveAddress(publicKey)], a local computation. *)
Variable deriveAddress : string -> Result string.

(** [accountConfigToSignatory]; it sets [this.readOnly], which is passed in
    and handed back. *)
Definition accountConfigToSignatory (readOnly : bool)
  (accountConfig : RippleAccountConfig) : Settled (RippleSignatory * bool) :=
  match accountConfig with
  | ConfigKeyPair publicKey privateKey =>
      let readOnly := if String.eqb privateKey "" then true else readOnly in
      sbind (settle (deriveAddress publicKey)) (fun address =>
      Returns (mkRippleSignatory address (SecretKeyPair publicKey privateKey), readOnly))
  | ConfigSecretPair address secret =>
      let readOnly := if String.eqb secret "" then true else readOnly in
      Returns (mkRippleSignatory address (SecretString secret), readOnly)
  | ConfigAddress accountConfig =>
      if isValidAddress accountConfig
      then Returns (mkRippleSignatory accountConfig (SecretString ""), true)
      else Refuses InvalidAccountConfig
  end.

(** The constructor. *)
Definition new (hotAccount depositAccount : RippleAccountConfig) : Settled t :=
  sbind (accountConfigToSignatory false hotAccount) (fun hot =>
  sbind (accountConfigToSignatory (snd hot) depositAccount) (fun deposit =>
  Returns (mk (snd deposit) (fst hot) (fst deposit)))).

End Api.

Definition isReadOnly (this : t) : bool := readOnly this.

Definition getAccountIds (this : t) : list string :=
  [address (hotSignatory this); address (depositSignatory this)].

Definition getAccountId (this : t) (index : Z) : Settled string :=
  if (index <? 0)%Z then Refuses (InvalidAccountIdIndex index)
  else if (index =? 0)%Z then Returns (address (hotSignatory this))
  else Returns (address (depositSignatory this)).

End AccountRipplePayments.

(** ** RipplePaymentsUtils.ts: payports validated against the ledger *)

Module PayportValidation.
Import Helpers Utils Payments LedgerClient.

Section Utils.
Context {St : Type} (api : RippleAPI St) (client : LedgerClient.t St).
(** [e.message] of a caught value; reading it throws on [null] and
    [undefined]. *)
Variable errorMessage : Thrown -> Result string.

Definition _retryDced {A} (fn : M St A) : M St A := retryIfDisconnected api fn.

Definition getPayportValidationMessage (payport : Payport)
  : M St (option ValidationMessage) :=
  fun w =>
    let address := pp_address payport in
    let extraId := pp_extraId payport in
    if negb (isValidAddress address) then (Ok (Some InvalidPayportAddress), w)
    else
      (requireExtraId <-
         (* try { ... } catch (e) { this.logger.debug(`... ${e.message}`) } *)
         (fun w0 =>
            match _retryDced (request (getSettings client address)) w0 with
            | (Ok settings, w') =>
                (* settings.requireDestinationTag || false *)
                (Ok (match requireDestinationTag settings with
                     | Some b => b
                     | None => false
                     end), w')
            | (Err e, w') =>
                match errorMessage e with
                | Ok _ => (Ok false, w')
                | Err thrown => (Err thrown, w')
                end
            end) ;;
       match extraId with
       | None =>
           if (requireExtraId : bool)
           then ret (Some (PayportExtraIdRequired address))
           else ret None
       | Some e =>
           if negb (isValidExtraId e)
           then ret (Some InvalidPayportExtraId)
           else ret None
       end) w.

Definition validatePayport (payport : Payport) : Task St unit :=
  message <~ await (getPayportValidationMessage payport) ;;
  match message with
  | Some m => refuse (InvalidPayport m)
  | None => done tt
  end.

Definition isValidPayport (payport : Payport) : M St bool :=
  message <- getPayportValidationMessage payport ;;
  ret (match message with
       | Some _ => false
       | None => true
       end).

End Utils.

End PayportValidation.

(** ** RippleBalanceMonitor: subscriptions *)

Module Subscriptions.
Import Helpers Utils Monitor LedgerClient.

Section Monitor.
Context {St : Type} (api : RippleAPI St) (client : LedgerClient.t St).
(** [e.toString()] of a caught value; it throws on [null] and [undefined]. *)
Variable toString : Thrown -> Result string.

Definition subscribeAddresses (addresses : list string) : M St unit :=
  for_each assertValidAddress addresses ;;;
  fun w =>
    match retryDced api (request (subscribe client addresses)) w with
    | (Ok res, w') =>
        if String.eqb (status res) "success"
        then (Ok tt, w')
        else emit EvWarn w'
    | (Err e, w') =>
        (* this.logger.error(..., e.toString()); throw e *)
        match toString e with
        | Ok _ => (Err e, w')
        | Err thrown => (Err thrown, w')
        end
    end.

End Monitor.

End Subscriptions.


(** ** A scripted ledger client, used for the concrete runs *)

Module Mock.

Record State : Type := mkState {
  connected : bool;
  (** constructor names of the errors that the next data calls throw *)
  faults : list string;
  (** the XRP balance the ledger reports, for every address *)
  xrp : option BigNumber
}.

(** A data call: throws the next scripted fault, if any, else answers. *)
Definition answer {A} (a : State -> A) (s : State) : Result A * State :=
  match faults s with
  | name :: rest => (Err (Foreign name), mkState (connected s) rest (xrp s))
  | [] => (Ok (a s), s)
  end.

(** The transactions from the one named [id] on. *)
Fixpoint drop_until (id : string) (l : list Tx) : list Tx :=
  match l with
  | [] => []
  | tx :: l' => if String.eqb (tx_id tx) id then l else drop_until id l'
  end.

Definition in_ledgers (lo hi : option N) (tx : Tx) : bool :=
  match tx_outcome tx with
  | Some o =>
      match lo with Some l => (l <=? ledgerVersion o)%N | None => true end
      && match hi with Some h => (ledgerVersion o <=? h)%N | None => true end
  | None => false
  end.

(** A page of the transactions [history] of the ledger, earliest first. *)
Definition page (history : list Tx) (options : GetTransactionsOptions) : list Tx :=
  match start options with
  | Some id => List.firstn (limit options) (drop_until id history)
  | None =>
      List.firstn (limit options)
        (List.filter (in_ledgers (minLedgerVersion options) (maxLedgerVersion options))
           history)
  end.

Definition api_with (history : list Tx) : RippleAPI State :=
  mkRippleAPI
    connected
    (fun s => (Ok tt, mkState true (faults s) (xrp s)))
    (fun s => (Ok tt, mkState false (faults s) (xrp s)))
    (fun _ => answer (fun s => [mkBalance "XRP" (xrp s)]))
    (fun _ => answer (fun _ => BigNumber.Fin (12 # 1000000)))
    (fun _ _ _ => answer (fun _ => "txJSON"%string))
    (fun _ options => answer (fun _ => page history options))
    (fun _ => answer (fun _ => mkLedger "ledgerHash" "closeTime"))
    (answer (fun _ => (1%N, 1000000%N))).

(** The client of a ledger without transactions. *)
Definition api : RippleAPI State := api_with [].

Definition world (s : State) : World State := mkWorld s [].

(** A ledger holding [balance] XRP, connected, without faults. *)
Definition funded (balance : Q) : State :=
  mkState true [] (Some (BigNumber.Fin balance)).

(** An operation that always throws an error of the given class name. *)
Definition always_throws {A} (name : string) : M State A := throw (Foreign name).

End Mock.

(** ** The account, the ledger and the keys of the concrete runs *)

Module Account.
Import Payments.

Definition hot : Signatory := mkSignatory "rHb9CJAWyB4rj91VRWn96DkukG4bwdtyTh" "sHot".
Definition deposit : Signatory :=
  mkSignatory "rPT1Sjq2YGrBMTttX4GZHjKu9dyfzbpAYe" "sDeposit".
Definition elsewhere : string := "rDsbeomae4FXwgQTJp9Rs64Qg9vDiTCdBv".

Definition createTransaction := Payments.createTransaction Mock.api hot deposit None
  Helpers.createUnitConverters.
Definition createSweepTransaction := Payments.createSweepTransaction Mock.api hot deposit
  None Helpers.createUnitConverters.
Definition getBalance := Payments.getBalance Mock.api hot deposit.

(** Options that name the payport balance of a sub-account source. *)
Definition with_payportBalance (balance : Q) : CreateTransactionOptions :=
  mkOptions None BigNumber.NaN None None None (PbString (BigNumber.Fin balance)).

End Account.

Module History.

Definition monitored : string := "rPT1Sjq2YGrBMTttX4GZHjKu9dyfzbpAYe".

(** A payment from the monitored address: its balance goes down by
    [change], the balance of the destination goes up. *)
Definition payment (id : string) (version index : N) (change : string) : Tx :=
  mkTx id "payment"
    (mkAdjustment monitored None)
    (mkAdjustment Account.elsewhere (Some 7%Z))
    (Some (mkOutcome (Some "tesSUCCESS") version index
             (fun a =>
                if String.eqb a monitored then Some [mkBalanceChange "XRP" change]
                else if String.eqb a Account.elsewhere
                     then Some [mkBalanceChange "XRP" "1"]
                     else None))).

Definition twelve : list Tx :=
  [payment "t01" 101 0 "-1.000012"; payment "t02" 102 0 "-1.000012";
   payment "t03" 103 0 "-1.000012"; payment "t04" 104 0 "-1.000012";
   payment "t05" 105 0 "-1.000012"; payment "t06" 105 1 "-1.000012";
   payment "t07" 107 0 "-1.000012"; payment "t08" 108 0 "-1.000012";
   payment "t09" 109 0 "-1.000012"; payment "t10" 110 0 "-1.000012";
   payment "t11" 111 0 "-1.000012"; payment "t12" 112 0 "-1.000012"].

(** The place of a transaction in a history, from [i] on; 0 when absent. *)
Fixpoint position (id : string) (h : list Tx) (i : nat) : nat :=
  match h with
  | [] => 0
  | tx :: h' => if String.eqb (tx_id tx) id then i else position id h' (S i)
  end.

Definition rank (id : string) : nat := position id twelve 1.

Definition report (a : Monitor.BalanceActivity) : M Mock.State unit :=
  emit (EvCallback (Monitor.ba_externalId a) (Monitor.activitySequence a)).

Definition sequence_of (address : string) (tx : Tx) : string :=
  match fst (Monitor.txToBalanceActivity Mock.api address tx
               (Mock.world (Mock.funded 100))) with
  | Ok (Some a) => Monitor.activitySequence a
  | _ => ""
  end.

End History.

Definition requests (t : list Event) : list GetTransactionsOptions :=
  List.flat_map (fun ev => match ev with
                           | EvGetTransactions _ o => [o]
                           | _ => []
                           end) t.

Definition reported (t : list Event) : list string :=
  List.flat_map (fun ev => match ev with
                           | EvCallback id _ => [id]
                           | _ => []
                           end) t.

Module ToyKeys.
Import KeyDerivation.

Definition root : BIP32Node :=
  mkNode 0 0 (Some [Byte.x01]) [Byte.x02; Byte.xab] [Byte.x03].

(** The node at [m/44'/144'/0'], as [xprvToXpub] leaves it. *)
Definition account : BIP32Node :=
  mkNode 3 7 None [Byte.x03; Byte.xcd] [Byte.x04].

Definition fromBase58 (s : string) : Result BIP32Node :=
  if String.eqb s "xprv-root" then Ok root
  else if String.eqb s "xpub-root" then Ok (neutered root)
  else if String.eqb s "xpub-account" then Ok account
  else Err (Foreign "TypeError").

Definition mix (b : list Byte.byte) (index : N) : list Byte.byte :=
  match Byte.of_N (index mod 256) with
  | Some x => x :: b
  | None => b
  end.

Definition deriveSignatory : string -> N -> Result HdSignatory :=
  KeyDerivation.deriveSignatory fromBase58
    (fun key index => mix (match privateKey key with Some k => k | None => [] end) index)
    (fun key index => mix (publicKey key) index)
    (fun key index => mix (chainCode key) index)
    (fun key => N.of_nat (S (depth key)))
    (fun b => b) (fun b => b)
    (fun hex => List.map (fun c => match Byte.of_N (N_of_ascii c) with
                                   | Some x => x
                                   | None => Byte.x00
                                   end) (list_ascii_of_string hex))
    (fun b => "r" ++ toString_hex b).

End ToyKeys.

(** ** More scripted collaborators *)

Module Outage.

(** A client that has lost the server for good: every [connect] throws. *)
Definition api : RippleAPI Mock.State :=
  mkRippleAPI
    (isConnected Mock.api)
    (fun s => (Err (Foreign "NotConnectedError"), s))
    (disconnect Mock.api)
    (getBalances Mock.api)
    (getFee Mock.api)
    (preparePayment Mock.api)
    (getTransactions Mock.api)
    (getLedger Mock.api)
    (getServerInfo Mock.api).

End Outage.

Module MockClient.
Import LedgerClient.

(** A payment of 5 XRP from the hot address to the sub-account 42 of the
    deposit address, validated in ledger 1000. *)
Definition payment : Transaction :=
  mkTransaction "E3FE6EA3D48F0C2B639448020EA4F03D4F4F8FFDB243A852A0F59177921B4879"
    "payment"
    (mkAdjustment "rHb9CJAWyB4rj91VRWn96DkukG4bwdtyTh" None)
    (Some (mkAmount "XRP" (BigNumber.of_Z 5))) None
    (mkAdjustment "rPT1Sjq2YGrBMTttX4GZHjKu9dyfzbpAYe" (Some 42%Z))
    "tesSUCCESS" 1000 (Some "2019-08-01T00:00:00.000Z")
    (BigNumber.Fin (12 # 1000000)).

(** The client of a ledger at version 1010 that knows every transaction id
    as [payment], accepts what is submitted, and requires a destination tag
    of every address. *)
Definition client : LedgerClient.t Mock.State :=
  mk
    (fun _ => Mock.answer (fun _ => payment))
    (fun version => Mock.answer (fun _ => mkLedgerHeader "ledgerHash" version))
    (Mock.answer (fun _ => 1010%Z))
    (fun txJSON secret => Ok (mkSignResult (txJSON ++ "/" ++ secret) (id payment)))
    (fun _ => Mock.answer (fun _ => mkSubmitResult None (Some "tesSUCCESS")))
    (fun _ => Mock.answer (fun _ => mkSettings (Some true)))
    (fun _ => Mock.answer (fun _ => mkSubscribeResponse "success")).

(** The string form and the message of a caught value; a falsy value is
    taken to be [undefined]. *)
Definition toString (e : Thrown) : Result string :=
  match e with
  | Falsy => Err (Foreign "TypeError")
  | Local _ => Ok "Error"
  | Foreign name => Ok ("[" ++ name ++ "()]")
  end.

Definition errorMessage (e : Thrown) : Result string :=
  match e with
  | Falsy => Ok "undefined"
  | _ => Ok ""
  end.

Definition deriveAddress (publicKey : string) : Result string :=
  Ok "rDsbeomae4FXwgQTJp9Rs64Qg9vDiTCdBv".

End MockClient.

Module ToyWallet.
Import KeyDerivation.

Definition xprv : string :=
  "xprv9s21ZrQH143K3QTDL4LXw2F7HEK3wJUD2nW2nRk4stbPy6cq3jPPqjiChkVvvNKmPGJxWUtg6LnF5kejMRNNU3TGtRBeJgk33yuGBxrMPHi".
Definition xpub : string :=
  "xpub6BosfCnifzxcFwrSzQiqu2DBVTshkCXacvNsWGYJVVhhawA7d4R5WSWGFNbi8Aw6ZRc1brxMyWMzG3DSSSSoekkudhUd9yLb6qx39T9nMdj".

Definition childPrivateKey (key : BIP32Node) (index : N) : list Byte.byte :=
  ToyKeys.mix (match privateKey key with Some k => k | None => [] end) index.
Definition childPublicKey (key : BIP32Node) (index : N) : list Byte.byte :=
  ToyKeys.mix (publicKey key) index.
Definition childChainCode (key : BIP32Node) (index : N) : list Byte.byte :=
  ToyKeys.mix (chainCode key) index.
Definition fingerprint (key : BIP32Node) : N := N.of_nat (S (depth key)).

(** The node at [m/44'/144'/0'] under [ToyKeys.root]. *)
Definition base : BIP32Node :=
  match deriveBasePath childPrivateKey childPublicKey childChainCode fingerprint
          ToyKeys.root with
  | Ok node => node
  | Err _ => ToyKeys.root
  end.

Definition fromBase58 (s : string) : Result BIP32Node :=
  if String.eqb s xprv then Ok ToyKeys.root
  else if String.eqb s xpub then Ok (neutered base)
  else Err (Foreign "TypeError").

Definition toBase58 (key : BIP32Node) : string :=
  if isNeutered key then xpub else xprv.

Definition Buffer_from_hex (hex : string) : list Byte.byte :=
  List.map (fun c => match Byte.of_N (N_of_ascii c) with
                     | Some x => x
                     | None => Byte.x00
                     end) (list_ascii_of_string hex).

Definition base58_encode (b : list Byte.byte) : string := "r" ++ toString_hex b.

Definition deriveSignatory : string -> N -> Result HdSignatory :=
  KeyDerivation.deriveSignatory fromBase58 childPrivateKey childPublicKey childChainCode
    fingerprint (fun b => b) (fun b => b) Buffer_from_hex base58_encode.

Definition xprvToXpub : string + BIP32Node -> Result string :=
  WatchKey.xprvToXpub fromBase58 toBase58 childPrivateKey childPublicKey childChainCode
    fingerprint.

Definition new : string -> Settled HdRipplePayments.t :=
  HdRipplePayments.new fromBase58 toBase58 childPrivateKey childPublicKey childChainCode
    fingerprint (fun b => b) (fun b => b) Buffer_from_hex base58_encode.

End ToyWallet.


(* ================================================================== *)
(** * Vocabulary of the statements *)
(* ================================================================== *)

(** [m] adds no event selected by [p] to the trace. *)
Definition keeps {St : Type} (p : Event -> bool) {A} (m : M St A) : Prop :=
  forall w, count_events p (snd (m w)) = count_events p w.

Module RetrySpec.
Import Utils.

Inductive ErrorClass : Type := ConnectionClass | TimeoutClass | FatalClass.

(** The class of a thrown value, by the two name lists. *)
Definition classify (e : Thrown) : ErrorClass :=
  let eName := constructor_name e in
  if includes CONNECTION_ERRORS eName then ConnectionClass
  else if includes RETRYABLE_ERRORS eName then TimeoutClass
  else FatalClass.

(** Events that the retry wrapper itself produces. *)
Definition is_transport (ev : Event) : bool :=
  match ev with
  | EvAttempt _ | EvLogRetry _ _ | EvDisconnect | EvConnect => true
  | _ => false
  end.

(** [p] selects no event of the retry wrapper. *)
Definition blind (p : Event -> bool) : Prop :=
  forall ev, is_transport ev = true -> p ev = false.

Section WithApi.
Context {St : Type} (api : RippleAPI St).

Definition disconnect_succeeds : Prop := forall s, fst (disconnect api s) = Ok tt.

(** The operation leaves the transport events of the trace alone. *)
Definition quiet {A} (fn : M St A) : Prop :=
  keeps is_attempt fn /\ keeps is_connect fn /\ keeps is_disconnect fn.


End WithApi.

End RetrySpec.

Module Numerals.
Import Js.

(** [n] written with exactly [w] decimal digits, the low ones when [n] has
    more. *)
Fixpoint fixed_width (w : nat) (n : N) : string :=
  match w with
  | O => ""
  | S w' => fixed_width w' (n / 10) ++ String (digit_char (n mod 10)) ""
  end.

Fixpoint zeros (k : nat) : string :=
  match k with
  | O => ""
  | S k' => String "0" (zeros k')
  end.

Definition pow10 (k : nat) : N := (10 ^ N.of_nat k)%N.

Definition or_zero (acc : option N) : N :=
  match acc with Some a => a | None => 0%N end.

End Numerals.

Module PaymentsSpec.
Import Payments.




(** The rules that are checked before the ledger balance is read, in order. *)
Definition rules_before_balance (amount : BigNumber) (fromTo : FromTo)
  : option Failure :=
  if BigNumber.isNaN amount || BigNumber.lte amount BigNumber.zero
  then Some InvalidAmount
  else if String.eqb (fromAddress fromTo) (toAddress fromTo)
  then Some SendToSelf
  else None.

(** The rules that are checked on the reserve-adjusted balance [adjusted] of
    the source address, in order; [balance] is the payport balance. *)
Definition rules_after_balance (adjusted amount fee balance : BigNumber)
  (fromTo : FromTo) : option Failure :=
  let total := BigNumber.plus amount fee in
  if BigNumber.lt adjusted BigNumber.zero
  then Some BelowMinBalance
  else if BigNumber.lt (BigNumber.minus adjusted total) BigNumber.zero
  then Some WouldReduceBelowMinBalance
  else if match fromExtraId fromTo with Some _ => true | None => false end
          && BigNumber.gt total balance
  then Some InsufficientPayportBalance
  else None.

(** The amount rule as the spec words it: finite and greater than 0. *)
Definition finite_and_positive (amount : BigNumber) : bool :=
  BigNumber.isFinite amount && BigNumber.gt amount BigNumber.zero.

End PaymentsSpec.

Module MonitorSpec.
Import Monitor.

(** Outgoing before incoming. *)
Definition type_compare (a b : ActivityType) : comparison :=
  match a, b with
  | Out, In_ => Lt
  | In_, Out => Gt
  | _, _ => Eq
  end.

(** The order of the spec: by ledger version, then by index in the ledger,
    then by direction. *)
Definition key_compare (key1 key2 : N * N * ActivityType) : comparison :=
  let '(version1, index1, type1) := key1 in
  let '(version2, index2, type2) := key2 in
  match N.compare version1 version2 with
  | Eq =>
      match N.compare index1 index2 with
      | Eq => type_compare type1 type2
      | c => c
      end
  | c => c
  end.

Section Paging.
Context {St : Type} (api : RippleAPI St).
Variable address : string.
Variable rank : string -> nat.
Variable bound : nat.

(** The ledger holds finitely many transactions, ranked up to [bound], and
    a full page that continues from a transaction ends at a transaction of
    higher rank. *)
Definition pages_advance : Prop :=
  forall options s txs s' l,
    getTransactions api address options s = (Ok txs, s') ->
    limit options = limit_ ->
    List.length txs = limit_ ->
    last_of txs = Some l ->
    rank (tx_id l) <= bound
    /\ forall id, start options = Some id -> rank id < rank (tx_id l).

(** The loop has come to an end: with a result or with a thrown error. *)
Definition stopped {A} (r : Result (option A)) : Prop :=
  match r with
  | Ok None => False
  | _ => True
  end.

(** How far the cursor is from the end of the ledger. *)
Definition distance (lastTx : option Tx) (page : list Tx) : nat :=
  if Nat.eqb (List.length page) limit_ then
    match lastTx with
    | Some l => S (bound - rank (tx_id l))
    | None => 0
    end
  else 0.

End Paging.

(** The request of one turn of the loop. *)
Definition request_after (from to : N) (lastTx : option Tx) : GetTransactionsOptions :=
  match lastTx with
  | Some l => mkGetTransactionsOptions true false limit_ (Some (tx_id l)) None None
  | None => mkGetTransactionsOptions true false limit_ None (Some from) (Some to)
  end.

End MonitorSpec.

Module UtilsSpec.

(** [k] copies of [v], one after the other. *)
Fixpoint copies (k : nat) (v : string) : string :=
  match k with
  | O => ""
  | S k' => v ++ copies k' v
  end.

End UtilsSpec.

Module PayportSpec.
Import Payments.


Fixpoint has_colon (s : string) : bool :=
  match s with
  | EmptyString => false
  | String c s' => Ascii.eqb c ":" || has_colon s'
  end.

End PayportSpec.

Definition is_warn (ev : Event) : bool :=
  match ev with EvWarn => true | _ => false end.

(** [m] adds to the trace, and only events that satisfy [Q]. *)
Definition adds_only {St : Type} (Q : Event -> Prop) {A} (m : M St A) : Prop :=
  forall w, exists t, trace (snd (m w)) = (t ++ trace w)%list /\ Forall Q t.

Module ActivitySpec.
Import Monitor.

(** A callback that records the activity it is handed in the trace. *)
Definition record_activity {St} (a : BalanceActivity) : M St unit :=
  emit (EvCallback (ba_externalId a) (activitySequence a)).

(** The event is not a report, or it reports an activity of a ledger
    between [from] and [to]. *)
Definition reports_within (from to : N) (ev : Event) : Prop :=
  match ev with
  | EvCallback _ sequence =>
      exists version index type,
        sequence = make_activitySequence version index type
        /\ (from <= version)%N /\ (version <= to)%N
  | _ => True
  end.

End ActivitySpec.

Module KeySpec.
Import KeyDerivation.

(** The characters of an upper-case hexadecimal numeral. *)
Definition is_upper_hex (c : ascii) : bool :=
  let n := N_of_ascii c in
  ((48 <=? n) && (n <=? 57) || (65 <=? n) && (n <=? 70))%N.

(** The signatory as a holder of the public key alone sees it. *)
Definition watch_only (signatory : HdSignatory) : HdSignatory :=
  mkHdSignatory (hd_address signatory)
    (mkKeyPair "" (kp_publicKey (hd_secret signatory))).

End KeySpec.

Module AccountSpec.
Import AccountRipplePayments.

(** The account config carries no secret: a bare address, or an empty
    [secret] or [privateKey]. *)
Definition lacks_secret (accountConfig : RippleAccountConfig) : bool :=
  match accountConfig with
  | ConfigAddress _ => true
  | ConfigSecretPair _ secret => String.eqb secret ""
  | ConfigKeyPair _ privateKey => String.eqb privateKey ""
  end.

End AccountSpec.


(* ================================================================== *)
(** * Theorems *)
(* ================================================================== *)

(** ** The trace of a computation *)

Section TraceFacts.
Context {St : Type}.

Lemma count_events_cons (p : Event -> bool) (s : St) (ev : Event) (t : list Event) :
  count_events p (mkWorld s (ev :: t))
  = (if p ev then 1 else 0) + count_events p (mkWorld s t).
Proof.
  unfold count_events; cbn [trace filter].
  destruct (p ev); reflexivity.
Qed.

Lemma keeps_ret (p : Event -> bool) {A} (a : A) : keeps p (ret (St:=St) a).
Proof. intros w; reflexivity. Qed.

Lemma keeps_throw (p : Event -> bool) {A} (e : Thrown) : keeps p (throw (St:=St) (A:=A) e).
Proof. intros w; reflexivity. Qed.

Lemma keeps_bind (p : Event -> bool) {A B} (m : M St A) (k : A -> M St B) :
  keeps p m -> (forall a, keeps p (k a)) -> keeps p (bind m k).
Proof.
  intros Hm Hk w. unfold bind.
  specialize (Hm w). destruct (m w) as [[a | e] w1]; cbn [snd] in *.
  - rewrite Hk. exact Hm.
  - exact Hm.
Qed.

Lemma keeps_emit (p : Event -> bool) (ev : Event) :
  p ev = false -> keeps p (emit (St:=St) ev).
Proof.
  intros Hp [s t]. unfold emit; cbn [snd api_state trace].
  rewrite count_events_cons, Hp. reflexivity.
Qed.

Lemma keeps_remote (p : Event -> bool) {A} (ev : Event) (call : St -> Result A * St) :
  p ev = false -> keeps p (remote ev call).
Proof.
  intros Hp [s t]. unfold remote; cbn [api_state trace].
  destruct (call s) as [r s']; cbn [snd].
  rewrite count_events_cons, Hp. reflexivity.
Qed.

Lemma keeps_if (p : Event -> bool) {A} (b : bool) (m1 m2 : M St A) :
  keeps p m1 -> keeps p m2 -> keeps p (if b then m1 else m2).
Proof. destruct b; auto. Qed.

End TraceFacts.

(** ** retryIfDisconnected *)

Module RetryFacts.
Import Utils RetrySpec.

Lemma includes_connection_retryable (n : string) :
  includes CONNECTION_ERRORS n = true -> includes RETRYABLE_ERRORS n = true.
Proof.
  unfold includes, RETRYABLE_ERRORS. rewrite existsb_app.
  intros ->. reflexivity.
Qed.

Section Facts.
Context {St : Type} (api : RippleAPI St).

Abbreviation attempts := (count_events is_attempt).
Abbreviation connects := (count_events is_connect).
Abbreviation disconnects := (count_events is_disconnect).

Lemma keeps_reconnect (p : Event -> bool) : blind p -> keeps p (reconnect api).
Proof.
  intros Hp w. unfold reconnect.
  refine (@keeps_bind St p _ _ _ _ _ _ w).
  - apply keeps_if; [apply keeps_remote; apply Hp; reflexivity | apply keeps_ret].
  - intros _. apply keeps_remote, Hp. reflexivity.
Qed.

Lemma keeps_on_rejected (p : Event -> bool) {A} (attempt : nat) (e : Thrown) :
  blind p ->
  forall w, count_events p (snd (on_rejected (A:=A) api attempt e w)) = count_events p w.
Proof.
  intros Hp w. unfold on_rejected.
  destruct (includes RETRYABLE_ERRORS (constructor_name e)); [|reflexivity].
  destruct (includes CONNECTION_ERRORS (constructor_name e)).
  - pose proof (@keeps_bind St p _ _
                  (emit (EvLogRetry true (Z.of_nat MAX_RETRIES - Z.of_nat attempt)))
                  (fun _ => reconnect api)
                  (@keeps_emit St p _ (Hp (EvLogRetry _ _) eq_refl))
                  (fun _ => keeps_reconnect Hp) w) as H.
    destruct (bind _ _ w) as [[u | e'] w']; exact H.
  - cbn [snd]. apply (@keeps_emit St p). apply Hp. reflexivity.
Qed.

Lemma keeps_promiseRetry_from (p : Event -> bool) {A} (fn : M St A) :
  blind p -> keeps p fn ->
  forall r n w,
    count_events p
      (snd (promiseRetry_from r n
              (fun attempt w0 =>
                 match fn w0 with
                 | (Ok a, w') => (Resolved a, w')
                 | (Err e, w') => on_rejected api attempt e w'
                 end) w))
    = count_events p w.
Proof.
  intros Hp Hfn r. induction r as [|r IH]; intros n w; cbn [promiseRetry_from].
  all: pose proof (@keeps_emit St p _ (Hp (EvAttempt n) eq_refl) w) as H0.
  all: pose proof (Hfn (snd (emit (EvAttempt n) w))) as H1.
  all: destruct (fn (snd (emit (EvAttempt n) w))) as [[a | e] w1]; cbn [snd] in H1;
    [cbn [snd]; congruence|].
  all: pose proof (keeps_on_rejected (A:=A) n e Hp w1) as H2.
  all: destruct (on_rejected api n e w1) as [[a | e' | e'] w2]; cbn [snd] in *;
    congruence.
Qed.

(** A retried operation adds to the trace only what the operation adds,
    apart from the events of the transport. *)
Lemma keeps_retryIfDisconnected (p : Event -> bool) {A} (fn : M St A) :
  blind p -> keeps p fn -> keeps p (retryIfDisconnected api fn).
Proof.
  intros Hp Hfn w. unfold retryIfDisconnected, promiseRetry.
  apply keeps_promiseRetry_from; assumption.
Qed.


(** *** One failed attempt *)




(** *** All attempts *)

Lemma attempts_emit (n : nat) (w : World St) :
  attempts (snd (emit (EvAttempt n) w)) = S (attempts w)
  /\ connects (snd (emit (EvAttempt n) w)) = connects w
  /\ disconnects (snd (emit (EvAttempt n) w)) = disconnects w
  /\ hd_error (trace (snd (emit (EvAttempt n) w))) = Some (EvAttempt n).
Proof.
  destruct w as [s t]. unfold emit; cbn [snd api_state trace hd_error].
  rewrite !count_events_cons; cbn [is_attempt is_connect is_disconnect].
  repeat split; reflexivity.
Qed.







(** A successful result of the wrapper is the result of one run of the
    operation. *)
Lemma retryIfDisconnected_Ok_inv {A} (fn : M St A) (w w' : World St) (a : A) :
  retryIfDisconnected api fn w = (Ok a, w') ->
  exists w0, fn w0 = (Ok a, w').
Proof.
  unfold retryIfDisconnected, promiseRetry.
  generalize 1 as n. generalize MAX_RETRIES as r. intros r; revert w.
  induction r as [|r IH]; intros w n; cbn [promiseRetry_from].
  all: destruct (fn (snd (emit (EvAttempt n) w))) as [[a0 | e] w1] eqn:Efn.
  all: try (intros [= -> ->]; eexists; exact Efn).
  all: destruct (on_rejected api n e w1) as [[a1 | e1 | e1] w2] eqn:Eo;
    try discriminate.
  all: try (exfalso; revert Eo; unfold on_rejected;
            repeat match goal with
                   | |- context [if ?b then _ else _] => destruct b
                   | |- context [match ?m ?x with _ => _ end] => destruct (m x) as [[? | ?] ?]
                   end; discriminate).
  apply IH.
Qed.



End Facts.

End RetryFacts.

(** *** Runs against the scripted client *)



Lemma quiet_always_throws {A} (name : string) :
  RetrySpec.quiet (Mock.always_throws (A:=A) name).
Proof. repeat split; intros w; reflexivity. Qed.



(** The whole trace of that run, oldest event first: each failed run is
    followed by a disconnect and a connect, the fourth one too, where the
    log line announces [-1] further retries. *)
Example retryIfDisconnected_trace :
  List.rev (trace (snd (Utils.retryIfDisconnected Mock.api
                          (Mock.always_throws (A:=unit) "ConnectionError")
                          (Mock.world (Mock.funded 100)))))
  = [EvAttempt 1; EvLogRetry true 2; EvDisconnect; EvConnect;
     EvAttempt 2; EvLogRetry true 1; EvDisconnect; EvConnect;
     EvAttempt 3; EvLogRetry true 0; EvDisconnect; EvConnect;
     EvAttempt 4; EvLogRetry true (-1); EvDisconnect; EvConnect].
Proof. reflexivity. Qed.

Example retryIfDisconnected_timeout_trace :
  List.rev (trace (snd (Utils.retryIfDisconnected Mock.api
                          (Mock.always_throws (A:=unit) "TimeoutError")
                          (Mock.world (Mock.funded 100)))))
  = [EvAttempt 1; EvLogRetry false 2; EvAttempt 2; EvLogRetry false 1;
     EvAttempt 3; EvLogRetry false 0; EvAttempt 4; EvLogRetry false (-1)].
Proof. reflexivity. Qed.

Example retryIfDisconnected_fatal_trace :
  Utils.retryIfDisconnected Mock.api
    (Mock.always_throws (A:=unit) "ValidationError")
    (Mock.world (Mock.funded 100))
  = (Err (Foreign "ValidationError"),
     mkWorld (Mock.funded 100) [EvAttempt 1]).
Proof. reflexivity. Qed.

(** A data call that fails twice on a lost connection and then answers. *)
Example retryIfDisconnected_recovers :
  let s := Mock.mkState true ["DisconnectedError"; "NotConnectedError"]
             (Some (BigNumber.of_Z 100)) in
  let run :=
    Utils.retryIfDisconnected Mock.api
      (remote (EvGetBalances "rX") (getBalances Mock.api "rX")) (Mock.world s) in
  fst run = Ok [mkBalance "XRP" (Some (BigNumber.of_Z 100))]
  /\ count_events is_attempt (snd run) = 3
  /\ count_events is_connect (snd run) = 2.
Proof. cbv zeta. repeat split; reflexivity. Qed.

(** ** Decimal numerals, padding and the order of strings *)

Module JsFacts.
Import Js Utils Helpers Numerals.

Lemma pow10_S (k : nat) : pow10 (S k) = (10 * pow10 k)%N.
Proof. unfold pow10. rewrite Nat2N.inj_succ, N.pow_succ_r'. reflexivity. Qed.

Lemma length_app (s t : string) :
  String.length (s ++ t) = String.length s + String.length t.
Proof. induction s as [|c s IH]; cbn; [reflexivity | now rewrite IH]. Qed.

Lemma app_assoc (s t u : string) : (s ++ t) ++ u = s ++ (t ++ u).
Proof. induction s as [|c s IH]; cbn; [reflexivity | now rewrite IH]. Qed.

Lemma length_fixed_width (w : nat) (n : N) : String.length (fixed_width w n) = w.
Proof.
  revert n. induction w as [|w IH]; intros n; cbn [fixed_width]; [reflexivity|].
  rewrite length_app, IH. cbn. lia.
Qed.

Lemma digit_char_code (d : N) : (d < 10)%N -> N_of_ascii (digit_char d) = (48 + d)%N.
Proof. intros H. unfold digit_char. apply N_ascii_embedding. lia. Qed.

Lemma is_digit_digit_char (d : N) : (d < 10)%N -> is_digit (digit_char d) = true.
Proof.
  intros H. unfold is_digit. rewrite digit_char_code by assumption.
  apply andb_true_intro; split; apply N.leb_le; lia.
Qed.

(** *** Lexicographic order *)

Lemma compare_app (s1 s2 t1 t2 : string) :
  String.length s1 = String.length s2 ->
  String.compare (s1 ++ t1) (s2 ++ t2)
  = match String.compare s1 s2 with
    | Eq => String.compare t1 t2
    | c => c
    end.
Proof.
  revert s2. induction s1 as [|c1 s1 IH]; intros [|c2 s2]; cbn; try discriminate.
  - reflexivity.
  - intros [= H]. destruct (Ascii.compare c1 c2); auto.
Qed.

Lemma compare_refl (s : string) : String.compare s s = Eq.
Proof.
  induction s as [|c s IH]; cbn; [reflexivity|].
  unfold Ascii.compare. now rewrite N.compare_refl.
Qed.

Lemma compare_digit_char (a b : N) :
  (a < 10)%N -> (b < 10)%N ->
  Ascii.compare (digit_char a) (digit_char b) = N.compare a b.
Proof.
  intros Ha Hb. unfold Ascii.compare. rewrite !digit_char_code by assumption.
  destruct (N.compare_spec a b) as [H | H | H].
  - subst. apply N.compare_refl.
  - apply N.compare_lt_iff. lia.
  - apply N.compare_gt_iff. lia.
Qed.

(** Names the quotient and the remainder of [n] by ten. *)
Ltac by_ten n :=
  let q := fresh "q" in
  let r := fresh "r" in
  pose proof (N.Div0.div_mod n 10);
  pose proof (N.mod_lt n 10 ltac:(discriminate));
  set (q := (n / 10)%N) in *;
  set (r := (n mod 10)%N) in *;
  clearbody q r.

Lemma compare_by_digits (a b : N) :
  N.compare a b
  = match N.compare (a / 10) (b / 10) with
    | Eq => N.compare (a mod 10) (b mod 10)
    | c => c
    end.
Proof.
  by_ten a. by_ten b.
  destruct (N.compare_spec q q0) as [H3 | H3 | H3].
  - destruct (N.compare_spec r r0) as [H' | H' | H'].
    + apply N.compare_eq_iff. lia.
    + apply N.compare_lt_iff. lia.
    + apply N.compare_gt_iff. lia.
  - apply N.compare_lt_iff. lia.
  - apply N.compare_gt_iff. lia.
Qed.

Lemma div10_lt_pow10 (w : nat) (n : N) : (n < pow10 (S w))%N -> (n / 10 < pow10 w)%N.
Proof.
  intros H. rewrite pow10_S in H. apply N.Div0.div_lt_upper_bound. exact H.
Qed.

(** On numerals of the same width the order of the strings is the order of
    the numbers. *)
Lemma compare_fixed_width (w : nat) (a b : N) :
  (a < pow10 w)%N -> (b < pow10 w)%N ->
  String.compare (fixed_width w a) (fixed_width w b) = N.compare a b.
Proof.
  revert a b. induction w as [|w IH]; intros a b Ha Hb.
  - unfold pow10 in *. cbn in *. assert (a = 0%N) by lia. assert (b = 0%N) by lia.
    subst. reflexivity.
  - cbn [fixed_width].
    rewrite compare_app by (now rewrite !length_fixed_width).
    rewrite IH by (now apply div10_lt_pow10).
    rewrite (compare_by_digits a b).
    destruct (N.compare (a / 10) (b / 10)); try reflexivity.
    cbn [String.compare].
    rewrite compare_digit_char by (apply N.mod_lt; lia).
    destruct (N.compare (a mod 10) (b mod 10)); reflexivity.
Qed.

(** *** [String(n)] and [padLeft] *)

Lemma digits_loop_S (fuel : nat) (n : N) (acc : string) :
  digits_loop (S fuel) n acc
  = if (n / 10 =? 0)%N then String (digit_char (n mod 10)) acc
    else digits_loop fuel (n / 10) (String (digit_char (n mod 10)) acc).
Proof. reflexivity. Qed.

Lemma digits_loop_spec (fuel : nat) :
  forall (n : N) (acc : string),
    (n < pow10 (S fuel))%N ->
    exists k, 1 <= k <= S fuel
      /\ digits_loop (S fuel) n acc = fixed_width k n ++ acc
      /\ (n < pow10 k)%N
      /\ (k = 1 \/ (pow10 (k - 1) <= n)%N).
Proof.
  induction fuel as [|fuel IH]; intros n acc Hn.
  all: rewrite digits_loop_S; destruct (N.eqb_spec (n / 10) 0) as [Hz | Hnz].
  1, 3: exists 1; cbn [fixed_width append];
    apply N.div_small_iff in Hz; [|discriminate];
    change (pow10 1) with 10%N; repeat split; try lia; now left.
  - exfalso. apply Hnz. apply N.div_small_iff; [discriminate | exact Hn].
  - destruct (IH (n / 10)%N (String (digit_char (n mod 10)) acc)
                (div10_lt_pow10 Hn)) as (k & Hk & -> & Hlt & Hmin).
    exists (S k). cbn [fixed_width]. rewrite app_assoc. cbn [append].
    repeat split; try lia.
    + rewrite pow10_S. by_ten n. lia.
    + right. replace (S k - 1) with (S (k - 1)) by lia. rewrite pow10_S.
      by_ten n. destruct Hmin as [-> | Hmin].
      * change (pow10 (1 - 1)) with 1%N. lia.
      * lia.
Qed.

Lemma lt_pow10_fuel (n : N) : (n < pow10 (S (N.to_nat (N.log2 n))))%N.
Proof.
  destruct n as [|p]; [reflexivity|].
  pose proof (N.log2_spec (Npos p) ltac:(lia)) as [_ H].
  eapply N.lt_le_trans; [exact H|].
  unfold pow10. rewrite Nat2N.inj_succ, N2Nat.id.
  apply N.pow_le_mono_l. lia.
Qed.

(** [String(n)] is the shortest decimal numeral of [n]. *)
Lemma String_of_N_spec (n : N) :
  exists k, 1 <= k
    /\ String_of_N n = fixed_width k n
    /\ (n < pow10 k)%N
    /\ (k = 1 \/ (pow10 (k - 1) <= n)%N).
Proof.
  destruct (@digits_loop_spec (N.to_nat (N.log2 n)) n "" (lt_pow10_fuel n))
    as (k & Hk & E & Hlt & Hmin).
  exists k. repeat split; try lia; try assumption.
  unfold String_of_N. rewrite E.
  clear. induction (fixed_width k n) as [|c s IH]; cbn; congruence.
Qed.

Lemma padLeft_loop_zeros (turns : nat) :
  forall (x : string) (n : nat),
    turns = n - String.length x ->
    padLeft_loop turns x n "0" = zeros turns ++ x.
Proof.
  induction turns as [|turns IH]; intros x n H; cbn [padLeft_loop zeros].
  - reflexivity.
  - destruct (Nat.ltb_spec (String.length x) n) as [Hlt | Hge]; [|lia].
    rewrite IH by (cbn; lia).
    clear. induction turns as [|t IH]; cbn; [reflexivity|].
    cbn in IH. now rewrite IH.
Qed.

Lemma padLeft_zeros (x : string) (n : nat) :
  padLeft x n "0" = zeros (n - String.length x) ++ x.
Proof. unfold padLeft. now apply padLeft_loop_zeros. Qed.

Lemma fixed_width_zero (j : nat) : fixed_width j 0 = zeros j.
Proof.
  induction j as [|j IH]; cbn [fixed_width zeros]; [reflexivity|].
  change (0 / 10)%N with 0%N. rewrite IH.
  clear. induction j as [|j IH]; cbn; [reflexivity|].
  cbn in IH. now rewrite IH.
Qed.

Lemma fixed_width_pad (k : nat) :
  forall (j : nat) (n : N),
    (n < pow10 k)%N -> fixed_width (j + k) n = zeros j ++ fixed_width k n.
Proof.
  induction k as [|k IH]; intros j n Hn.
  - unfold pow10 in Hn; cbn in Hn. assert (n = 0%N) by lia. subst.
    rewrite Nat.add_0_r, fixed_width_zero. cbn.
    clear. induction j; cbn; congruence.
  - replace (j + S k) with (S (j + k)) by lia. cbn [fixed_width].
    rewrite IH by (now apply div10_lt_pow10). now rewrite app_assoc.
Qed.

Lemma pow10_mono (a b : nat) : a <= b -> (pow10 a <= pow10 b)%N.
Proof. intros H. unfold pow10. apply N.pow_le_mono_r; lia. Qed.

(** Padding [String(n)] with zeros to [w] places gives the numeral of
    width [w], as long as [n] has at most [w] digits. *)
Lemma padLeft_String_of_N (w : nat) (n : N) :
  1 <= w -> (n < pow10 w)%N ->
  padLeft (String_of_N n) w "0" = fixed_width w n.
Proof.
  intros Hw Hn.
  destruct (String_of_N_spec n) as (k & Hk & -> & Hlt & Hmin).
  assert (k <= w) as Hkw.
  { destruct Hmin as [-> | Hmin]; [assumption|].
    destruct (Nat.le_gt_cases k w) as [|Hgt]; [assumption|].
    pose proof (pow10_mono (a:=w) (b:=k - 1) ltac:(lia)). lia. }
  rewrite padLeft_zeros, length_fixed_width.
  replace w with ((w - k) + k) at 2 by lia.
  now rewrite fixed_width_pad.
Qed.

(** *** Reading a numeral back *)

Lemma string_forall_app (p : ascii -> bool) (s t : string) :
  string_forall p (s ++ t) = string_forall p s && string_forall p t.
Proof.
  induction s as [|c s IH]; cbn; [reflexivity|].
  rewrite IH. now rewrite andb_assoc.
Qed.

Lemma fixed_width_digits (w : nat) (n : N) :
  string_forall is_digit (fixed_width w n) = true.
Proof.
  revert n. induction w as [|w IH]; intros n; cbn [fixed_width]; [reflexivity|].
  rewrite string_forall_app, IH. cbn.
  rewrite is_digit_digit_char by (apply N.mod_lt; discriminate). reflexivity.
Qed.

Lemma parse_digits_snoc (s : string) (d : N) :
  forall acc,
    string_forall is_digit s = true -> (d < 10)%N ->
    parse_digits (s ++ String (digit_char d) "") acc
    = Some (10 * or_zero (parse_digits s acc) + d)%N.
Proof.
  induction s as [|c s IH]; intros acc Hs Hd.
  - cbn [append parse_digits]. rewrite is_digit_digit_char by assumption.
    rewrite digit_char_code by assumption. unfold or_zero.
    f_equal. destruct acc; lia.
  - cbn [append parse_digits string_forall] in *.
    apply andb_prop in Hs as [Hc Hs]. rewrite Hc. now apply IH.
Qed.

Lemma parse_fixed_width (w : nat) (n : N) :
  parse_digits (fixed_width (S w) n) None = Some (n mod pow10 (S w))%N.
Proof.
  revert n. induction w as [|w IH]; intros n.
  - cbn [fixed_width append parse_digits].
    rewrite is_digit_digit_char, digit_char_code by (apply N.mod_lt; discriminate).
    change (pow10 1) with 10%N. f_equal.
    generalize (n mod 10)%N. intros r. lia.
  - change (fixed_width (S (S w)) n)
      with (fixed_width (S w) (n / 10) ++ String (digit_char (n mod 10)) "").
    rewrite parse_digits_snoc
      by (try apply fixed_width_digits; apply N.mod_lt; discriminate).
    rewrite IH. cbn [or_zero]. f_equal.
    rewrite (pow10_S (S w)), N.Div0.mod_mul_r.
    generalize ((n / 10) mod pow10 (S w))%N, (n mod 10)%N. intros q r. lia.
Qed.






End JsFacts.

(** ** Comparisons of bignumber.js values *)

Module BigNumberFacts.
Import BigNumber.

Lemma lt_Fin (a b : Q) : lt (Fin a) (Fin b) = true <-> (a < b)%Q.
Proof.
  unfold lt; cbn [comparedTo]. rewrite Qlt_alt.
  destruct (a ?= b)%Q; split; congruence.
Qed.



Lemma minus_Fin (a b : Q) : minus (Fin a) (Fin b) = Fin (a + - b).
Proof. reflexivity. Qed.

End BigNumberFacts.

(** ** BaseRipplePayments *)

Module PaymentsFacts.
Import Constants Helpers Utils Payments RetrySpec RetryFacts PaymentsSpec.

Lemma blind_preparePayment : blind is_preparePayment.
Proof. intros [] H; try discriminate; reflexivity. Qed.

Section Facts.
Context {St : Type} (api : RippleAPI St).
Variables hot deposit : Signatory.
Variable config_offset : option N.
Variable converters : nat -> UnitConverters.

Abbreviation prepares := (count_events is_preparePayment).

(** *** doGetPayport *)


(** *** resolveIndexFromAdjustment *)

(** C6 (amended).  The hot address resolves to index 0; otherwise the
    deposit address resolves to the tag when the tag is present and not
    zero, and to 1 without a tag or with tag 0; any other address resolves
    to [null]. *)
Theorem resolveIndexFromAdjustment_cases (address : string) (tag : option Z) :
  let r := resolveIndexFromAdjustment hot deposit (mkAdjustment address tag) in
  (address = sig_address hot -> r = Some 0%Z)
  /\ (address <> sig_address hot -> address = sig_address deposit ->
      r = Some (match tag with
                | Some t => if (t =? 0)%Z then 1%Z else t
                | None => 1%Z
                end))
  /\ (address <> sig_address hot -> address <> sig_address deposit -> r = None).
Proof.
  cbv zeta. unfold resolveIndexFromAdjustment; cbn [adj_address adj_tag].
  destruct (String.eqb_spec address (sig_address hot)) as [Hh | Hh];
    destruct (String.eqb_spec address (sig_address deposit)) as [Hd | Hd];
    repeat split; intros; try congruence.
  destruct tag as [[|p|p]|]; reflexivity.
Qed.

(** *** resolveFeeOption *)

Lemma remote_Ok_inv {A} (ev : Event) (call : St -> Result A * St)
  (w w' : World St) (a : A) :
  remote ev call w = (Ok a, w') ->
  call (api_state w) = (Ok a, api_state w').
Proof.
  unfold remote. destruct (call (api_state w)) as [r s'].
  intros [= -> <-]. reflexivity.
Qed.


(** *** What the payments functions add to the trace *)

Lemma keeps_liftR (p : Event -> bool) {A} (r : Result A) : keeps p (liftR (St:=St) r).
Proof. intros w; reflexivity. Qed.

Ltac keeps_step :=
  first
    [ apply keeps_ret
    | apply keeps_throw
    | apply keeps_liftR
    | apply keeps_bind; [|intros ?]
    | apply keeps_retryIfDisconnected; [assumption|]
    | apply keeps_remote; reflexivity
    | apply keeps_emit; reflexivity
    | match goal with
      | |- keeps _ (match ?x with _ => _ end) => destruct x
      end ].

Lemma keeps_doResolvePayport (p : Event -> bool) (payport : ResolveablePayport) :
  keeps p (doResolvePayport hot deposit (St:=St) payport).
Proof.
  unfold doResolvePayport, assertValidAddress, assertValidExtraIdOrNil.
  destruct payport; repeat keeps_step.
Qed.

Lemma keeps_getBalance (p : Event -> bool) (payport : ResolveablePayport) :
  blind p -> (forall a, p (EvGetBalances a) = false) ->
  keeps p (getBalance api hot deposit payport).
Proof.
  intros Hb Hp. unfold getBalance, resolvePayport, retryDced.
  apply keeps_bind; [apply keeps_doResolvePayport|]. intros pp.
  destruct (pp_extraId pp); [apply keeps_throw|].
  apply keeps_bind; [|intros ?; apply keeps_ret].
  apply keeps_retryIfDisconnected; [assumption|].
  apply keeps_remote, Hp.
Qed.

Lemma keeps_resolveFromTo (p : Event -> bool) (from : Z) (to : ResolveablePayport) :
  keeps p (resolveFromTo hot deposit (St:=St) from to).
Proof.
  unfold resolveFromTo, getPayport, resolvePayport.
  apply keeps_bind; [apply keeps_ret|]. intros ?.
  apply keeps_bind; [apply keeps_doResolvePayport|]. intros ?. apply keeps_ret.
Qed.

Lemma keeps_resolveFeeOption (p : Event -> bool) (options : CreateTransactionOptions) :
  blind p -> (forall c, p (EvGetFee c) = false) ->
  keeps p (resolveFeeOption api converters options).
Proof.
  intros Hb Hp. unfold resolveFeeOption, retryDced.
  destruct (feeLevel options) as [[| | |]|].
  1: destruct (feeRateType options) as [[| |]|]; repeat keeps_step.
  all: apply keeps_bind;
    [apply keeps_retryIfDisconnected; [assumption | apply keeps_remote, Hp]|].
  all: intros ?; repeat keeps_step.
Qed.

Lemma keeps_resolvePayportBalance (p : Event -> bool) (fromPayport : Payport)
  (options : CreateTransactionOptions) :
  blind p -> (forall a, p (EvGetBalances a) = false) ->
  keeps p (resolvePayportBalance api hot deposit fromPayport options).
Proof.
  intros Hb Hp. unfold resolvePayportBalance.
  destruct (pp_extraId fromPayport) as [extraId|].
  - destruct (payportBalance options) as [| n | pb]; try apply keeps_throw.
    destruct (BigNumber.isNaN pb); [apply keeps_throw | apply keeps_ret].
  - apply keeps_bind; [now apply keeps_getBalance | intros ?; apply keeps_ret].
Qed.

(** *** getBalance *)


(** *** createSweepTransaction *)

(** A sweep that succeeds has resolved its payports, its fee and its
    payport balance on the way. *)
Lemma createSweepTransaction_resolved (from : Z) (to : ResolveablePayport)
  (options : CreateTransactionOptions) (w w' : World St) (tx : UnsignedTransaction) :
  createSweepTransaction api hot deposit config_offset converters from to options w
  = (Ok tx, w') ->
  exists fromTo w1 fee w2 balance w3,
    resolveFromTo hot deposit from to w = (Ok fromTo, w1)
    /\ resolveFeeOption api converters options w1 = (Ok fee, w2)
    /\ resolvePayportBalance api hot deposit (fromPayport fromTo) options w2
       = (Ok balance, w3).
Proof.
  unfold createSweepTransaction, bind.
  destruct (resolveFromTo hot deposit from to w) as [[fromTo | e] w1] eqn:E1;
    [|discriminate].
  destruct (resolveFeeOption api converters options w1) as [[fee | e] w2] eqn:E2;
    [|discriminate].
  destruct (resolvePayportBalance api hot deposit (fromPayport fromTo) options w2)
    as [[balance | e] w3] eqn:E3; [|discriminate].
  intros _. exists fromTo, w1, fee, w2, balance, w3. repeat split; assumption.
Qed.


(** *** createTransaction *)

(** Apart from positive infinity, the test of the code is the test of the
    spec. *)
Lemma finite_and_positive_iff (amount : BigNumber) :
  amount <> BigNumber.PosInf ->
  finite_and_positive amount
  = negb (BigNumber.isNaN amount || BigNumber.lte amount BigNumber.zero).
Proof.
  unfold finite_and_positive, BigNumber.gt, BigNumber.lte, BigNumber.zero, BigNumber.of_Z.
  destruct amount as [| | |q]; try reflexivity; try congruence.
  intros _. cbn. destruct (q ?= inject_Z 0)%Q; reflexivity.
Qed.

(** C1 (amended).  After the payports and the fee are resolved,
    [createTransaction] first resolves the payport balance, where a
    sub-account source without a [payportBalance] string is an error of its
    own; then it applies, in this order and each with its own error: the
    amount is not NaN and greater than 0; source and destination differ;
    the reserve-adjusted balance of the source address is not negative; that
    balance minus amount plus fee is not negative; for a sub-account source,
    amount plus fee does not exceed the payport balance.  Only then is the
    payment prepared, with that amount and fee.  The errors of these rules
    are pairwise distinct. *)
Theorem createTransaction_validation (from : Z) (to : ResolveablePayport)
  (amount : BigNumber) (options : CreateTransactionOptions)
  (w w1 w2 : World St) (fromTo : FromTo) (fee : FeeOption) :
  resolveFromTo hot deposit from to w = (Ok fromTo, w1) ->
  resolveFeeOption api converters options w1 = (Ok fee, w2) ->
  let run :=
    createTransaction api hot deposit config_offset converters from to amount options w in
  NoDup [InvalidAmount; SendToSelf; BelowMinBalance; WouldReduceBelowMinBalance;
         InsufficientPayportBalance; MissingPayportBalance]
  /\
  (fromExtraId fromTo <> None ->
   (forall b, payportBalance options <> PbString b) ->
   run = (Err (Local MissingPayportBalance), w2))
  /\ forall balance w3,
       resolvePayportBalance api hot deposit (fromPayport fromTo) options w2
       = (Ok balance, w3) ->
       (forall f, rules_before_balance amount fromTo = Some f ->
                  run = (Err (Local f), w3))
       /\ (rules_before_balance amount fromTo = None ->
           forall r w4,
             getBalance api hot deposit
               (ByPayport (mkPayport (fromAddress fromTo) None)) w3 = (Ok r, w4) ->
             (forall f,
                rules_after_balance (confirmedBalance r) amount (feeMain fee)
                  balance fromTo = Some f ->
                run = (Err (Local f), w4))
             /\ (rules_after_balance (confirmedBalance r) amount (feeMain fee)
                   balance fromTo = None ->
                 prepares w4 = prepares w
                 /\ forall tx w5,
                      run = (Ok tx, w5) ->
                      utx_amount tx = amount /\ utx_fee tx = feeMain fee
                      /\ utx_status tx = Unsigned)).
Proof.
  intros H1 H2 run. split; [|split].
  - repeat match goal with
           | |- NoDup (_ :: _) => constructor
           | |- NoDup [] => constructor
           | |- ~ In _ _ =>
               cbn; intros H; repeat (destruct H as [H | H]; [discriminate|]); exact H
           end.
  - intros Hsub Hmissing. subst run.
    unfold createTransaction, bind. rewrite H1, H2.
    unfold resolvePayportBalance.
    assert (pp_extraId (fromPayport fromTo) = fromExtraId fromTo) as Ee.
    { unfold resolveFromTo, getPayport, bind, ret in H1.
      destruct (resolvePayport hot deposit to w) as [[tp | e] w']; [|discriminate].
      injection H1 as <- <-. reflexivity. }
    rewrite Ee. destruct (fromExtraId fromTo) as [extraId|]; [|congruence].
    destruct (payportBalance options) as [| n | pb]; try reflexivity.
    exfalso. exact (Hmissing pb eq_refl).
  - intros balance w3 H3.
    assert (run = doCreateTransaction api hot deposit config_offset fromTo fee
                    amount balance options w3) as E.
    { subst run. unfold createTransaction, bind. rewrite H1, H2, H3. reflexivity. }
    clearbody run. subst run. unfold doCreateTransaction, rules_before_balance.
    split.
    + intros f Hf.
      destruct (BigNumber.isNaN amount || BigNumber.lte amount BigNumber.zero);
        [injection Hf as <-; reflexivity|].
      destruct (String.eqb (fromAddress fromTo) (toAddress fromTo));
        [injection Hf as <-; reflexivity | discriminate].
    + intros Hpre r w4 Hbal.
      destruct (BigNumber.isNaN amount || BigNumber.lte amount BigNumber.zero);
        [discriminate|].
      destruct (String.eqb (fromAddress fromTo) (toAddress fromTo)); [discriminate|].
      assert (forall k : BalanceResult -> M St UnsignedTransaction,
                bind (getBalance api hot deposit
                        (ByPayport (mkPayport (fromAddress fromTo) None))) k w3
                = k r w4) as Estep
        by (intros k; unfold bind; rewrite Hbal; reflexivity).
      rewrite Estep. clear Estep. unfold rules_after_balance. cbv zeta.
      destruct (BigNumber.lt (confirmedBalance r) BigNumber.zero).
      { split; [intros f [= <-]; reflexivity | discriminate]. }
      destruct (BigNumber.lt _ BigNumber.zero).
      { split; [intros f [= <-]; reflexivity | discriminate]. }
      destruct (_ && _).
      { split; [intros f [= <-]; reflexivity | discriminate]. }
      split; [discriminate|]. intros _. split.
      * pose proof (keeps_resolveFromTo is_preparePayment from to w) as K1.
        pose proof (keeps_resolveFeeOption options blind_preparePayment
                      (fun _ => eq_refl) w1) as K2.
        pose proof (keeps_resolvePayportBalance (fromPayport fromTo) options
                      blind_preparePayment (fun _ => eq_refl) w2) as K3.
        pose proof (keeps_getBalance
                      (ByPayport (mkPayport (fromAddress fromTo) None))
                      blind_preparePayment (fun _ => eq_refl) w3) as K4.
        rewrite H1 in K1. rewrite H2 in K2. rewrite H3 in K3. rewrite Hbal in K4.
        cbn [snd] in *. congruence.
      * intros tx w5 Hrun. unfold bind, ret in Hrun.
        destruct (retryDced api _ w4) as [[prepared | e] w5']; [|discriminate].
        injection Hrun as <- <-. repeat split.
Qed.

End Facts.

End PaymentsFacts.

(** *** Runs against the scripted client *)


Example addresses_are_valid :
  Helpers.isValidAddress (Payments.sig_address Account.hot) = true
  /\ Helpers.isValidAddress (Payments.sig_address Account.deposit) = true
  /\ Helpers.isValidAddress Account.elsewhere = true.
Proof. repeat split; reflexivity. Qed.

Example doGetPayport_42 :
  Payments.doGetPayport Account.hot Account.deposit 42
  = Payments.mkPayport "rPT1Sjq2YGrBMTttX4GZHjKu9dyfzbpAYe" (Some "42").
Proof. reflexivity. Qed.

(** The two examples of the spec: the deposit address with tag 42, and an
    address that the account does not control. *)
Example resolveIndexFromAdjustment_examples :
  Payments.resolveIndexFromAdjustment Account.hot Account.deposit
    (mkAdjustment "rPT1Sjq2YGrBMTttX4GZHjKu9dyfzbpAYe" (Some 42%Z)) = Some 42%Z
  /\ Payments.resolveIndexFromAdjustment Account.hot Account.deposit
       (mkAdjustment Account.elsewhere None) = None
  /\ Payments.resolveIndexFromAdjustment Account.hot Account.deposit
       (mkAdjustment "rHb9CJAWyB4rj91VRWn96DkukG4bwdtyTh" (Some 42%Z)) = Some 0%Z.
Proof. repeat split; reflexivity. Qed.

(** C6, as stated, fails: the deposit address with the tag 0, which is
    present, resolves to 1 and not to the tag. *)
Lemma resolveIndexFromAdjustment_tag_zero :
  let r := Payments.resolveIndexFromAdjustment Account.hot Account.deposit
             (mkAdjustment "rPT1Sjq2YGrBMTttX4GZHjKu9dyfzbpAYe" (Some 0%Z)) in
  r = Some 1%Z /\ r <> Some 0%Z.
Proof. cbv zeta. split; [reflexivity | discriminate]. Qed.

(** C1, as stated, fails: an amount of positive infinity is not finite, yet
    it passes the amount rule and is turned down by the balance rule. *)
Lemma createTransaction_infinite_amount :
  let run := Account.createTransaction 0 (Payments.ByAddress Account.elsewhere)
               BigNumber.PosInf Payments.DEFAULT_CREATE_TRANSACTION_OPTIONS
               (Mock.world (Mock.funded 100)) in
  BigNumber.isFinite BigNumber.PosInf = false
  /\ fst run = Err (Local WouldReduceBelowMinBalance)
  /\ fst run <> Err (Local InvalidAmount).
Proof. cbv zeta. repeat split; try reflexivity. vm_compute. discriminate. Qed.

(** The rules at work on an account that holds 100 XRP. *)
Example createTransaction_runs :
  let send amount :=
    fst (Account.createTransaction 0 (Payments.ByAddress Account.elsewhere)
           (BigNumber.Fin amount) Payments.DEFAULT_CREATE_TRANSACTION_OPTIONS
           (Mock.world (Mock.funded 100))) in
  send 0%Q = Err (Local InvalidAmount)
  /\ send (-1)%Q = Err (Local InvalidAmount)
  /\ send 81%Q = Err (Local WouldReduceBelowMinBalance)
  /\ (exists tx, send 79%Q = Ok tx)
  /\ fst (Account.createTransaction 0 (Payments.ByAddress Account.elsewhere)
            (BigNumber.Fin 1) Payments.DEFAULT_CREATE_TRANSACTION_OPTIONS
            (Mock.world (Mock.funded 19))) = Err (Local BelowMinBalance)
  /\ fst (Account.createTransaction 0 (Payments.ByIndex 0)
            (BigNumber.Fin 1) Payments.DEFAULT_CREATE_TRANSACTION_OPTIONS
            (Mock.world (Mock.funded 100))) = Err (Local SendToSelf)
  /\ fst (Account.createTransaction 7 (Payments.ByAddress Account.elsewhere)
            (BigNumber.Fin 1) Payments.DEFAULT_CREATE_TRANSACTION_OPTIONS
            (Mock.world (Mock.funded 100))) = Err (Local MissingPayportBalance)
  /\ fst (Account.createTransaction 7 (Payments.ByAddress Account.elsewhere)
            (BigNumber.Fin 0) Payments.DEFAULT_CREATE_TRANSACTION_OPTIONS
            (Mock.world (Mock.funded 100))) = Err (Local MissingPayportBalance)
  /\ fst (Account.createTransaction 7 (Payments.ByAddress Account.elsewhere)
            (BigNumber.Fin 5) (Account.with_payportBalance 3)
            (Mock.world (Mock.funded 100))) = Err (Local InsufficientPayportBalance).
Proof. cbv zeta. repeat split; try reflexivity. eexists; reflexivity. Qed.

(** The validation at a NaN amount sent from the hot address. *)
Lemma createTransaction_validation_witness :
  Account.createTransaction 0 (Payments.ByAddress Account.elsewhere)
    BigNumber.NaN Payments.DEFAULT_CREATE_TRANSACTION_OPTIONS
    (Mock.world (Mock.funded 100))
  = (Err (Local InvalidAmount),
     snd (Payments.resolvePayportBalance Mock.api Account.hot Account.deposit
            (Payments.mkPayport "rHb9CJAWyB4rj91VRWn96DkukG4bwdtyTh" None)
            Payments.DEFAULT_CREATE_TRANSACTION_OPTIONS
            (snd (Payments.resolveFeeOption Mock.api Helpers.createUnitConverters
                    Payments.DEFAULT_CREATE_TRANSACTION_OPTIONS
                    (Mock.world (Mock.funded 100)))))).
Proof.
  refine (proj1 (proj2 (proj2
                   (@PaymentsFacts.createTransaction_validation _ Mock.api
                      Account.hot Account.deposit None Helpers.createUnitConverters
                      0 (Payments.ByAddress Account.elsewhere) BigNumber.NaN
                      Payments.DEFAULT_CREATE_TRANSACTION_OPTIONS
                      (Mock.world (Mock.funded 100)) _ _ _ _ eq_refl eq_refl))
                   (BigNumber.Fin (100 + - inject_Z 20)) _ eq_refl)
            InvalidAmount eq_refl).
Defined.


(** The trace of that sweep: the fee and the balance are asked for, no
    payment is prepared. *)
Example createSweepTransaction_no_prepare :
  List.rev (trace (snd (Account.createSweepTransaction 0
                          (Payments.ByAddress Account.elsewhere)
                          Payments.DEFAULT_CREATE_TRANSACTION_OPTIONS
                          (Mock.world (Mock.funded (20000001 # 1000000))))))
  = [EvAttempt 1; EvGetFee (Some (12 # 10)%Q);
     EvAttempt 1; EvGetBalances "rHb9CJAWyB4rj91VRWn96DkukG4bwdtyTh"].
Proof. reflexivity. Qed.

(** A sweep of a funded sub-account payport: the amount is the payport
    balance minus the fee. *)
Example createSweepTransaction_subaccount :
  match Account.createSweepTransaction 7 (Payments.ByAddress Account.elsewhere)
          (Account.with_payportBalance 5) (Mock.world (Mock.funded 100)) with
  | (Ok tx, w') =>
      Payments.utx_amount tx = BigNumber.Fin (5 + - (12 # 1000000))
      /\ Payments.utx_fromExtraId tx = Some "7"
      /\ count_events is_preparePayment w' = 1
  | (Err _, _) => False
  end.
Proof. vm_compute. repeat split. Qed.

(** An address that holds 5 XRP: sweepable, with a confirmed balance of
    -15; and a sub-account payport, whose balance cannot be read. *)
Example getBalance_runs :
  fst (Account.getBalance (Payments.ByIndex 0) (Mock.world (Mock.funded 5)))
  = Ok (Payments.mkBalanceResult (BigNumber.Fin (5 + - inject_Z 20))
          BigNumber.zero true)
  /\ Account.getBalance (Payments.ByIndex 7) (Mock.world (Mock.funded 5))
     = (Err (Local (GetBalanceOfExtraId "7")), Mock.world (Mock.funded 5)).
Proof. split; reflexivity. Qed.

(** ** RippleBalanceMonitor *)

Module MonitorFacts.
Import Utils Helpers Monitor RetrySpec RetryFacts Numerals JsFacts MonitorSpec.

Lemma make_activitySequence_format (version index : N) (type : ActivityType) :
  (version < 10 ^ 12)%N -> (index < 10 ^ 8)%N ->
  make_activitySequence version index type
  = fixed_width 12 version ++ "." ++ fixed_width 8 index ++ "."
    ++ tertiarySequence type.
Proof.
  intros Hv Hi. unfold make_activitySequence, primarySequence, secondarySequence.
  rewrite (@padLeft_String_of_N 12 version) by (try exact Hv; lia).
  rewrite (@padLeft_String_of_N 8 index) by (try exact Hi; lia).
  reflexivity.
Qed.

Lemma compare_tertiarySequence (t1 t2 : ActivityType) :
  String.compare (tertiarySequence t1) (tertiarySequence t2) = type_compare t1 t2.
Proof. destruct t1, t2; reflexivity. Qed.

Lemma compare_dot (s1 s2 : string) :
  String.compare ("." ++ s1) ("." ++ s2) = String.compare s1 s2.
Proof. reflexivity. Qed.

(** The order of the strings is the order of the keys. *)
Lemma compare_make_activitySequence (v1 i1 v2 i2 : N) (t1 t2 : ActivityType) :
  (v1 < 10 ^ 12)%N -> (i1 < 10 ^ 8)%N -> (v2 < 10 ^ 12)%N -> (i2 < 10 ^ 8)%N ->
  String.compare (make_activitySequence v1 i1 t1) (make_activitySequence v2 i2 t2)
  = key_compare (v1, i1, t1) (v2, i2, t2).
Proof.
  intros Hv1 Hi1 Hv2 Hi2.
  rewrite !make_activitySequence_format by assumption.
  rewrite compare_app by (now rewrite !length_fixed_width).
  rewrite compare_fixed_width by assumption.
  cbn [key_compare]. destruct (N.compare v1 v2); try reflexivity.
  rewrite compare_dot.
  rewrite compare_app by (now rewrite !length_fixed_width).
  rewrite compare_fixed_width by assumption.
  destruct (N.compare i1 i2); try reflexivity.
  rewrite compare_dot. apply compare_tertiarySequence.
Qed.

Lemma fixed_width_value (w : nat) (n : N) :
  (n < pow10 (S w))%N -> Js.parse_digits (fixed_width (S w) n) None = Some n.
Proof. intros H. rewrite parse_fixed_width. f_equal. now apply N.mod_small. Qed.

Section Facts.
Context {St : Type} (api : RippleAPI St).

(** What [txToBalanceActivity] has seen when it returns an activity. *)
Lemma txToBalanceActivity_Some (address : string) (tx : Tx) (w w' : World St)
  (a : BalanceActivity) :
  txToBalanceActivity api address tx w = (Ok (Some a), w') ->
  exists outcome txResult,
    tx_outcome tx = Some outcome
    /\ result outcome = Some txResult
    /\ Js.startsWith "tes" txResult || Js.startsWith "tec" txResult = true
    /\ ba_type a = (if Js.startsWith "-" (ba_amount a) then Out else In_)
    /\ ba_externalId a = tx_id tx
    /\ ba_confirmationNumber a = ledgerVersion outcome
    /\ activitySequence a
       = make_activitySequence (ledgerVersion outcome) (indexInLedger outcome)
           (ba_type a).
Proof.
  unfold txToBalanceActivity. destruct (tx_outcome tx) as [outcome|] eqn:Eo.
  2:{ unfold bind, emit, ret. discriminate. }
  destruct (result outcome) as [txResult|] eqn:Er; [|discriminate].
  destruct (Js.startsWith "tes" txResult || Js.startsWith "tec" txResult) eqn:Hres;
    [|discriminate].
  cbn [negb]. unfold bind.
  destruct (retryDced api _ w) as [[ledger | e] w1]; [|discriminate].
  destruct (List.find _ _) as [change|]; [|discriminate].
  unfold ret. intros [= <- <-]. exists outcome, txResult.
  cbn [ba_type ba_amount ba_externalId ba_confirmationNumber activitySequence].
  repeat split; try reflexivity; assumption.
Qed.

(** C3 (amended).  For transactions with a ledger version below 10^12 and
    an index in the ledger below 10^8, the activity sequence of a converted
    transaction is the ledger version on 12 digits, a dot, the index on 8
    digits, a dot, and "00" for an outgoing leg (the balance change starts
    with a minus sign) or "01" for an incoming one: 24 characters; and the
    order of two such strings is the order of (ledger version, index,
    direction), outgoing first. *)
Theorem activitySequence_sorts (address1 address2 : string) (tx1 tx2 : Tx)
  (w1 w1' w2 w2' : World St) (a1 a2 : BalanceActivity) (o1 o2 : Outcome) :
  txToBalanceActivity api address1 tx1 w1 = (Ok (Some a1), w1') ->
  txToBalanceActivity api address2 tx2 w2 = (Ok (Some a2), w2') ->
  tx_outcome tx1 = Some o1 -> tx_outcome tx2 = Some o2 ->
  (ledgerVersion o1 < 10 ^ 12)%N -> (indexInLedger o1 < 10 ^ 8)%N ->
  (ledgerVersion o2 < 10 ^ 12)%N -> (indexInLedger o2 < 10 ^ 8)%N ->
  activitySequence a1
  = fixed_width 12 (ledgerVersion o1) ++ "." ++ fixed_width 8 (indexInLedger o1)
    ++ "." ++ (if Js.startsWith "-" (ba_amount a1) then "00" else "01")
  /\ Js.parse_digits (fixed_width 12 (ledgerVersion o1)) None = Some (ledgerVersion o1)
  /\ Js.parse_digits (fixed_width 8 (indexInLedger o1)) None = Some (indexInLedger o1)
  /\ String.length (activitySequence a1) = 24
  /\ String.compare (activitySequence a1) (activitySequence a2)
     = key_compare (ledgerVersion o1, indexInLedger o1, ba_type a1)
         (ledgerVersion o2, indexInLedger o2, ba_type a2).
Proof.
  intros H1 H2 E1 E2 Hv1 Hi1 Hv2 Hi2.
  apply txToBalanceActivity_Some in H1 as (o1' & r1 & E1' & _ & _ & T1 & _ & _ & S1).
  apply txToBalanceActivity_Some in H2 as (o2' & r2 & E2' & _ & _ & T2 & _ & _ & S2).
  rewrite E1 in E1'. rewrite E2 in E2'. injection E1' as <-. injection E2' as <-.
  rewrite S1, S2. repeat split.
  - rewrite make_activitySequence_format by assumption. rewrite T1.
    destruct (Js.startsWith "-" (ba_amount a1)); reflexivity.
  - now apply fixed_width_value.
  - now apply fixed_width_value.
  - rewrite make_activitySequence_format by assumption.
    rewrite !length_app, !length_fixed_width. destruct (ba_type a1); reflexivity.
  - now apply compare_make_activitySequence.
Qed.

(** *** The pagination loop *)

Section Paging.
Variable address : string.
Variable callbackFn : BalanceActivity -> M St unit.
Variable rank : string -> nat.
Variable bound : nat.

Lemma last_of_full (txs : list Tx) :
  List.length txs = limit_ -> exists l, last_of txs = Some l.
Proof.
  intros H. unfold last_of.
  destruct (nth_error txs (List.length txs - 1)) as [l|] eqn:E; [eauto|].
  apply nth_error_None in E. unfold limit_ in H. lia.
Qed.

Lemma continue_paging_true (to : N) (lastTx : option Tx) (page : list Tx)
  (w w' : World St) :
  continue_paging to lastTx (Some page) w = (Ok true, w') ->
  w' = w /\ List.length page = limit_
  /\ exists l o, lastTx = Some l /\ tx_outcome l = Some o /\ (ledgerVersion o <= to)%N.
Proof.
  unfold continue_paging.
  destruct (Nat.eqb_spec (List.length page) limit_) as [Hl | Hl]; [|discriminate].
  destruct lastTx as [l|]; [|discriminate].
  unfold outcome_ledgerVersion, bind, ret, throw.
  destruct (tx_outcome l) as [o|] eqn:Ho; [|discriminate].
  intros [= Hle <-]. apply N.leb_le in Hle.
  split; [reflexivity | split; [assumption|]].
  exists l, o. repeat split; assumption.
Qed.

(** One turn of the loop that goes on: a page of [limit_ = 10] transactions
    is requested, from the id of the last transaction seen when there is
    one, its transactions are visited, and the loop goes on from its last
    transaction. *)
Lemma paging_loop_next_page (from to : N) (fuel : nat) (lastTx : option Tx)
  (transactions : option (list Tx)) (w : World St) :
  continue_paging to lastTx transactions w = (Ok true, w) ->
  paging_loop api address callbackFn from to (S fuel) lastTx transactions w
  = (txs <- retryDced api
              (remote (EvGetTransactions address (request_after from to lastTx))
                 (getTransactions api address (request_after from to lastTx))) ;;
     for_each (visit api address callbackFn from to lastTx) txs ;;;
     paging_loop api address callbackFn from to fuel (last_of txs) (Some txs)) w.
Proof.
  intros H. cbn [paging_loop]. unfold bind at 1. rewrite H.
  destruct lastTx; reflexivity.
Qed.

Lemma paging_loop_stops_within (from to : N) (n : nat) :
  pages_advance api address rank bound ->
  forall fuel lastTx page w,
    (List.length page = limit_ ->
     exists l, lastTx = Some l /\ rank (tx_id l) <= bound) ->
    distance rank bound lastTx page < n -> n <= fuel ->
    stopped (fst (paging_loop api address callbackFn from to fuel lastTx (Some page) w)).
Proof.
  intros Hadv. induction n as [|n IH]; intros fuel lastTx page w Hinv Hd Hf; [lia|].
  destruct fuel as [|fuel]; [lia|].
  cbn [paging_loop]. unfold bind at 1.
  destruct (continue_paging to lastTx (Some page) w) as [[[|] | e] w0] eqn:Ec;
    [| exact I | exact I].
  apply continue_paging_true in Ec as (-> & Hlen & l & o & -> & Ho & Hle).
  unfold bind at 1.
  destruct (retryDced api _ w) as [[page' | e] w1] eqn:Ef; [|exact I].
  unfold bind at 1.
  destruct (for_each _ page' w1) as [[u | e] w2]; [|exact I].
  apply retryIfDisconnected_Ok_inv in Ef as (w0 & Hcall).
  apply PaymentsFacts.remote_Ok_inv in Hcall.
  assert (List.length page' = limit_ ->
          exists l', last_of page' = Some l'
                     /\ rank (tx_id l') <= bound
                     /\ rank (tx_id l) < rank (tx_id l')) as Hnext.
  { intros Hlen'. destruct (last_of_full _ Hlen') as (l' & Hl').
    destruct (Hadv _ _ _ _ _ Hcall eq_refl Hlen' Hl') as [Hb Hr].
    exists l'. repeat split; try assumption. apply Hr. reflexivity. }
  apply IH.
  - intros Hlen'. destruct (Hnext Hlen') as (l' & -> & Hb & _). eauto.
  - unfold distance in *. rewrite Hlen, Nat.eqb_refl in Hd.
    destruct (Nat.eqb_spec (List.length page') limit_) as [Hlen' | _]; [|lia].
    destruct (Hnext Hlen') as (l' & -> & Hb & Hr). lia.
  - lia.
Qed.

Lemma paging_loop_stops (from to : N) (fuel : nat) (w : World St) :
  pages_advance api address rank bound -> bound + 3 <= fuel ->
  stopped (fst (paging_loop api address callbackFn from to fuel None None w)).
Proof.
  intros Hadv Hf. destruct fuel as [|fuel]; [lia|].
  rewrite paging_loop_next_page by reflexivity.
  unfold bind at 1.
  destruct (retryDced api _ w) as [[page | e] w1] eqn:Ef; [|exact I].
  unfold bind at 1.
  destruct (for_each _ page w1) as [[u | e] w2]; [|exact I].
  apply retryIfDisconnected_Ok_inv in Ef as (w0 & Hcall).
  apply PaymentsFacts.remote_Ok_inv in Hcall.
  apply (@paging_loop_stops_within from to (bound + 2) Hadv).
  - intros Hlen. destruct (last_of_full _ Hlen) as (l & Hl).
    destruct (Hadv _ _ _ _ _ Hcall eq_refl Hlen Hl) as [Hb _]. eauto.
  - unfold distance. destruct (Nat.eqb (List.length page) limit_); [|lia].
    destruct (last_of page); lia.
  - lia.
Qed.

(** C9.  [retrieveBalanceActivities] comes to an end, with its result or
    with an error thrown on the way, within [bound + 3] turns of its loop,
    whatever the ledger client answers, as long as full pages advance past
    the cursor within a finite ledger.  Every turn that goes on asks for a
    page of 10 transactions, from the id of the last transaction seen when
    there is one; a page of fewer than 10 transactions ends the loop at
    once, and so does a page whose last transaction lies beyond [to]. *)
Theorem retrieveBalanceActivities_terminates :
  pages_advance api address rank bound ->
  (forall fuel options w,
     bound + 3 <= fuel ->
     stopped (fst (retrieveBalanceActivities api fuel address callbackFn options w)))
  /\ (forall from to fuel lastTx transactions w,
        continue_paging to lastTx transactions w = (Ok true, w) ->
        paging_loop api address callbackFn from to (S fuel) lastTx transactions w
        = (txs <- retryDced api
                    (remote (EvGetTransactions address (request_after from to lastTx))
                       (getTransactions api address (request_after from to lastTx))) ;;
           for_each (visit api address callbackFn from to lastTx) txs ;;;
           paging_loop api address callbackFn from to fuel (last_of txs) (Some txs)) w)
  /\ (forall from to lastTx,
        limit (request_after from to lastTx) = 10
        /\ start (request_after from to lastTx) = option_map tx_id lastTx)
  /\ (forall from to fuel lastTx txs w,
        List.length txs <> 10 ->
        paging_loop api address callbackFn from to (S fuel) lastTx (Some txs) w
        = (Ok (Some tt), w))
  /\ (forall from to fuel l o txs w,
        tx_outcome l = Some o -> (to < ledgerVersion o)%N ->
        paging_loop api address callbackFn from to (S fuel) (Some l) (Some txs) w
        = (Ok (Some tt), w)).
Proof.
  intros Hadv. split; [|split; [|split; [|split]]].
  - intros fuel options w Hf. unfold retrieveBalanceActivities.
    unfold bind at 1.
    destruct (assertValidAddress address w) as [[u | e] w1]; [|exact I].
    unfold bind at 1.
    destruct (resolveFromToLedgers api options w1) as [[range | e] w2]; [|exact I].
    pose proof (@paging_loop_stops (fst range) (snd range) fuel w2 Hadv Hf) as Hs.
    unfold bind.
    destruct (paging_loop api address callbackFn (fst range) (snd range) fuel None None w2)
      as [[[u'|] | e] w3]; cbn [fst] in *; [exact I | contradiction | exact I].
  - intros from to fuel lastTx transactions w H. now apply paging_loop_next_page.
  - intros from to [l|]; split; reflexivity.
  - intros from to fuel lastTx txs w Hlen. cbn [paging_loop]. unfold bind, continue_paging.
    destruct (Nat.eqb_spec (List.length txs) limit_) as [E | _]; [|reflexivity].
    unfold limit_ in E. lia.
  - intros from to fuel l o txs w Ho Hgt. cbn [paging_loop].
    unfold continue_paging, outcome_ledgerVersion. rewrite Ho.
    destruct (Nat.eqb (List.length txs) limit_); [|reflexivity].
    cbv beta iota delta [bind ret].
    rewrite (proj2 (N.leb_gt _ _) Hgt). reflexivity.
Qed.

End Paging.

End Facts.

End MonitorFacts.

(** *** Runs against the scripted client *)


(** The example of the spec: ledger version 1000000, index 3. *)
Example activitySequence_example :
  History.sequence_of History.monitored (History.payment "tx" 1000000 3 "-1.000012")
  = "000001000000.00000003.00"
  /\ History.sequence_of Account.elsewhere (History.payment "tx" 1000000 3 "-1.000012")
     = "000001000000.00000003.01".
Proof. split; reflexivity. Qed.

(** C3, as stated, fails: an index in the ledger of 10^8 takes nine digits,
    and the string then sorts before the one of a smaller index. *)
Lemma activitySequence_wide_index :
  let s1 := History.sequence_of History.monitored
              (History.payment "a" 1000000 100000000 "-1") in
  let s2 := History.sequence_of History.monitored
              (History.payment "b" 1000000 99999999 "-1") in
  s1 = "000001000000.100000000.00"
  /\ String.length s1 = 25
  /\ s2 = "000001000000.99999999.00"
  /\ String.compare s1 s2 = Lt
  /\ N.compare 100000000 99999999 = Gt.
Proof. cbv zeta. repeat split; vm_compute; reflexivity. Qed.

(** The two legs of one payment, in order. *)
Lemma activitySequence_sorts_witness :
  String.compare
    (History.sequence_of History.monitored (History.payment "tx" 1000000 3 "-1.000012"))
    (History.sequence_of Account.elsewhere (History.payment "tx" 1000000 3 "-1.000012"))
  = Lt.
Proof.
  refine (proj2 (proj2 (proj2 (proj2
            (@MonitorFacts.activitySequence_sorts _ Mock.api
               History.monitored Account.elsewhere
               (History.payment "tx" 1000000 3 "-1.000012")
               (History.payment "tx" 1000000 3 "-1.000012")
               (Mock.world (Mock.funded 100)) _ (Mock.world (Mock.funded 100)) _
               _ _ _ _ eq_refl eq_refl eq_refl eq_refl
               eq_refl eq_refl eq_refl eq_refl))))).
Defined.

Lemma In_firstn {A} (n : nat) (l : list A) (x : A) : In x (firstn n l) -> In x l.
Proof.
  revert l. induction n as [|n IH]; intros [|y l]; cbn; try tauto.
  intros [-> | H]; [now left | right; now apply IH].
Qed.

Lemma mock_pages_advance :
  MonitorSpec.pages_advance (Mock.api_with History.twelve) History.monitored
    History.rank 12.
Proof.
  intros options s txs s' l Hcall Hlim Hlen Hlast.
  cbn [getTransactions Mock.api_with] in Hcall. unfold Mock.answer in Hcall.
  destruct (Mock.faults s); [|discriminate].
  assert (txs = Mock.page History.twelve options) as -> by congruence. clear Hcall.
  unfold Mock.page in *. rewrite Hlim in *.
  destruct (start options) as [cursor|].
  - assert (forall c, Some cursor = Some c -> c = cursor) as Hc by (now intros ? [= <-]).
    cbn [History.twelve Mock.drop_until History.payment tx_id] in *.
    repeat match type of Hlen with
           | context [String.eqb ?a cursor] =>
               destruct (String.eqb_spec a cursor) as [? | ?]; [subst cursor|]
           end.
    all: try (vm_compute in Hlen; discriminate).
    all: vm_compute in Hlast; injection Hlast as <-.
    all: split; [vm_compute; lia | intros c E; rewrite (Hc c E); vm_compute; lia].
  - split; [|discriminate].
    unfold Monitor.last_of in Hlast. apply nth_error_In in Hlast.
    apply In_firstn in Hlast. apply filter_In in Hlast as [Hin _].
    cbn [History.twelve In] in Hin.
    repeat (destruct Hin as [<- | Hin]; [vm_compute; lia|]). contradiction.
Qed.

(** The loop over a ledger of twelve transactions. *)
Lemma retrieveBalanceActivities_terminates_witness :
  MonitorSpec.stopped
    (fst (Monitor.retrieveBalanceActivities (Mock.api_with History.twelve) 15
            History.monitored History.report (Monitor.mkRange None None)
            (Mock.world (Mock.funded 100)))).
Proof.
  refine (proj1 (@MonitorFacts.retrieveBalanceActivities_terminates _
                   (Mock.api_with History.twelve) History.monitored History.report
                   History.rank 12 mock_pages_advance)
            15 (Monitor.mkRange None None) (Mock.world (Mock.funded 100)) _).
  vm_compute. lia.
Defined.

(** That run: two pages are asked for, the second one from the last
    transaction of the first, and every transaction is reported once. *)
Example retrieveBalanceActivities_run :
  let run :=
    Monitor.retrieveBalanceActivities (Mock.api_with History.twelve) 15
      History.monitored History.report (Monitor.mkRange None None)
      (Mock.world (Mock.funded 100)) in
  fst run = Ok (Some (1%N, 1000000%N))
  /\ requests (List.rev (trace (snd run)))
     = [mkGetTransactionsOptions true false 10 None (Some 1%N) (Some 1000000%N);
        mkGetTransactionsOptions true false 10 (Some "t10") None None]
  /\ reported (List.rev (trace (snd run)))
     = ["t01"; "t02"; "t03"; "t04"; "t05"; "t06"; "t07"; "t08"; "t09"; "t10";
        "t11"; "t12"].
Proof. cbv zeta. repeat split; vm_compute; reflexivity. Qed.

(** ** Key derivation *)

Module KeyFacts.
Import KeyDerivation.


Section Facts.
Variable fromBase58 : string -> Result BIP32Node.
Variable childPrivateKey : BIP32Node -> N -> list Byte.byte.
Variable childPublicKey : BIP32Node -> N -> list Byte.byte.
Variable childChainCode : BIP32Node -> N -> list Byte.byte.
Variable fingerprint : BIP32Node -> N.
Variables sha256 ripemd160 : list Byte.byte -> list Byte.byte.
Variable Buffer_from_hex : string -> list Byte.byte.
Variable base58_encode : list Byte.byte -> string.

Abbreviation derive := (derive childPrivateKey childPublicKey childChainCode fingerprint).
Abbreviation deriveBasePath :=
  (deriveBasePath childPrivateKey childPublicKey childChainCode fingerprint).
Abbreviation deriveSignatory :=
  (deriveSignatory fromBase58 childPrivateKey childPublicKey childChainCode fingerprint
     sha256 ripemd160 Buffer_from_hex base58_encode).
Abbreviation publicKeyToAddress :=
  (publicKeyToAddress sha256 ripemd160 Buffer_from_hex base58_encode).



(** The fixed path is hardened throughout: none of it can be derived from
    a neutered node. *)
Lemma deriveBasePath_neutered (key : BIP32Node) :
  isNeutered key = true ->
  deriveBasePath key
  = if depth key <? 3 then Err (Foreign "TypeError") else Ok key.
Proof.
  intros Hn. unfold KeyDerivation.deriveBasePath, derivePath_m, deriveHardened,
    KeyDerivation.derive, derivationPathParts.
  destruct (depth key) as [|[|[|d]]]; cbn [skipn]; rewrite ?skipn_nil;
    cbn [List.length Nat.ltb Nat.leb]; try reflexivity.
  all: destruct (negb (parentFingerprint key =? 0)%N); [reflexivity|].
  all: cbn [fold_left rbind fst snd]; rewrite Hn; reflexivity.
Qed.


End Facts.

End KeyFacts.

(** *** Runs with stand-ins for the cryptography *)




Example deriveSignatory_runs :
  match ToyKeys.deriveSignatory "xprv-root" 0, ToyKeys.deriveSignatory "xpub-account" 0 with
  | Ok full, Ok watch =>
      String.length (KeyDerivation.kp_privateKey (KeyDerivation.hd_secret full)) = 64
      /\ String.length (KeyDerivation.kp_publicKey (KeyDerivation.hd_secret full)) = 66
      /\ KeyDerivation.kp_privateKey (KeyDerivation.hd_secret watch) = ""
  | _, _ => False
  end.
Proof. vm_compute. repeat split. Qed.

(** ** padLeft *)

Module PadFacts.
Import Utils UtilsSpec JsFacts.

Lemma copies_comm (k : nat) (v : string) : copies k v ++ v = v ++ copies k v.
Proof.
  induction k as [|k IH]; cbn [copies].
  - cbn. clear. induction v as [|c v IH]; cbn; congruence.
  - rewrite app_assoc, IH. reflexivity.
Qed.

Lemma padLeft_loop_copies (v : string) (n : nat) :
  1 <= String.length v ->
  forall turns x,
    n - String.length x <= turns ->
    exists k,
      padLeft_loop turns x n v = copies k v ++ x
      /\ (k = 0 \/ String.length x + (k - 1) * String.length v < n)
      /\ n <= String.length (copies k v ++ x).
Proof.
  intros Hv turns. induction turns as [|turns IH]; intros x Hx; cbn [padLeft_loop].
  - exists 0. cbn [copies append]. repeat split; [now left | lia].
  - destruct (Nat.ltb_spec (String.length x) n) as [Hlt | Hge].
    + destruct (IH (v ++ x)) as (k & E & Hmin & Hlen).
      { rewrite length_app. lia. }
      exists (S k). cbn [copies]. rewrite E.
      rewrite <- app_assoc, copies_comm, app_assoc. split; [reflexivity|]. split.
      * right. rewrite length_app in Hmin. cbn [Nat.sub]. rewrite Nat.sub_0_r.
        destruct Hmin as [-> | Hmin]; [lia|].
        destruct k as [|k]; [lia|]. cbn [Nat.sub] in Hmin. rewrite Nat.sub_0_r in Hmin.
        cbn [Nat.mul]. lia.
      * rewrite <- app_assoc, copies_comm, app_assoc in Hlen. exact Hlen.
    + exists 0. cbn [copies append]. repeat split; [now left | lia].
Qed.

(** X1.  With a pad [v] that is not empty, [padLeft x n v] is [x] with
    copies of [v] in front: none when [x] already has [n] characters or
    more, and otherwise the least number of copies that brings the length
    to [n] or beyond.  Nothing of [x] is ever cut off, the result has at
    least [n] characters, and with a pad of one character its length is the
    larger of [n] and the length of [x]. *)
Theorem padLeft_prepends (x v : string) (n : nat) :
  v <> "" ->
  exists k,
    padLeft x n v = copies k v ++ x
    /\ (k = 0 <-> n <= String.length x)
    /\ (k = 0 \/ String.length x + (k - 1) * String.length v < n)
    /\ n <= String.length (padLeft x n v)
    /\ (String.length v = 1 ->
        String.length (padLeft x n v) = Nat.max (String.length x) n).
Proof.
  intros Hv.
  assert (1 <= String.length v) as Hlen by (destruct v; [congruence | cbn; lia]).
  destruct (@padLeft_loop_copies v n Hlen (n - String.length x) x (le_n _))
    as (k & E & Hmin & Hn).
  exists k. unfold padLeft. rewrite E.
  assert (forall j, String.length (copies j v) = j * String.length v) as Hc.
  { induction j as [|j IH]; cbn [copies]; [reflexivity|]. rewrite length_app, IH. cbn. lia. }
  rewrite length_app, Hc in *.
  repeat split; try assumption.
  - intros ->. cbn in Hn. exact Hn.
  - intros Hx. destruct Hmin as [-> | Hmin]; [reflexivity | lia].
  - intros H1. rewrite H1 in *. destruct Hmin as [-> | Hmin]; lia.
Qed.

End PadFacts.

Lemma padLeft_prepends_witness :
  exists k,
    Utils.padLeft "7" 4 "ab" = UtilsSpec.copies k "ab" ++ "7"
    /\ (k = 0 <-> 4 <= String.length "7")
    /\ (k = 0 \/ String.length "7" + (k - 1) * String.length "ab" < 4)
    /\ 4 <= String.length (Utils.padLeft "7" 4 "ab")
    /\ (String.length "ab" = 1 ->
        String.length (Utils.padLeft "7" 4 "ab") = Nat.max (String.length "7") 4).
Proof.
  apply (@PadFacts.padLeft_prepends "7" "ab" 4). discriminate.
Defined.

(** ** retryIfDisconnected: a reconnect that fails *)

Module ReconnectFacts.
Import Utils RetrySpec RetryFacts.

Section Facts.
Context {St : Type} (api : RippleAPI St).

Abbreviation attempts := (count_events is_attempt).
Abbreviation connects := (count_events is_connect).

(** X2.  When the first run of the operation throws a connection error and
    the reconnect that follows fails because [connect] throws, the wrapper
    rejects with the error of [connect], not with the one of the operation,
    and asks for no retry, whatever the class of that error: the operation
    has run once and [connect] has been called once. *)
Theorem retryIfDisconnected_failed_reconnect {A} (fn : M St A) (w : World St)
  (e e' : Thrown) :
  quiet fn ->
  fst (fn (snd (emit (EvAttempt 1) w))) = Err e ->
  classify e = ConnectionClass ->
  disconnect_succeeds api ->
  (forall s, fst (connect api s) = Err e') ->
  exists w',
    retryIfDisconnected api fn w = (Err e', w')
    /\ attempts w' = attempts w + 1
    /\ connects w' = connects w + 1.
Proof.
  intros (Qa & Qc & _) He Hk Hd Hc.
  unfold retryIfDisconnected, promiseRetry, MAX_RETRIES. cbn [promiseRetry_from].
  destruct (attempts_emit 1 w) as (Ea & Ec & _).
  pose proof (Qa (snd (emit (EvAttempt 1) w))) as Qa1.
  pose proof (Qc (snd (emit (EvAttempt 1) w))) as Qc1.
  destruct (fn (snd (emit (EvAttempt 1) w))) as [rr [s t]]; cbn [fst snd] in *; subst rr.
  unfold classify in Hk.
  destruct (includes CONNECTION_ERRORS (constructor_name e)) eqn:Hconn.
  2:{ destruct (includes RETRYABLE_ERRORS (constructor_name e)); discriminate. }
  unfold on_rejected.
  rewrite (includes_connection_retryable _ Hconn), Hconn.
  cbv beta iota delta [bind emit reconnect remote ret api_state trace].
  destruct (isConnected api s).
  - pose proof (Hd s) as Hd'. destruct (disconnect api s) as [rd s1].
    cbn [fst] in Hd'. subst rd. cbv beta iota delta [api_state trace].
    pose proof (Hc s1) as Hc'. destruct (connect api s1) as [rc s2].
    cbn [fst] in Hc'. subst rc.
    eexists; split; [reflexivity|].
    unfold count_events in *; cbn [trace filter is_attempt is_connect List.length] in *. lia.
  - pose proof (Hc s) as Hc'. destruct (connect api s) as [rc s2].
    cbn [fst] in Hc'. subst rc.
    eexists; split; [reflexivity|].
    unfold count_events in *; cbn [trace filter is_attempt is_connect List.length] in *. lia.
Qed.

End Facts.

End ReconnectFacts.

Lemma retryIfDisconnected_failed_reconnect_witness :
  exists w',
    Utils.retryIfDisconnected Outage.api
      (Mock.always_throws (A:=unit) "DisconnectedError")
      (Mock.world (Mock.funded 100))
    = (Err (Foreign "NotConnectedError"), w')
    /\ count_events is_attempt w' = count_events is_attempt (Mock.world (Mock.funded 100)) + 1
    /\ count_events is_connect w' = count_events is_connect (Mock.world (Mock.funded 100)) + 1.
Proof.
  refine (@ReconnectFacts.retryIfDisconnected_failed_reconnect _ Outage.api unit
            (Mock.always_throws "DisconnectedError") (Mock.world (Mock.funded 100))
            (Foreign "DisconnectedError") (Foreign "NotConnectedError")
            (quiet_always_throws _) eq_refl eq_refl _ _).
  - intros s. reflexivity.
  - intros s. reflexivity.
Defined.

(** ** Payports, indices and tags *)

Module PayportFacts.
Import Constants Helpers Utils Payments RetrySpec RetryFacts PaymentsSpec JsFacts.
Import RipplePaymentsUtils BaseRipplePayments PayportSpec.


Section Facts.
Context {St : Type} (api : RippleAPI St).
Variables hot deposit : Signatory.





(** X5.  [resolvePayport] accepts a payport object exactly when
    [isValidPayport] holds of it, and returns it unchanged; otherwise it
    throws, without a remote call, the error of the first field at fault:
    the address, or else the extraId. *)
Theorem resolvePayport_accepts_valid (payport : Payport) (w : World St) :
  exists valid,
    isValidPayport payport w = (Ok valid, w)
    /\ if valid
       then resolvePayport hot deposit (ByPayport payport) w = (Ok payport, w)
       else exists f,
              resolvePayport hot deposit (ByPayport payport) w = (Err (Local f), w)
              /\ (isValidAddress (pp_address payport) = false
                  /\ f = InvalidAddress (pp_address payport)
                  \/ isValidAddress (pp_address payport) = true
                     /\ exists extraId,
                          pp_extraId payport = Some extraId
                          /\ isValidExtraId extraId = false
                          /\ f = InvalidExtraId extraId).
Proof.
  eexists. split; [reflexivity|].
  unfold resolvePayport, doResolvePayport, assertValidAddress, assertValidExtraIdOrNil,
    bind, throw, ret.
  destruct (isValidAddress (pp_address payport)); cbn [negb andb].
  - destruct (pp_extraId payport) as [extraId|]; [|reflexivity].
    destruct (isValidExtraId extraId) eqn:E; cbn [negb]; [reflexivity|].
    eexists. split; [reflexivity|]. right. split; [reflexivity|]. eauto.
  - eexists. split; [reflexivity|]. left. split; reflexivity.
Qed.

End Facts.


(** *** serializePayport *)

Lemma base58_no_colon (s : string) :
  string_forall is_base58_char s = true -> has_colon s = false.
Proof.
  induction s as [|c s IH]; [reflexivity|]. cbn [string_forall has_colon].
  intros H. apply andb_prop in H as [Hc Hs]. rewrite (IH Hs), orb_false_r.
  destruct (Ascii.eqb_spec c ":") as [-> | _]; [discriminate | reflexivity].
Qed.

Lemma isValidAddress_no_colon (a : string) :
  isValidAddress a = true -> has_colon a = false.
Proof.
  unfold isValidAddress, ADDRESS_REGEX_test.
  destruct a as [|c rest]; [discriminate|].
  destruct (Ascii.eqb_spec c "r") as [-> | Hc].
  - intros H. apply andb_prop in H as [H _]. apply andb_prop in H as [H _].
    cbn [has_colon]. now rewrite (base58_no_colon _ H).
  - intros H. exfalso. destruct c as [[] [] [] [] [] [] [] []]; try discriminate.
    now apply Hc.
Qed.

Lemma split_at_colon (a b e1 e2 : string) :
  has_colon a = false -> has_colon b = false ->
  a ++ ":" ++ e1 = b ++ ":" ++ e2 -> a = b /\ e1 = e2.
Proof.
  revert b. induction a as [|c a IH]; intros [|d b] Ha Hb H; cbn in *.
  - injection H as <-. now split.
  - injection H as <- _. cbn in Hb. discriminate.
  - injection H as -> _. cbn in Ha. discriminate.
  - injection H as <- H. apply orb_false_elim in Ha as [_ Ha].
    apply orb_false_elim in Hb as [_ Hb].
    destruct (IH b Ha Hb H) as [-> ->]. now split.
Qed.

Lemma no_colon_app (a b e : string) : has_colon a = false -> a <> b ++ ":" ++ e.
Proof.
  revert a. induction b as [|d b IH]; intros [|c a] Ha H; cbn in *; try discriminate.
  - injection H as -> _. discriminate.
  - injection H as <- H. apply orb_false_elim in Ha as [_ Ha]. exact (IH a Ha H).
Qed.

(** X7.  [serializePayport] tells payports with valid addresses apart:
    two of them with the same serialization are the same payport, a valid
    address holding no colon. *)
Theorem serializePayport_injective (p q : Payport) :
  isValidAddress (pp_address p) = true ->
  isValidAddress (pp_address q) = true ->
  serializePayport p = serializePayport q ->
  p = q.
Proof.
  intros Hp Hq. apply isValidAddress_no_colon in Hp, Hq.
  destruct p as [a [e1|]], q as [b [e2|]]; unfold serializePayport; cbn in *; intros H.
  - destruct (split_at_colon _ _ _ _ Hp Hq H) as [-> ->]. reflexivity.
  - exfalso. symmetry in H. exact (no_colon_app _ _ Hq H).
  - exfalso. exact (no_colon_app _ _ Hp H).
  - now subst.
Qed.

End PayportFacts.

(** ** Transfers *)

Module TransferFacts.
Import Constants Helpers Utils Payments RetrySpec RetryFacts PaymentsSpec PaymentsFacts.

Section Facts.
Context {St : Type} (api : RippleAPI St).
Variables hot deposit : Signatory.
Variable config_offset : option N.
Variable converters : nat -> UnitConverters.

Abbreviation prepares := (count_events is_preparePayment).

(** A payment whose two ends are the same address is turned down before the
    ledger is asked anything. *)
Lemma doCreateTransaction_to_self (fromTo : FromTo) (fee : FeeOption)
  (amount balance : BigNumber) (options : CreateTransactionOptions) (w : World St) :
  fromAddress fromTo = toAddress fromTo ->
  doCreateTransaction api hot deposit config_offset fromTo fee amount balance options w
  = (Err (Local (if BigNumber.isNaN amount || BigNumber.lte amount BigNumber.zero
                 then InvalidAmount else SendToSelf)), w).
Proof.
  intros H. unfold doCreateTransaction. rewrite H, String.eqb_refl.
  destruct (BigNumber.isNaN amount || BigNumber.lte amount BigNumber.zero); reflexivity.
Qed.

Lemma resolveFromTo_by_index (from index : Z) (w : World St) :
  resolveFromTo hot deposit from (ByIndex index) w
  = (Ok (mkFromTo (pp_address (doGetPayport hot deposit from)) from
           (pp_extraId (doGetPayport hot deposit from)) (doGetPayport hot deposit from)
           (pp_address (doGetPayport hot deposit index)) (Some index)
           (pp_extraId (doGetPayport hot deposit index))
           (doGetPayport hot deposit index)), w).
Proof. reflexivity. Qed.

Lemma same_side_same_address (from index : Z) :
  (from =? 0)%Z = (index =? 0)%Z ->
  pp_address (doGetPayport hot deposit from) = pp_address (doGetPayport hot deposit index).
Proof.
  unfold doGetPayport. intros H. rewrite H.
  destruct (index =? 0)%Z; [reflexivity|].
  destruct (from =? 1)%Z, (index =? 1)%Z; reflexivity.
Qed.

(** X8.  A transfer between two payports of the same address, from the hot
    address to itself or between two indices of the deposit address, never
    succeeds: [createTransaction] and [createSweepTransaction] end in an
    error and no payment is prepared.  Once the fee and the payport balance
    are resolved and the amount is acceptable, the error of
    [createTransaction] is the one of sending to oneself. *)
Theorem transfer_within_address_refused (from index : Z) (amount : BigNumber)
  (options : CreateTransactionOptions) (w : World St) :
  (from =? 0)%Z = (index =? 0)%Z ->
  (exists e w',
     createTransaction api hot deposit config_offset converters from (ByIndex index)
       amount options w = (Err e, w')
     /\ prepares w' = prepares w)
  /\ (exists e w',
        createSweepTransaction api hot deposit config_offset converters from
          (ByIndex index) options w = (Err e, w')
        /\ prepares w' = prepares w)
  /\ (forall fee w1 balance w2,
        resolveFeeOption api converters options w = (Ok fee, w1) ->
        resolvePayportBalance api hot deposit (doGetPayport hot deposit from) options w1
        = (Ok balance, w2) ->
        BigNumber.isNaN amount || BigNumber.lte amount BigNumber.zero = false ->
        createTransaction api hot deposit config_offset converters from (ByIndex index)
          amount options w = (Err (Local SendToSelf), w2)).
Proof.
  intros Hside. pose proof (same_side_same_address _ _ Hside) as Haddr.
  pose proof (keeps_resolveFeeOption api converters options blind_preparePayment
                (fun _ => eq_refl) w) as K2.
  set (fromTo := mkFromTo (pp_address (doGetPayport hot deposit from)) from
           (pp_extraId (doGetPayport hot deposit from)) (doGetPayport hot deposit from)
           (pp_address (doGetPayport hot deposit index)) (Some index)
           (pp_extraId (doGetPayport hot deposit index))
           (doGetPayport hot deposit index)).
  assert (fromAddress fromTo = toAddress fromTo) as Hself by exact Haddr.
  split; [|split].
  - unfold createTransaction, bind. rewrite resolveFromTo_by_index. fold fromTo.
    destruct (resolveFeeOption api converters options w) as [[fee | e] w1];
      cbn [snd] in K2; [|eauto].
    pose proof (keeps_resolvePayportBalance api hot deposit (fromPayport fromTo) options
                  blind_preparePayment (fun _ => eq_refl) w1) as K3.
    destruct (resolvePayportBalance api hot deposit (fromPayport fromTo) options w1)
      as [[balance | e] w2]; cbn [snd] in K3; [|eexists; eexists; split; [reflexivity | congruence]].
    rewrite doCreateTransaction_to_self by assumption.
    eexists; eexists; split; [reflexivity | congruence].
  - unfold createSweepTransaction, bind. rewrite resolveFromTo_by_index. fold fromTo.
    destruct (resolveFeeOption api converters options w) as [[fee | e] w1];
      cbn [snd] in K2; [|eauto].
    pose proof (keeps_resolvePayportBalance api hot deposit (fromPayport fromTo) options
                  blind_preparePayment (fun _ => eq_refl) w1) as K3.
    destruct (resolvePayportBalance api hot deposit (fromPayport fromTo) options w1)
      as [[balance | e] w2]; cbn [snd] in K3; [|eexists; eexists; split; [reflexivity | congruence]].
    destruct (BigNumber.lt _ BigNumber.zero).
    + eexists; eexists; split; [reflexivity | congruence].
    + rewrite doCreateTransaction_to_self by assumption.
      eexists; eexists; split; [reflexivity | congruence].
  - intros fee w1 balance w2 H2 H3 Hamount.
    unfold createTransaction, bind. rewrite resolveFromTo_by_index. fold fromTo.
    rewrite H2. change (fromPayport fromTo) with (doGetPayport hot deposit from).
    rewrite H3. rewrite doCreateTransaction_to_self by assumption.
    now rewrite Hamount.
Qed.

(** X9.  A sweep of a payport whose balance equals the fee passes the
    test of the sweep, the amount 0 not being negative, and is then turned
    down by the amount rule of [doCreateTransaction]: the error is the
    invalid amount, not the insufficient balance, and nothing is asked of
    the ledger after the payport balance. *)
Theorem createSweepTransaction_balance_equals_fee (from : Z) (to : ResolveablePayport)
  (options : CreateTransactionOptions) (w w1 w2 w3 : World St)
  (fromTo : FromTo) (fee : FeeOption) (balance f : Q) :
  resolveFromTo hot deposit from to w = (Ok fromTo, w1) ->
  resolveFeeOption api converters options w1 = (Ok fee, w2) ->
  resolvePayportBalance api hot deposit (fromPayport fromTo) options w2
  = (Ok (BigNumber.Fin balance), w3) ->
  feeMain fee = BigNumber.Fin f ->
  (balance == f)%Q ->
  createSweepTransaction api hot deposit config_offset converters from to options w
  = (Err (Local InvalidAmount), w3).
Proof.
  intros H1 H2 H3 Hf Heq.
  unfold createSweepTransaction, bind. rewrite H1, H2, H3, Hf.
  rewrite BigNumberFacts.minus_Fin.
  assert (balance + - f == 0)%Q as Hz by lra.
  assert (BigNumber.lt (BigNumber.Fin (balance + - f)) BigNumber.zero = false) as ->.
  { apply not_true_is_false. intros H. apply BigNumberFacts.lt_Fin in H.
    change (inject_Z 0) with 0%Q in H. lra. }
  unfold doCreateTransaction.
  assert (BigNumber.lte (BigNumber.Fin (balance + - f)) BigNumber.zero = true) as ->.
  { unfold BigNumber.lte, BigNumber.zero, BigNumber.of_Z; cbn [BigNumber.comparedTo].
    change (inject_Z 0) with 0%Q. apply Qeq_alt in Hz. now rewrite Hz. }
  reflexivity.
Qed.

Lemma retried_remote_Ok {A} (ev : Event) (call : St -> Result A * St)
  (w w' : World St) (a : A) :
  retryIfDisconnected api (remote ev call) w = (Ok a, w') ->
  hd_error (trace w') = Some ev
  /\ exists s, call s = (Ok a, api_state w').
Proof.
  intros H. apply retryIfDisconnected_Ok_inv in H as (w0 & H).
  unfold remote in H. destruct (call (api_state w0)) as [r s'] eqn:E.
  injection H as -> <-. split; [reflexivity|]. cbn [api_state]. eauto.
Qed.

(** [options.maxLedgerVersionOffset || this.config.maxLedgerVersionOffset ||
    DEFAULT_MAX_LEDGER_VERSION_OFFSET], where 0 counts as absent. *)
Lemma offset_positive (a b : option N) :
  match or_else (or_else a b) (Some DEFAULT_MAX_LEDGER_VERSION_OFFSET) with
  | Some n => n
  | None => DEFAULT_MAX_LEDGER_VERSION_OFFSET
  end <> 0%N.
Proof. destruct a as [[|p]|], b as [[|q]|]; cbn; discriminate. Qed.

(** What a transaction that has been built went through. *)
Lemma doCreateTransaction_Ok_inv (fromTo : FromTo) (fee : FeeOption)
  (amount balance : BigNumber) (options : CreateTransactionOptions) (w w' : World St)
  (tx : UnsignedTransaction) :
  doCreateTransaction api hot deposit config_offset fromTo fee amount balance options w
  = (Ok tx, w') ->
  BigNumber.gt amount BigNumber.zero = true
  /\ String.eqb (fromAddress fromTo) (toAddress fromTo) = false
  /\ exists prepared offset s,
       let spec :=
         mkPaymentSpec
           (mkPaymentEnd (fromAddress fromTo) (extraIdToTag (fromExtraId fromTo))
              "XRP" amount)
           (mkPaymentEnd (toAddress fromTo) (extraIdToTag (toExtraId fromTo))
              "XRP" amount) in
       tx = mkUnsignedTransaction
              (fromIndex fromTo) (fromAddress fromTo) (fromExtraId fromTo)
              (toIndex fromTo) (toAddress fromTo) (toExtraId fromTo)
              amount
              (targetFeeLevel fee) (targetFeeRate fee) (targetFeeRateType fee)
              (feeMain fee) Unsigned prepared
       /\ offset <> 0%N
       /\ preparePayment api (fromAddress fromTo) spec
            (mkInstructions offset (opt_sequence options)) s
          = (Ok prepared, api_state w')
       /\ hd_error (trace w') = Some (EvPreparePayment (fromAddress fromTo) spec).
Proof.
  unfold doCreateTransaction.
  destruct (BigNumber.isNaN amount || BigNumber.lte amount BigNumber.zero) eqn:Hamount;
    [discriminate|].
  destruct (String.eqb _ _) eqn:Hself; [discriminate|].
  unfold bind at 1.
  destruct (getBalance api hot deposit _ w) as [[r | e] w3]; [|discriminate].
  destruct (BigNumber.lt (confirmedBalance r) BigNumber.zero); [discriminate|].
  destruct (BigNumber.lt _ BigNumber.zero); [discriminate|].
  destruct (_ && _); [discriminate|].
  unfold bind at 1.
  destruct (retryDced api _ w3) as [[prepared | e] w4] eqn:Eprep; [|discriminate].
  unfold ret. intros [= <- <-].
  apply retried_remote_Ok in Eprep as (Hhead & s & Hcall).
  split; [|split; [reflexivity|]].
  - apply orb_false_elim in Hamount as [Hnan Hlte].
    unfold BigNumber.gt, BigNumber.lte, BigNumber.isNaN in *.
    destruct amount as [| | |q]; try discriminate; try reflexivity.
    cbn [BigNumber.comparedTo BigNumber.zero BigNumber.of_Z] in *.
    destruct (q ?= inject_Z 0)%Q; try discriminate; reflexivity.
  - eexists prepared, _, s. cbv zeta.
    split; [reflexivity|]. split; [apply offset_positive|]. split; [exact Hcall | exact Hhead].
Qed.

Lemma resolvePayport_pure (to : ResolveablePayport) (w : World St) :
  snd (resolvePayport hot deposit to w) = w.
Proof.
  unfold resolvePayport, doResolvePayport, assertValidAddress,
    assertValidExtraIdOrNil, bind, throw, ret.
  destruct to as [i | a | p]; cbn [snd]; try reflexivity.
  - destruct (negb (isValidAddress a)); reflexivity.
  - destruct (negb (isValidAddress (pp_address p))); [reflexivity|].
    destruct (pp_extraId p) as [x|]; [|reflexivity].
    destruct (negb (isValidExtraId x)); reflexivity.
Qed.

Lemma resolveFromTo_Ok_inv (from : Z) (to : ResolveablePayport) (w w1 : World St)
  (fromTo : FromTo) :
  resolveFromTo hot deposit from to w = (Ok fromTo, w1) ->
  w1 = w
  /\ exists toPayport,
       resolvePayport hot deposit to w = (Ok toPayport, w)
       /\ fromTo = mkFromTo (pp_address (doGetPayport hot deposit from)) from
                     (pp_extraId (doGetPayport hot deposit from))
                     (doGetPayport hot deposit from)
                     (pp_address toPayport)
                     (match to with ByIndex i => Some i | _ => None end)
                     (pp_extraId toPayport) toPayport.
Proof.
  unfold resolveFromTo, getPayport, bind at 1, ret at 1. unfold bind at 1.
  pose proof (resolvePayport_pure to w) as Hw.
  destruct (resolvePayport hot deposit to w) as [[toPayport | e] w0]; [|discriminate].
  cbn [snd] in Hw. subst w0. unfold ret. intros [= <- <-]. eauto.
Qed.

(** A transaction built by [createTransaction] or [createSweepTransaction]
    leaves from the address of the payport of its [from] index. *)
Lemma created_Ok_inv (from : Z) (to : ResolveablePayport) (amount : BigNumber)
  (options : CreateTransactionOptions) (w w' : World St) (tx : UnsignedTransaction) :
  createTransaction api hot deposit config_offset converters from to amount options w
  = (Ok tx, w')
  \/ createSweepTransaction api hot deposit config_offset converters from to options w
     = (Ok tx, w') ->
  exists fromTo fee balance w3,
    resolveFromTo hot deposit from to w = (Ok fromTo, w)
    /\ doCreateTransaction api hot deposit config_offset fromTo fee (utx_amount tx)
         balance options w3 = (Ok tx, w').
Proof.
  intros [H | H]; revert H.
  - unfold createTransaction, bind at 1.
    destruct (resolveFromTo hot deposit from to w) as [[fromTo | e] w1] eqn:E1;
      [|discriminate].
    destruct (resolveFromTo_Ok_inv _ _ _ E1) as [-> _].
    unfold bind at 1.
    destruct (resolveFeeOption api converters options w) as [[fee | e] w2];
      [|discriminate].
    unfold bind at 1.
    destruct (resolvePayportBalance api hot deposit _ options w2) as [[balance | e] w3];
      [|discriminate].
    intros H. exists fromTo, fee, balance, w3. split; [reflexivity|].
    destruct (doCreateTransaction_Ok_inv _ _ _ _ _ _ H)
      as (_ & _ & prepared & offset & s & -> & _).
    exact H.
  - unfold createSweepTransaction, bind at 1.
    destruct (resolveFromTo hot deposit from to w) as [[fromTo | e] w1] eqn:E1;
      [|discriminate].
    destruct (resolveFromTo_Ok_inv _ _ _ E1) as [-> _].
    unfold bind at 1.
    destruct (resolveFeeOption api converters options w) as [[fee | e] w2];
      [|discriminate].
    unfold bind at 1.
    destruct (resolvePayportBalance api hot deposit _ options w2) as [[balance | e] w3];
      [|discriminate].
    destruct (BigNumber.lt _ BigNumber.zero); [discriminate|].
    intros H. exists fromTo, fee, balance, w3. split; [reflexivity|].
    destruct (doCreateTransaction_Ok_inv _ _ _ _ _ _ H)
      as (_ & _ & prepared & offset & s & -> & _).
    exact H.
Qed.

(** X10.  A transaction that [createTransaction] returns carries the index,
    the address and the extraId of the payport of [from], the address and
    the extraId of the resolved destination, the [to] index when [to] is
    one, and the amount, which is greater than 0; its two addresses differ
    and its status is unsigned.  Its data is what [preparePayment] answered,
    as the last remote call, for a payment of that amount in XRP at both
    ends, tagged with [parseInt] of the extraIds, under a ledger version
    offset that is never 0 and the [sequence] of the options. *)
Theorem createTransaction_prepares (from : Z) (to : ResolveablePayport)
  (amount : BigNumber) (options : CreateTransactionOptions) (w w' : World St)
  (tx : UnsignedTransaction) :
  createTransaction api hot deposit config_offset converters from to amount options w
  = (Ok tx, w') ->
  exists toPayport offset s,
    let spec :=
      mkPaymentSpec
        (mkPaymentEnd (utx_fromAddress tx) (extraIdToTag (utx_fromExtraId tx))
           "XRP" amount)
        (mkPaymentEnd (utx_toAddress tx) (extraIdToTag (utx_toExtraId tx))
           "XRP" amount) in
    resolvePayport hot deposit to w = (Ok toPayport, w)
    /\ utx_fromIndex tx = from
    /\ utx_fromAddress tx = pp_address (doGetPayport hot deposit from)
    /\ utx_fromExtraId tx = pp_extraId (doGetPayport hot deposit from)
    /\ utx_toAddress tx = pp_address toPayport
    /\ utx_toExtraId tx = pp_extraId toPayport
    /\ utx_toIndex tx = match to with ByIndex index => Some index | _ => None end
    /\ utx_amount tx = amount
    /\ BigNumber.gt amount BigNumber.zero = true
    /\ String.eqb (utx_fromAddress tx) (utx_toAddress tx) = false
    /\ utx_status tx = Unsigned
    /\ offset <> 0%N
    /\ preparePayment api (utx_fromAddress tx) spec
         (mkInstructions offset (opt_sequence options)) s
       = (Ok (utx_data tx), api_state w')
    /\ hd_error (trace w') = Some (EvPreparePayment (utx_fromAddress tx) spec).
Proof.
  intros H.
  assert (utx_amount tx = amount) as Hamount.
  { revert H. unfold createTransaction, bind.
    destruct (resolveFromTo hot deposit from to w) as [[fromTo | e] w1]; [|discriminate].
    destruct (resolveFeeOption api converters options w1) as [[fee | e] w2];
      [|discriminate].
    destruct (resolvePayportBalance api hot deposit _ options w2) as [[balance | e] w3];
      [|discriminate].
    intros H. destruct (doCreateTransaction_Ok_inv _ _ _ _ _ _ H)
      as (_ & _ & prepared & offset & s & -> & _). reflexivity. }
  destruct (created_Ok_inv _ _ _ _ _ (or_introl H)) as (fromTo & fee & balance & w3 & E1 & E2).
  destruct (resolveFromTo_Ok_inv _ _ _ E1) as (_ & toPayport & Hto & ->).
  rewrite Hamount in E2.
  destruct (doCreateTransaction_Ok_inv _ _ _ _ _ _ E2)
    as (Hpos & Hself & prepared & offset & s & -> & Hoff & Hcall & Hhead).
  exists toPayport, offset, s. cbv zeta.
  cbn [utx_fromIndex utx_fromAddress utx_fromExtraId utx_toAddress utx_toExtraId
       utx_toIndex utx_amount utx_status utx_data
       fromAddress toAddress fromExtraId toExtraId fromIndex toIndex] in *.
  repeat split; assumption.
Qed.

End Facts.

End TransferFacts.

(** ** What a computation adds to the trace *)

Section GrowthFacts.
Context {St : Type}.
Variable Q : Event -> Prop.

Lemma adds_only_ret {A} (a : A) : adds_only Q (ret (St:=St) a).
Proof. intros w. exists []. split; [reflexivity | constructor]. Qed.

Lemma adds_only_throw {A} (e : Thrown) : adds_only Q (throw (St:=St) (A:=A) e).
Proof. intros w. exists []. split; [reflexivity | constructor]. Qed.

Lemma adds_only_bind {A B} (m : M St A) (k : A -> M St B) :
  adds_only Q m -> (forall a, adds_only Q (k a)) -> adds_only Q (bind m k).
Proof.
  intros Hm Hk w. unfold bind. destruct (Hm w) as (t1 & E1 & F1).
  destruct (m w) as [[a | e] w1]; cbn [snd] in *.
  - destruct (Hk a w1) as (t2 & E2 & F2). exists (t2 ++ t1)%list.
    rewrite E2, E1, List.app_assoc. split; [reflexivity | now apply Forall_app].
  - eauto.
Qed.

Lemma adds_only_emit (ev : Event) : Q ev -> adds_only Q (emit (St:=St) ev).
Proof. intros H w. exists [ev]. split; [reflexivity | now repeat constructor]. Qed.

Lemma adds_only_remote {A} (ev : Event) (call : St -> Result A * St) :
  Q ev -> adds_only Q (remote ev call).
Proof.
  intros H w. unfold remote. destruct (call (api_state w)) as [r s'].
  exists [ev]. split; [reflexivity | now repeat constructor].
Qed.

End GrowthFacts.

Module GrowthRetryFacts.
Import Utils RetrySpec RetryFacts.

Section Facts.
Context {St : Type} (api : RippleAPI St).
Variable Q : Event -> Prop.
Hypothesis transport : forall ev, is_transport ev = true -> Q ev.

Lemma adds_only_reconnect : adds_only Q (reconnect api).
Proof.
  intros w. unfold reconnect.
  refine (@adds_only_bind St Q _ _ _ _ _ _ w).
  - destruct (isConnected api (api_state w));
      [apply adds_only_remote; now apply transport | apply adds_only_ret].
  - intros _. apply adds_only_remote. now apply transport.
Qed.

Lemma adds_only_on_rejected {A} (attempt : nat) (e : Thrown) (w : World St) :
  exists t, trace (snd (on_rejected (A:=A) api attempt e w)) = (t ++ trace w)%list
            /\ Forall Q t.
Proof.
  unfold on_rejected.
  destruct (includes RETRYABLE_ERRORS (constructor_name e)).
  2:{ exists []. split; [reflexivity | constructor]. }
  destruct (includes CONNECTION_ERRORS (constructor_name e)).
  - pose proof (@adds_only_bind St Q _ _
                  (emit (EvLogRetry true (Z.of_nat MAX_RETRIES - Z.of_nat attempt)))
                  (fun _ => reconnect api)
                  (@adds_only_emit St Q _ (transport (EvLogRetry _ _) eq_refl))
                  (fun _ => adds_only_reconnect) w) as H.
    destruct (bind _ _ w) as [[u | e'] w']; exact H.
  - cbn [snd]. apply (@adds_only_emit St Q). now apply transport.
Qed.

Lemma adds_only_retryIfDisconnected {A} (fn : M St A) :
  adds_only Q fn -> adds_only Q (retryIfDisconnected api fn).
Proof.
  intros Hfn w. unfold retryIfDisconnected, promiseRetry.
  generalize 1 as n. generalize MAX_RETRIES as r. intros r; revert w.
  induction r as [|r IH]; intros w n; cbn [promiseRetry_from].
  all: destruct (@adds_only_emit St Q _ (transport (EvAttempt n) eq_refl) w)
    as (t0 & E0 & F0).
  all: destruct (Hfn (snd (emit (EvAttempt n) w))) as (t1 & E1 & F1).
  all: destruct (fn (snd (emit (EvAttempt n) w))) as [[a | e] w1]; cbn [snd] in *.
  1, 3: exists (t1 ++ t0)%list; rewrite E1, E0, List.app_assoc;
    split; [reflexivity | apply Forall_app; split; assumption].
  all: destruct (@adds_only_on_rejected A n e w1) as (t2 & E2 & F2).
  all: assert (Forall Q (t2 ++ t1 ++ t0)) as F210
    by (apply Forall_app; split; [assumption|]; apply Forall_app; split; assumption).
  all: assert (trace (snd (on_rejected (A:=A) api n e w1)) = ((t2 ++ t1 ++ t0) ++ trace w)%list)
    as E210 by (rewrite E2, E1, E0, <- !List.app_assoc; reflexivity).
  all: clear E0 E1 E2 F0 F1 F2.
  all: destruct (on_rejected api n e w1) as [[a | e' | e'] w2]; cbn [snd] in *; eauto.
  destruct (IH w2 (S n)) as (t3 & E3 & F3).
  exists (t3 ++ t2 ++ t1 ++ t0)%list. rewrite E3, E210, List.app_assoc.
  split; [reflexivity | apply Forall_app; split; assumption].
Qed.

End Facts.

End GrowthRetryFacts.

Module LedgerRangeFacts.
Import Utils Helpers Monitor RetrySpec RetryFacts MonitorSpec MonitorFacts ActivitySpec
  GrowthRetryFacts.

Section Facts.
Context {St : Type} (api : RippleAPI St).

Abbreviation warnings := (count_events is_warn).

(** X11.  Once the server has reported its complete ledgers [lo] to [hi],
    [resolveFromToLedgers] returns the larger of [lo] and the requested
    start, and the smaller of [hi] and the requested end, each bound of the
    server standing in for a missing request; it warns once for each
    request that lies outside, and asks nothing more of the client.  The
    start is not held below [hi], nor the end above [lo]. *)
Theorem resolveFromToLedgers_clamps (options : GetBalanceActivityOptions)
  (w w1 : World St) (lo hi : N) :
  retryDced api (remote EvGetServerInfo (getServerInfo api)) w = (Ok (lo, hi), w1) ->
  exists w',
    resolveFromToLedgers api options w
    = (Ok (match range_from options with
           | Some requestedFrom => N.max lo requestedFrom
           | None => lo
           end,
           match range_to options with
           | Some requestedTo => N.min hi requestedTo
           | None => hi
           end), w')
    /\ api_state w' = api_state w1
    /\ warnings w'
       = warnings w1
         + match range_from options with
           | Some requestedFrom => if (requestedFrom <? lo)%N then 1 else 0
           | None => 0
           end
         + match range_to options with
           | Some requestedTo => if (hi <? requestedTo)%N then 1 else 0
           | None => 0
           end.
Proof.
  intros H. unfold resolveFromToLedgers. unfold bind at 1. rewrite H. cbn [fst snd].
  destruct w1 as [s t]. unfold count_events. cbn [trace api_state].
  destruct (range_from options) as [f|], (range_to options) as [t'|];
    cbv beta iota delta [bind emit ret api_state trace].
  all: repeat match goal with
              | |- context [(?a <? ?b)%N] => destruct (N.ltb_spec a b)
              end.
  all: eexists; split; [repeat f_equal; lia|].
  all: cbn [api_state trace filter is_warn List.length]; split; [reflexivity | lia].
Qed.

(** X12.  An activity that [txToBalanceActivity] returns is about the
    first XRP balance change of the address in the outcome: its amount is
    the value of that change, it is outgoing exactly when the value starts
    with a minus sign, and for a payment its extraId is the printed tag of
    the source when outgoing and of the destination when incoming, a tag of
    0 included; other transaction types have no extraId.  It carries the id
    and the ledger version of the transaction, and the hash and close time
    that [getLedger] answered for that version. *)
Theorem txToBalanceActivity_legs (address : string) (tx : Tx) (w w' : World St)
  (a : BalanceActivity) :
  txToBalanceActivity api address tx w = (Ok (Some a), w') ->
  exists outcome change,
    tx_outcome tx = Some outcome
    /\ List.find (fun c => String.eqb (bc_currency c) "XRP")
         (match balanceChanges outcome address with Some l => l | None => [] end)
       = Some change
    /\ ba_address a = address
    /\ ba_assetSymbol a = "XRP"
    /\ ba_amount a = bc_value change
    /\ ba_type a = (if Js.startsWith "-" (bc_value change) then Out else In_)
    /\ ba_extraId a
       = (if isPaymentTx tx
          then option_map Js.String_of_Z
                 (adj_tag (match ba_type a with
                           | Out => tx_source tx
                           | In_ => tx_destination tx
                           end))
          else None)
    /\ ba_externalId a = tx_id tx
    /\ ba_confirmationNumber a = ledgerVersion outcome
    /\ exists ledger s s',
         getLedger api (ledgerVersion outcome) s = (Ok ledger, s')
         /\ ba_confirmationId a = ledgerHash ledger
         /\ ba_timestamp a = closeTime ledger.
Proof.
  unfold txToBalanceActivity. destruct (tx_outcome tx) as [outcome|] eqn:Eo.
  2:{ unfold bind, emit, ret. discriminate. }
  destruct (result outcome) as [txResult|] eqn:Er; [|discriminate].
  destruct (Js.startsWith "tes" txResult || Js.startsWith "tec" txResult) eqn:Hres;
    [|discriminate].
  cbn [negb]. unfold bind.
  destruct (retryDced api _ w) as [[ledger | e] w1] eqn:El; [|discriminate].
  destruct (List.find _ _) as [change|] eqn:Ef; [|discriminate].
  unfold ret. intros [= <- <-]. exists outcome, change.
  cbn [ba_type ba_amount ba_externalId ba_confirmationNumber activitySequence
       ba_address ba_assetSymbol ba_extraId ba_confirmationId ba_timestamp].
  apply retryIfDisconnected_Ok_inv in El as (w0 & Hcall).
  apply PaymentsFacts.remote_Ok_inv in Hcall.
  apply find_some in Ef as Hfound. destruct Hfound as [_ Hxrp].
  apply String.eqb_eq in Hxrp.
  repeat split; try reflexivity; try assumption.
  - destruct (isPaymentTx tx); [|reflexivity].
    destruct (Js.startsWith "-" (bc_value change)).
    + destruct (adj_tag (tx_source tx)); reflexivity.
    + destruct (adj_tag (tx_destination tx)); reflexivity.
  - exists ledger, (api_state w0), (api_state w1). repeat split. exact Hcall.
Qed.

(** *** The activities that are reported *)

Section Range.
Variable address : string.
Variables from to : N.

Lemma reports_within_transport (ev : Event) :
  is_transport ev = true -> reports_within from to ev.
Proof. destruct ev; try discriminate; intros _; exact I. Qed.

Lemma adds_only_txToBalanceActivity (tx : Tx) :
  adds_only (reports_within from to) (txToBalanceActivity api address tx).
Proof.
  unfold txToBalanceActivity.
  destruct (tx_outcome tx) as [outcome|].
  2:{ apply adds_only_bind; [apply adds_only_emit; exact I | intros; apply adds_only_ret]. }
  destruct (negb _); [apply adds_only_ret|].
  apply adds_only_bind.
  - apply adds_only_retryIfDisconnected; [exact reports_within_transport|].
    apply adds_only_remote. exact I.
  - intros ledger. destruct (List.find _ _); apply adds_only_ret.
Qed.

Lemma adds_only_visit (lastTx : option Tx) (tx : Tx) :
  adds_only (reports_within from to)
    (visit api address record_activity from to lastTx tx).
Proof.
  unfold visit. destruct (match lastTx with Some l => _ | None => _ end);
    [apply adds_only_ret|].
  intros w. unfold bind at 1. unfold outcome_ledgerVersion.
  destruct (tx_outcome tx) as [outcome|] eqn:Eo; cbv beta iota delta [ret throw].
  2:{ exists []. split; [reflexivity | constructor]. }
  destruct (N.ltb_spec (ledgerVersion outcome) from) as [Hlo | Hlo]; cbn [orb].
  { exists []. split; [reflexivity | constructor]. }
  destruct (N.ltb_spec to (ledgerVersion outcome)) as [Hhi | Hhi].
  { exists []. split; [reflexivity | constructor]. }
  unfold bind.
  destruct (adds_only_txToBalanceActivity tx w) as (t1 & E1 & F1).
  destruct (txToBalanceActivity api address tx w) as [[[a|] | e] w1] eqn:Ea;
    cbn [snd] in *; eauto.
  exists (EvCallback (ba_externalId a) (activitySequence a) :: t1).
  unfold record_activity, emit; cbn [snd trace]. rewrite E1.
  split; [reflexivity|]. constructor; [|assumption].
  apply txToBalanceActivity_Some in Ea
    as (o & r & Eo' & _ & _ & _ & _ & _ & Hseq).
  rewrite Eo in Eo'. injection Eo' as <-.
  cbn [reports_within]. exists (ledgerVersion outcome), (indexInLedger outcome), (ba_type a).
  repeat split; assumption.
Qed.

Lemma adds_only_for_each {A} (f : A -> M St unit) (l : list A) :
  (forall x, adds_only (reports_within from to) (f x)) ->
  adds_only (reports_within from to) (for_each f l).
Proof.
  intros Hf. induction l as [|x l IH]; cbn [for_each].
  - apply adds_only_ret.
  - apply adds_only_bind; [apply Hf | intros _; exact IH].
Qed.

Lemma adds_only_paging_loop (fuel : nat) :
  forall lastTx transactions,
    adds_only (reports_within from to)
      (paging_loop api address record_activity from to fuel lastTx transactions).
Proof.
  induction fuel as [|fuel IH]; intros lastTx transactions; cbn [paging_loop].
  - apply adds_only_ret.
  - apply adds_only_bind.
    + unfold continue_paging. destruct transactions as [txs|]; [|apply adds_only_ret].
      destruct (Nat.eqb _ _); [|apply adds_only_ret].
      destruct lastTx as [l|]; [|apply adds_only_ret].
      apply adds_only_bind; [|intros; apply adds_only_ret].
      unfold outcome_ledgerVersion.
      destruct (tx_outcome l); [apply adds_only_ret | apply adds_only_throw].
    + intros [|]; [|apply adds_only_ret].
      apply adds_only_bind.
      * apply adds_only_retryIfDisconnected; [exact reports_within_transport|].
        apply adds_only_remote. exact I.
      * intros txs. apply adds_only_bind; [|intros _; apply IH].
        apply adds_only_for_each. intros tx. apply adds_only_visit.
Qed.

End Range.

(** X13.  Whatever the client answers and however long the loop runs,
    [retrieveBalanceActivities] only hands its callback activities of
    ledgers within the range that [resolveFromToLedgers] resolved, and a
    run that comes to its end returns that range. *)
Theorem retrieveBalanceActivities_reports_within (fuel : nat) (address : string)
  (options : GetBalanceActivityOptions) (w w1 : World St) (from to : N) :
  resolveFromToLedgers api options w = (Ok (from, to), w1) ->
  let run := retrieveBalanceActivities api fuel address record_activity options w in
  (exists t,
     trace (snd run) = (t ++ trace w)%list /\ Forall (reports_within from to) t)
  /\ (forall range, fst run = Ok (Some range) -> range = (from, to)).
Proof.
  intros Hrange run.
  assert (exists t, trace w1 = (t ++ trace w)%list /\ Forall (reports_within from to) t)
    as (t1 & E1 & F1).
  { assert (adds_only (reports_within from to) (resolveFromToLedgers api options)) as H.
    { unfold resolveFromToLedgers. apply adds_only_bind.
      - apply adds_only_retryIfDisconnected; [apply reports_within_transport|].
        apply adds_only_remote. exact I.
      - intros range. apply adds_only_bind.
        + destruct (range_from options); [|apply adds_only_ret].
          destruct (_ <? _)%N; [|apply adds_only_ret].
          apply adds_only_bind; [apply adds_only_emit; exact I | intros; apply adds_only_ret].
        + intros f. apply adds_only_bind; [|intros; apply adds_only_ret].
          destruct (range_to options); [|apply adds_only_ret].
          destruct (_ <? _)%N; [|apply adds_only_ret].
          apply adds_only_bind; [apply adds_only_emit; exact I | intros; apply adds_only_ret]. }
    specialize (H w). rewrite Hrange in H. exact H. }
  subst run. unfold retrieveBalanceActivities, assertValidAddress.
  destruct (negb (isValidAddress address)).
  { split; [exists []; split; [reflexivity | constructor] | discriminate]. }
  unfold bind, ret. rewrite Hrange. cbn [fst snd].
  destruct (adds_only_paging_loop address from to fuel None None w1) as (t2 & E2 & F2).
  destruct (paging_loop api address record_activity from to fuel None None w1)
    as [[[u|] | e] w2]; cbn [fst snd] in *.
  all: split;
    [exists (t2 ++ t1)%list; rewrite E2, E1, List.app_assoc;
     split; [reflexivity | now apply Forall_app]|].
  all: intros range H; try discriminate.
  now injection H as <-.
Qed.

End Facts.

End LedgerRangeFacts.

(** ** Keys *)

Module HexFacts.
Import Utils KeyDerivation KeySpec JsFacts Numerals Helpers.

Lemma length_toString_hex (b : list Byte.byte) :
  String.length (toString_hex b) = 2 * List.length b.
Proof. induction b as [|x b IH]; cbn [toString_hex String.length List.length]; lia. Qed.

Lemma length_toUpperCase (s : string) : String.length (toUpperCase s) = String.length s.
Proof. induction s as [|c s IH]; cbn; congruence. Qed.

Lemma upper_hex_byte (x : Byte.byte) :
  is_upper_hex (toUpperCase_char (hex_digit (Byte.to_N x / 16))) = true
  /\ is_upper_hex (toUpperCase_char (hex_digit (Byte.to_N x mod 16))) = true.
Proof. destruct x; split; reflexivity. Qed.

Lemma upper_hex_toString_hex (b : list Byte.byte) :
  string_forall is_upper_hex (toUpperCase (toString_hex b)) = true.
Proof.
  induction b as [|x b IH]; [reflexivity|].
  cbn [toString_hex toUpperCase string_forall].
  destruct (upper_hex_byte x) as [-> ->]. exact IH.
Qed.

Lemma toUpperCase_app (s t : string) :
  toUpperCase (s ++ t) = toUpperCase s ++ toUpperCase t.
Proof. induction s as [|c s IH]; cbn; congruence. Qed.

Lemma upper_hex_zeros (k : nat) : string_forall is_upper_hex (toUpperCase (zeros k)) = true.
Proof. induction k as [|k IH]; [reflexivity | exact IH]. Qed.

Lemma length_zeros (k : nat) : String.length (zeros k) = k.
Proof. induction k as [|k IH]; cbn; congruence. Qed.

Lemma padded_hex (b : list Byte.byte) (n : nat) :
  String.length (toUpperCase (padLeft (toString_hex b) n "0"))
  = Nat.max n (2 * List.length b)
  /\ string_forall is_upper_hex (toUpperCase (padLeft (toString_hex b) n "0")) = true.
Proof.
  rewrite padLeft_zeros, toUpperCase_app, length_app, !length_toUpperCase, length_zeros,
    string_forall_app, upper_hex_zeros, upper_hex_toString_hex, length_toString_hex.
  split; [lia | reflexivity].
Qed.

(** X14.  The public key of a node is printed as upper-case hexadecimal
    digits, two for each byte and padded with zeros to 66 characters: 66
    characters exactly for a key of 33 bytes.  The private key is printed
    the same way, padded to 64 characters, and the node without one gives
    the error of the neutered node. *)
Theorem hdNode_keys_are_hex (key : BIP32Node) :
  String.length (hdNodeToPublicKey key) = Nat.max 66 (2 * List.length (publicKey key))
  /\ string_forall is_upper_hex (hdNodeToPublicKey key) = true
  /\ (List.length (publicKey key) = 33 -> String.length (hdNodeToPublicKey key) = 66)
  /\ match privateKey key with
     | Some k =>
         exists hex,
           hdNodeToPrivateKey key = Ok hex
           /\ String.length hex = Nat.max 64 (2 * List.length k)
           /\ string_forall is_upper_hex hex = true
     | None => hdNodeToPrivateKey key = Err (Local NeuteredPrivateKey)
     end.
Proof.
  unfold hdNodeToPublicKey, hdNodeToPrivateKey, isNeutered.
  destruct (padded_hex (publicKey key) 66) as [L H].
  split; [exact L|]. split; [exact H|]. split; [rewrite L; lia|].
  destruct (privateKey key) as [k|]; [|reflexivity].
  destruct (padded_hex k 64) as [L' H']. eauto.
Qed.

End HexFacts.

Module PathFacts.
Import KeyDerivation KeyFacts.

Section Facts.
Variable childPrivateKey : BIP32Node -> N -> list Byte.byte.
Variable childPublicKey : BIP32Node -> N -> list Byte.byte.
Variable childChainCode : BIP32Node -> N -> list Byte.byte.
Variable fingerprint : BIP32Node -> N.

Abbreviation derive := (derive childPrivateKey childPublicKey childChainCode fingerprint).
Abbreviation deriveHardened :=
  (deriveHardened childPrivateKey childPublicKey childChainCode fingerprint).
Abbreviation deriveBasePath :=
  (deriveBasePath childPrivateKey childPublicKey childChainCode fingerprint).

Lemma deriveBasePath_deep (key : BIP32Node) : 3 <= depth key -> deriveBasePath key = Ok key.
Proof.
  intros H. unfold KeyDerivation.deriveBasePath, derivationPathParts.
  destruct (depth key) as [|[|[|d]]]; try lia.
  cbn [skipn]. rewrite skipn_nil. reflexivity.
Qed.

Lemma deriveHardened_Ok (key child : BIP32Node) (index : N) :
  deriveHardened key index = Ok child ->
  isNeutered key = false /\ isNeutered child = false /\ depth child = S (depth key).
Proof.
  unfold KeyDerivation.deriveHardened, KeyDerivation.derive.
  destruct (HIGHEST_BIT <=? index)%N eqn:Hi; [discriminate|].
  destruct (4294967296 <=? index + HIGHEST_BIT)%N; [discriminate|].
  assert ((HIGHEST_BIT <=? index + HIGHEST_BIT)%N = true) as -> by (apply N.leb_le; lia).
  destruct (isNeutered key) eqn:Hn; cbn [andb]; [discriminate|].
  intros [= <-]. repeat split.
Qed.

(** X15.  [deriveBasePath] leaves a node of depth 3 or more as it is, and
    is refused on a node of depth less than 3 that has a parent or is
    neutered.  A node it returns has depth 3 at least and is left as it is
    when the path is applied again; when the key was less than 3 deep, it
    was a master node with its private key, and the node returned sits at
    depth 3, with its private key. *)
Theorem deriveBasePath_by_depth (key : BIP32Node) :
  (3 <= depth key -> deriveBasePath key = Ok key)
  /\ (depth key < 3 -> parentFingerprint key <> 0%N ->
      deriveBasePath key = Err (Foreign "TypeError"))
  /\ (depth key < 3 -> isNeutered key = true ->
      deriveBasePath key = Err (Foreign "TypeError"))
  /\ (forall base,
        deriveBasePath key = Ok base ->
        3 <= depth base
        /\ deriveBasePath base = Ok base
        /\ (depth key < 3 ->
            depth base = 3 /\ parentFingerprint key = 0%N
            /\ isNeutered key = false /\ isNeutered base = false)).
Proof.
  split; [exact (deriveBasePath_deep key)|]. split; [|split].
  - intros Hd Hp. unfold KeyDerivation.deriveBasePath, derivePath_m, derivationPathParts.
    destruct (N.eqb_spec (parentFingerprint key) 0) as [E | _]; [contradiction|].
    destruct (depth key) as [|[|[|d]]]; try lia; reflexivity.
  - intros Hd Hn. rewrite deriveBasePath_neutered by assumption.
    destruct (Nat.ltb_spec (depth key) 3); [reflexivity | lia].
  - intros base H.
    assert (3 <= depth base
            /\ (depth key < 3 ->
                depth base = 3 /\ parentFingerprint key = 0%N
                /\ isNeutered key = false /\ isNeutered base = false)) as [Hdeep Hshallow].
    { revert H. unfold KeyDerivation.deriveBasePath, derivePath_m, derivationPathParts.
      destruct (depth key) as [|[|[|d]]] eqn:Ed; cbn [skipn]; rewrite ?skipn_nil;
        cbn [List.length Nat.ltb Nat.leb].
      4:{ intros [= <-]. split; lia. }
      all: destruct (N.eqb_spec (parentFingerprint key) 0) as [Hp | _]; cbn [negb];
        [|discriminate].
      all: cbn [fold_left rbind fst snd].
      - destruct (deriveHardened key 44) as [k1 | e] eqn:E1; cbn [rbind]; [|discriminate].
        destruct (deriveHardened k1 144) as [k2 | e] eqn:E2; cbn [rbind]; [|discriminate].
        intros E3.
        apply deriveHardened_Ok in E1 as (N0 & N1 & D1).
        apply deriveHardened_Ok in E2 as (_ & N2 & D2).
        apply deriveHardened_Ok in E3 as (_ & N3 & D3).
        split; [lia|]. intros _. repeat split; try assumption. lia.
      - destruct (deriveHardened key 144) as [k2 | e] eqn:E2; cbn [rbind]; [|discriminate].
        intros E3.
        apply deriveHardened_Ok in E2 as (N0 & N2 & D2).
        apply deriveHardened_Ok in E3 as (_ & N3 & D3).
        split; [lia|]. intros _. repeat split; try assumption. lia.
      - intros E3.
        apply deriveHardened_Ok in E3 as (N0 & N3 & D3).
        split; [lia|]. intros _. repeat split; try assumption. lia. }
    split; [assumption|]. split; [now apply deriveBasePath_deep | assumption].
Qed.

End Facts.

End PathFacts.

Module WatchKeyFacts.
Import KeyDerivation WatchKey KeySpec KeyFacts.

Section Facts.
Variable fromBase58 : string -> Result BIP32Node.
Variable toBase58 : BIP32Node -> string.
Variable childPrivateKey : BIP32Node -> N -> list Byte.byte.
Variable childPublicKey : BIP32Node -> N -> list Byte.byte.
Variable childChainCode : BIP32Node -> N -> list Byte.byte.
Variable fingerprint : BIP32Node -> N.
Variables sha256 ripemd160 : list Byte.byte -> list Byte.byte.
Variable Buffer_from_hex : string -> list Byte.byte.
Variable base58_encode : list Byte.byte -> string.

Abbreviation derive := (derive childPrivateKey childPublicKey childChainCode fingerprint).
Abbreviation deriveBasePath :=
  (deriveBasePath childPrivateKey childPublicKey childChainCode fingerprint).
Abbreviation deriveSignatory :=
  (deriveSignatory fromBase58 childPrivateKey childPublicKey childChainCode fingerprint
     sha256 ripemd160 Buffer_from_hex base58_encode).
Abbreviation xprvToXpub :=
  (xprvToXpub fromBase58 toBase58 childPrivateKey childPublicKey childChainCode fingerprint).

(** The public key, the chain code and the fingerprint of a child that is
    not hardened are computed from the public half of the parent. *)
Hypothesis public_derivation :
  forall key index,
    (index < HIGHEST_BIT)%N ->
    childPublicKey (neutered key) index = childPublicKey key index
    /\ childChainCode (neutered key) index = childChainCode key index
    /\ fingerprint (neutered key) = fingerprint key.

Lemma derive_of_neutered (key : BIP32Node) (index : N) :
  (index < HIGHEST_BIT)%N ->
  derive (neutered key) index
  = match derive key index with
    | Ok child => Ok (neutered child)
    | Err e => Err e
    end.
Proof.
  intros Hi. unfold KeyDerivation.derive.
  destruct (public_derivation key Hi) as (-> & -> & ->).
  destruct (N.leb_spec 4294967296 index); [unfold HIGHEST_BIT in Hi; lia|].
  destruct (N.leb_spec HIGHEST_BIT index); [lia|].
  cbn [andb]. reflexivity.
Qed.

Lemma derive_depth (key child : BIP32Node) (index : N) :
  derive key index = Ok child -> depth child = S (depth key).
Proof.
  unfold KeyDerivation.derive.
  destruct (4294967296 <=? index)%N; [discriminate|].
  destruct (_ && _); [discriminate|]. intros [= <-]. reflexivity.
Qed.

Lemma deriveBasePath_depth (key base : BIP32Node) :
  deriveBasePath key = Ok base -> 3 <= depth base.
Proof.
  unfold KeyDerivation.deriveBasePath, derivePath_m, deriveHardened, derivationPathParts.
  destruct (depth key) as [|[|[|d]]] eqn:Ed; cbn [skipn]; rewrite ?skipn_nil;
    cbn [List.length Nat.ltb Nat.leb].
  4:{ intros [= <-]. lia. }
  all: destruct (negb (parentFingerprint key =? 0)%N); [discriminate|].
  all: cbn [fold_left rbind fst snd].
  all: repeat match goal with
              | |- context [if ?b then Err _ else _] => destruct b; cbn [rbind]
              end; try discriminate.
  all: repeat match goal with
              | |- context [derive ?k ?i] =>
                  let E := fresh "E" in
                  destruct (derive k i) eqn:E; cbn [rbind]; try discriminate;
                  apply derive_depth in E
              end.
  all: intros [= <-]; lia.
Qed.

(** A signatory derived from the neutered node at the end of the fixed path
    is the signatory derived from the key itself, without the private
    key. *)
Lemma deriveSignatory_watch_key (xprv xpub : string) (key base : BIP32Node)
  (index : N) :
  fromBase58 xprv = Ok key ->
  deriveBasePath key = Ok base ->
  fromBase58 xpub = Ok (neutered base) ->
  (index < HIGHEST_BIT)%N ->
  deriveSignatory xpub index
  = match deriveSignatory xprv index with
    | Ok signatory => Ok (watch_only signatory)
    | Err e => Err e
    end.
Proof.
  intros Hkey Hbase Hread Hi.
  unfold KeyDerivation.deriveSignatory. rewrite Hread, Hkey. cbn [rbind].
  rewrite Hbase. rewrite (@deriveBasePath_neutered childPrivateKey childPublicKey
                            childChainCode fingerprint (neutered base) eq_refl).
  pose proof (deriveBasePath_depth _ Hbase) as Hd.
  change (depth (neutered base)) with (depth base).
  destruct (Nat.ltb_spec (depth base) 3); [lia|]. cbn [rbind].
  rewrite derive_of_neutered by reflexivity.
  destruct (derive base 0) as [account | e]; [|reflexivity]. cbn [rbind].
  rewrite derive_of_neutered by assumption.
  destruct (derive account index) as [derived | e]; [|reflexivity]. cbn [rbind].
  change (isNeutered (neutered derived)) with true. cbn [rbind].
  change (hdNodeToPublicKey (neutered derived)) with (hdNodeToPublicKey derived).
  destruct (isNeutered derived) eqn:En; cbn [rbind]; [reflexivity|].
  unfold hdNodeToPrivateKey. rewrite En. unfold isNeutered in En.
  destruct (privateKey derived); [reflexivity | discriminate].
Qed.

(** X16.  When the children that are not hardened are derived from the
    public half of their parent, and the serialized watch key reads back,
    [xprvToXpub] of a key, given as a string or as a node, is the
    serialization of the neutered node at the end of the fixed path, and
    the signatory of any index below 2^31 derived from it is the one
    derived from the key itself, with the same address and public key and
    the empty string as private key. *)
Theorem watch_key_derives_same_addresses (xprv : string) (key base : BIP32Node)
  (index : N) :
  fromBase58 xprv = Ok key ->
  deriveBasePath key = Ok base ->
  fromBase58 (toBase58 (neutered base)) = Ok (neutered base) ->
  (index < HIGHEST_BIT)%N ->
  xprvToXpub (inl xprv) = Ok (toBase58 (neutered base))
  /\ xprvToXpub (inr key) = Ok (toBase58 (neutered base))
  /\ deriveSignatory (toBase58 (neutered base)) index
     = match deriveSignatory xprv index with
       | Ok signatory => Ok (watch_only signatory)
       | Err e => Err e
       end.
Proof.
  intros Hkey Hbase Hread Hi.
  split; [|split].
  - unfold WatchKey.xprvToXpub. rewrite Hkey. cbn [rbind]. rewrite Hbase. reflexivity.
  - unfold WatchKey.xprvToXpub. cbn [rbind]. rewrite Hbase. reflexivity.
  - now apply deriveSignatory_watch_key with (key := key) (base := base).
Qed.

End Facts.

End WatchKeyFacts.

Module HdFacts.
Import KeyDerivation KeyFormat WatchKey KeySpec KeyFacts WatchKeyFacts HdRipplePayments.

Lemma xpub_prefix (s : string) :
  isValidXpub s = true -> exists rest, s = String "x" (String "p" (String "u" (String "b" rest))).
Proof.
  unfold isValidXpub, XPUB_REGEX_test.
  destruct s as [|c s]; [discriminate|].
  destruct c as [[] [] [] [] [] [] [] []]; try discriminate.
  destruct s as [|c s]; [discriminate|].
  destruct c as [[] [] [] [] [] [] [] []]; try discriminate.
  destruct s as [|c s]; [discriminate|].
  destruct c as [[] [] [] [] [] [] [] []]; try discriminate.
  destruct s as [|c s]; [discriminate|].
  destruct c as [[] [] [] [] [] [] [] []]; try discriminate.
  intros _. eauto.
Qed.

(** No string is both an xprv and an xpub. *)
Lemma xpub_not_xprv (s : string) : isValidXpub s = true -> isValidXprv s = false.
Proof. intros H. destruct (xpub_prefix _ H) as (rest & ->). reflexivity. Qed.

Section Facts.
Variable fromBase58 : string -> Result BIP32Node.
Variable toBase58 : BIP32Node -> string.
Variable childPrivateKey : BIP32Node -> N -> list Byte.byte.
Variable childPublicKey : BIP32Node -> N -> list Byte.byte.
Variable childChainCode : BIP32Node -> N -> list Byte.byte.
Variable fingerprint : BIP32Node -> N.
Variables sha256 ripemd160 : list Byte.byte -> list Byte.byte.
Variable Buffer_from_hex : string -> list Byte.byte.
Variable base58_encode : list Byte.byte -> string.

Abbreviation new :=
  (new fromBase58 toBase58 childPrivateKey childPublicKey childChainCode fingerprint
     sha256 ripemd160 Buffer_from_hex base58_encode).
Abbreviation getPublicConfig :=
  (getPublicConfig fromBase58 toBase58 childPrivateKey childPublicKey childChainCode
     fingerprint).

Hypothesis public_derivation :
  forall key index,
    (index < HIGHEST_BIT)%N ->
    childPublicKey (neutered key) index = childPublicKey key index
    /\ childChainCode (neutered key) index = childChainCode key index
    /\ fingerprint (neutered key) = fingerprint key.

(** X17.  An account built from a valid xprv is not read-only, its account
    id at every index and the [hdKey] of its public config are its xpub,
    and, when the children that are not hardened are derived from the
    public half of their parent and that xpub is a valid one that reads
    back, the account built from the xpub is read-only, has the same xpub,
    and has the same hot and deposit signatories without their private
    keys. *)
Theorem hd_watch_only_twin (hdKey : string) (key base : BIP32Node) (this : t) :
  new hdKey = Returns this ->
  isValidXprv hdKey = true ->
  fromBase58 hdKey = Ok key ->
  deriveBasePath childPrivateKey childPublicKey childChainCode fingerprint key = Ok base ->
  fromBase58 (toBase58 (neutered base)) = Ok (neutered base) ->
  isValidXpub (toBase58 (neutered base)) = true ->
  isReadOnly this = false
  /\ xpub this = toBase58 (neutered base)
  /\ getPublicConfig this = Returns (xpub this)
  /\ (forall index, getAccountId this index = xpub this)
  /\ exists twin,
       new (xpub this) = Returns twin
       /\ isReadOnly twin = true
       /\ xpub twin = xpub this
       /\ hotSignatory twin = watch_only (hotSignatory this)
       /\ depositSignatory twin = watch_only (depositSignatory this).
Proof.
  intros Hnew Hxprv Hkey Hbase Hread Hxpub.
  pose proof (@deriveSignatory_watch_key fromBase58 childPrivateKey childPublicKey
                childChainCode fingerprint sha256 ripemd160 Buffer_from_hex base58_encode
                public_derivation hdKey (toBase58 (neutered base)) key base) as Hwatch.
  assert (xprvToXpub fromBase58 toBase58 childPrivateKey childPublicKey childChainCode
            fingerprint (inl hdKey) = Ok (toBase58 (neutered base))) as Hpub.
  { unfold xprvToXpub. rewrite Hkey. cbn [rbind]. rewrite Hbase. reflexivity. }
  revert Hnew. unfold HdRipplePayments.new. rewrite Hxprv, Hpub. cbn [settle sbind fst snd].
  pose proof (Hwatch 0%N Hkey Hbase Hread eq_refl) as H0.
  pose proof (Hwatch 1%N Hkey Hbase Hread eq_refl) as H1.
  destruct (deriveSignatory _ _ _ _ _ _ _ _ _ hdKey 0) as [hot | e]; [|discriminate].
  cbn [settle sbind].
  destruct (deriveSignatory _ _ _ _ _ _ _ _ _ hdKey 1) as [deposit | e]; [|discriminate].
  cbn [settle sbind]. intros [= <-].
  cbn [isReadOnly xprv xpub hotSignatory depositSignatory getAccountId].
  unfold HdRipplePayments.getPublicConfig. cbn [config_hdKey]. rewrite Hpub.
  split; [reflexivity|]. split; [reflexivity|]. split; [reflexivity|].
  split; [reflexivity|].
  rewrite (xpub_not_xprv _ Hxpub), Hxpub. cbn [sbind fst snd].
  rewrite H0, H1. cbn [settle sbind].
  eexists. split; [reflexivity|]. repeat split.
Qed.

End Facts.

End HdFacts.

(** ** AccountRipplePayments *)

Module AccountFacts.
Import Helpers Payments AccountRipplePayments AccountSpec Ledgering.

(** X18.  An account built from two account configs is read-only as soon
    as one of them carries no secret: a bare address, or an empty [secret]
    or [privateKey]; [signTransaction] then refuses every transaction,
    those of an address whose secret is known too.  The address of a
    signatory is the bare address, which is a valid one, the [address] of a
    secret pair, taken as it is, or the address that [deriveAddress] gives
    for the public key of a key pair. *)
Theorem account_read_only (deriveAddress : string -> Result string)
  (hotAccount depositAccount : RippleAccountConfig) (this : t) :
  new deriveAddress hotAccount depositAccount = Returns this ->
  isReadOnly this = lacks_secret hotAccount || lacks_secret depositAccount
  /\ (lacks_secret hotAccount || lacks_secret depositAccount = true ->
      forall St (client : LedgerClient.t St) (hot deposit : Signatory)
             (tx : UnsignedTransaction) (w : World St),
        signTransaction client hot deposit (isReadOnly this) tx w
        = (Refuses ReadOnlyPayments, w))
  /\ (forall a, hotAccount = ConfigAddress a ->
                isValidAddress a = true /\ address (hotSignatory this) = a)
  /\ (forall a, depositAccount = ConfigAddress a ->
                isValidAddress a = true /\ address (depositSignatory this) = a)
  /\ (forall a s, hotAccount = ConfigSecretPair a s -> address (hotSignatory this) = a)
  /\ (forall a s, depositAccount = ConfigSecretPair a s ->
                  address (depositSignatory this) = a)
  /\ (forall pub priv, hotAccount = ConfigKeyPair pub priv ->
                       deriveAddress pub = Ok (address (hotSignatory this)))
  /\ (forall pub priv, depositAccount = ConfigKeyPair pub priv ->
                       deriveAddress pub = Ok (address (depositSignatory this))).
Proof.
  unfold new, isReadOnly.
  assert (forall ro cfg signatory ro',
             accountConfigToSignatory deriveAddress ro cfg = Returns (signatory, ro') ->
             ro' = lacks_secret cfg || ro
             /\ match cfg with
                | ConfigAddress a => isValidAddress a = true /\ address signatory = a
                | ConfigSecretPair a _ => address signatory = a
                | ConfigKeyPair pub _ => deriveAddress pub = Ok (address signatory)
                end) as Hone.
  { intros ro [a | a s | pub priv] signatory ro'; cbn [accountConfigToSignatory lacks_secret].
    - destruct (isValidAddress a) eqn:Ha; [|discriminate].
      intros [= <- <-]. repeat split.
    - intros [= <- <-]. split; [|reflexivity].
      destruct (String.eqb s ""); reflexivity.
    - destruct (deriveAddress pub) as [addr | e]; cbn [settle sbind]; [|discriminate].
      intros [= <- <-]. split; [|reflexivity].
      destruct (String.eqb priv ""); reflexivity. }
  destruct (accountConfigToSignatory deriveAddress false hotAccount)
    as [[hot ro1] | r | e] eqn:E1; cbn [sbind]; try discriminate.
  cbn [snd fst].
  destruct (accountConfigToSignatory deriveAddress ro1 depositAccount)
    as [[deposit ro2] | r | e] eqn:E2; cbn [sbind]; try discriminate.
  cbn [snd fst]. intros [= <-]. cbn [readOnly hotSignatory depositSignatory].
  destruct (Hone _ _ _ _ E1) as [-> Hh]. destruct (Hone _ _ _ _ E2) as [-> Hd].
  rewrite orb_false_r.
  split; [apply orb_comm|]. split.
  { intros Hro St client hs ds tx w. unfold signTransaction.
    rewrite orb_comm, Hro. reflexivity. }
  repeat split; intros; subst; try apply Hh; apply Hd.
Qed.

(** X19.  The account ids are the hot and the deposit address, and the
    account id of an index that is not negative is the address of the
    payport of that index: the hot address for 0, the deposit address for
    any other; a negative index is refused, while [doGetPayport] answers
    it. *)
Theorem getAccountId_matches_payport (this : t) (hot deposit : Signatory) (index : Z) :
  sig_address hot = address (hotSignatory this) ->
  sig_address deposit = address (depositSignatory this) ->
  getAccountIds this = [sig_address hot; sig_address deposit]
  /\ getAccountId this index
     = (if (index <? 0)%Z then Refuses (InvalidAccountIdIndex index)
        else Returns (pp_address (doGetPayport hot deposit index))).
Proof.
  intros Hh Hd. unfold getAccountIds, getAccountId, doGetPayport. rewrite Hh, Hd.
  split; [reflexivity|].
  destruct (index <? 0)%Z; [reflexivity|].
  destruct (index =? 0)%Z; [reflexivity|].
  destruct (index =? 1)%Z; reflexivity.
Qed.

End AccountFacts.

(** ** Lookup, signing and broadcast *)

Module LedgeringFacts.
Import Constants Helpers Utils Payments RetrySpec RetryFacts PaymentsSpec PaymentsFacts.
Import LedgerClient Ledgering PayportSpec TransferFacts PayportFacts.

Lemma request_Ok_inv {St A} (call : St -> Result A * St) (w w' : World St) (a : A) :
  request call w = (Ok a, w') -> call (api_state w) = (Ok a, api_state w').
Proof.
  unfold request. destruct (call (api_state w)) as [r s'].
  intros [= -> <-]. reflexivity.
Qed.

Section Facts.
Context {St : Type} (api : RippleAPI St) (client : LedgerClient.t St).
Variables hot deposit : Signatory.
Variable config_offset : option N.
Variable converters : nat -> UnitConverters.
Variable toString : Thrown -> Result string.

(** X20.  A transaction built by [createTransaction] or
    [createSweepTransaction] can be signed on an account that is not
    read-only: [signTransaction] never turns its address down, and signs
    its data with the secret of the hot signatory when [from] is 0 (or when
    the two addresses coincide) and with the one of the deposit signatory
    otherwise, returning the transaction with the id and data of the
    signature and the status signed, or throwing what [sign] throws.  On a
    read-only account it is refused. *)
Theorem signTransaction_of_created (from : Z) (to : ResolveablePayport)
  (amount : BigNumber) (options : CreateTransactionOptions) (w w' w2 : World St)
  (tx : UnsignedTransaction) :
  createTransaction api hot deposit config_offset converters from to amount options w
  = (Ok tx, w')
  \/ createSweepTransaction api hot deposit config_offset converters from to options w
     = (Ok tx, w') ->
  signTransaction client hot deposit true tx w2 = (Refuses ReadOnlyPayments, w2)
  /\ signTransaction client hot deposit false tx w2
     = (match sign client (utx_data tx)
                (if (from =? 0)%Z || String.eqb (sig_address deposit) (sig_address hot)
                 then sig_secret hot
                 else sig_secret deposit) with
        | Ok signResult =>
            Returns (mkSignedTransaction tx (sign_id signResult) signResult Signed)
        | Err e => Throws e
        end, w2).
Proof.
  intros H. split; [reflexivity|].
  destruct (@created_Ok_inv _ _ _ _ _ _ _ _ _ _ _ _ _ H) as (fromTo & fee & balance & w3 & E1 & E2).
  destruct (@resolveFromTo_Ok_inv _ _ _ _ _ _ _ _ E1) as (_ & toPayport & _ & ->).
  destruct (@doCreateTransaction_Ok_inv _ _ _ _ _ _ _ _ _ _ _ _ _ E2)
    as (_ & _ & prepared & offset & s & -> & _).
  unfold signTransaction, andThen, done, refuse, await, liftR.
  cbn [utx_fromAddress utx_data fromAddress].
  unfold doGetPayport.
  destruct (from =? 0)%Z; cbn [pp_address orb].
  - rewrite String.eqb_refl.
    destruct (sign client prepared (sig_secret hot)); reflexivity.
  - assert (pp_address (if (from =? 1)%Z
                        then mkPayport (sig_address deposit) None
                        else mkPayport (sig_address deposit) (Some (Js.String_of_Z from)))
            = sig_address deposit) as -> by (destruct (from =? 1)%Z; reflexivity).
    destruct (String.eqb (sig_address deposit) (sig_address hot)).
    + destruct (sign client prepared (sig_secret hot)); reflexivity.
    + rewrite String.eqb_refl.
      destruct (sign client prepared (sig_secret deposit)); reflexivity.
Qed.

(** What a lookup that succeeds has read. *)
Lemma getTransactionInfo_Returns_inv (txId : string) (w w' : World St)
  (info : TransactionInfo) :
  getTransactionInfo api client hot deposit toString txId w = (Returns info, w') ->
  exists tx amountObject ledger current s0 s0' s1 s1' s2 s2',
    getTransaction client txId s0 = (Ok tx, s0')
    /\ getLedger client (outcome_ledgerVersion tx) s1 = (Ok ledger, s1')
    /\ getLedgerVersion client s2 = (Ok current, s2')
    /\ type tx = "payment"
    /\ match source_maxAmount tx with
       | Some a => Some a
       | None => source_amount tx
       end = Some amountObject
    /\ amt_currency amountObject = "XRP"
    /\ info
       = mkTransactionInfo (id tx)
           (resolveIndexFromAdjustment hot deposit (source tx))
           (adj_address (source tx))
           (option_map Js.String_of_Z (adj_tag (source tx)))
           (resolveIndexFromAdjustment hot deposit (destination tx))
           (adj_address (destination tx))
           (option_map Js.String_of_Z (adj_tag (destination tx)))
           (amt_value amountObject) (outcome_fee tx)
           (if Js.startsWith "tes" (outcome_result tx) then Confirmed else Failed)
           (ledgerHash ledger) (ledgerVersion ledger) (outcome_timestamp tx)
           (Js.startsWith "tes" (outcome_result tx)) true
           (current - Z.of_N (outcome_ledgerVersion tx))%Z tx.
Proof.
  unfold getTransactionInfo.
  destruct (retryDced api (request (getTransaction client txId)) w) as [[tx | e] w1] eqn:E0.
  2:{ destruct (toString e) as [eString | thrown]; [|discriminate].
      destruct (existsb _ _); discriminate. }
  destruct (String.eqb_spec (type tx) "payment") as [Htype | _]; [|discriminate].
  cbn [negb].
  destruct (match source_maxAmount tx with Some a => Some a | None => source_amount tx end)
    as [amountObject|] eqn:Ea; [|discriminate].
  destruct (String.eqb_spec (amt_currency amountObject) "XRP") as [Hxrp | _]; [|discriminate].
  cbn [negb]. unfold andThen, await, done.
  destruct (retryDced api (remote _ _) w1) as [[ledger | e] w2] eqn:E1; [|discriminate].
  cbn [settle].
  destruct (retryDced api (request (getLedgerVersion client)) w2) as [[current | e] w3] eqn:E2;
    [|discriminate].
  cbn [settle]. intros [= <- <-].
  apply retryIfDisconnected_Ok_inv in E0 as (w0 & E0). apply request_Ok_inv in E0.
  apply retryIfDisconnected_Ok_inv in E1 as (w1' & E1). apply remote_Ok_inv in E1.
  apply retryIfDisconnected_Ok_inv in E2 as (w2' & E2). apply request_Ok_inv in E2.
  exists tx, amountObject, ledger, current.
  do 6 eexists. repeat split; try eassumption.
  destruct (Js.startsWith "tes" (outcome_result tx)); reflexivity.
Qed.

(** X21.  The info that [getTransactionInfo] returns is about a payment in
    XRP, the one that [getTransaction] answered: the amount is the one of
    [maxAmount], or of [amount] without it; the status is confirmed exactly
    when the result code starts with "tes", and failed otherwise;
    [isExecuted] says the same, while [isConfirmed] holds in both cases;
    the indices are those that [resolveIndexFromAdjustment] gives for
    source and destination, the extraIds their printed tags; the
    confirmation id and number are read off the ledger of the transaction,
    and the confirmations are the current ledger version minus the ledger
    version of the transaction. *)
Theorem getTransactionInfo_reports (txId : string) (w w' : World St)
  (info : TransactionInfo) :
  getTransactionInfo api client hot deposit toString txId w = (Returns info, w') ->
  let tx := info_data info in
  (exists s s', getTransaction client txId s = (Ok tx, s'))
  /\ type tx = "payment"
  /\ info_id info = id tx
  /\ (exists amountObject,
        match source_maxAmount tx with
        | Some a => Some a
        | None => source_amount tx
        end = Some amountObject
        /\ amt_currency amountObject = "XRP"
        /\ info_amount info = amt_value amountObject)
  /\ info_fee info = outcome_fee tx
  /\ info_status info
     = (if Js.startsWith "tes" (outcome_result tx) then Confirmed else Failed)
  /\ info_isExecuted info = Js.startsWith "tes" (outcome_result tx)
  /\ info_isConfirmed info = true
  /\ info_fromIndex info = resolveIndexFromAdjustment hot deposit (source tx)
  /\ info_toIndex info = resolveIndexFromAdjustment hot deposit (destination tx)
  /\ info_fromAddress info = adj_address (source tx)
  /\ info_toAddress info = adj_address (destination tx)
  /\ info_fromExtraId info = option_map Js.String_of_Z (adj_tag (source tx))
  /\ info_toExtraId info = option_map Js.String_of_Z (adj_tag (destination tx))
  /\ (exists ledger s s',
        getLedger client (outcome_ledgerVersion tx) s = (Ok ledger, s')
        /\ info_confirmationId info = ledgerHash ledger
        /\ info_confirmationNumber info = ledgerVersion ledger)
  /\ (exists current s s',
        getLedgerVersion client s = (Ok current, s')
        /\ info_confirmations info = (current - Z.of_N (outcome_ledgerVersion tx))%Z).
Proof.
  intros H. apply getTransactionInfo_Returns_inv in H
    as (tx & amountObject & ledger & current & s0 & s0' & s1 & s1' & s2 & s2'
        & H0 & H1 & H2 & Htype & Ha & Hxrp & ->).
  cbv zeta. cbn [info_data info_id info_amount info_fee info_status info_isExecuted
                 info_isConfirmed info_fromIndex info_toIndex info_fromAddress
                 info_toAddress info_fromExtraId info_toExtraId info_confirmationId
                 info_confirmationNumber info_confirmations].
  split; [eauto|]. split; [assumption|]. split; [reflexivity|].
  split; [exists amountObject; repeat split; assumption|].
  do 10 (split; [reflexivity|]).
  split; [exists ledger, s1, s1'; repeat split; assumption|].
  exists current, s2, s2'. repeat split; assumption.
Qed.


(** X23.  [getTransactionInfo] reports a transaction as not found exactly
    when the lookup of the transaction itself failed, retries included,
    with a value whose string form contains "MissingLedgerHistoryError" or
    "NotFoundError"; nothing that happens later in the call is reported
    that way. *)
Theorem getTransactionInfo_not_found (txId : string) (w w' : World St)
  (eString : string) :
  getTransactionInfo api client hot deposit toString txId w
  = (Refuses (TransactionNotFound eString), w')
  <-> exists e,
        retryDced api (request (getTransaction client txId)) w = (Err e, w')
        /\ toString e = Ok eString
        /\ string_includes eString "MissingLedgerHistoryError"
           || string_includes eString "NotFoundError" = true.
Proof.
  unfold getTransactionInfo. split.
  - destruct (retryDced api (request (getTransaction client txId)) w) as [[tx | e] w1].
    + destruct (negb _); [discriminate|].
      destruct (match source_maxAmount tx with Some a => Some a | None => source_amount tx end);
        [|discriminate].
      destruct (negb _); [discriminate|].
      unfold andThen, await, done.
      destruct (retryDced api (remote _ _) w1) as [[ledger | e] w2]; [|discriminate].
      cbn [settle].
      destruct (retryDced api (request (getLedgerVersion client)) w2) as [[current | e] w3];
        discriminate.
    + destruct (toString e) as [s | thrown] eqn:Es; [|discriminate].
      cbn [NOT_FOUND_ERRORS existsb]. rewrite orb_false_r.
      destruct (_ || _) eqn:Hin; [|discriminate].
      intros [= <- <-]. exists e. repeat split; assumption.
  - intros (e & -> & -> & Hin).
    cbn [NOT_FOUND_ERRORS existsb]. rewrite orb_false_r, Hin. reflexivity.
Qed.

(** X24.  The outcome of [broadcastTransaction] is decided by [submit]
    alone, which is called whatever the lookup before it did: what [submit]
    throws is thrown; a result code, [engine_result] or else [resultCode],
    that does not start with "tes" is the broadcast error with that code;
    any other answer is returned with the id of the signed transaction.
    The lookup only sets the rebroadcast flag, which is false when the
    lookup fails. *)
Theorem broadcastTransaction_outcome (signedTx : SignedTransaction) (w : World St) :
  let lookup := getTransactionInfo api client hot deposit toString (stx_id signedTx) w in
  let rebroadcast :=
    match fst lookup with
    | Returns existing => String.eqb (info_id existing) (stx_id signedTx)
    | _ => false
    end in
  match retryDced api
          (request (submit client (signedTransaction (stx_data signedTx)))) (snd lookup) with
  | (Ok result, w') =>
      let resultCode :=
        or_string (engine_result result) (or_string (resultCode result) "") in
      broadcastTransaction api client hot deposit toString signedTx w
      = (if Js.startsWith "tes" resultCode
         then Returns (mkBroadcastResult (stx_id signedTx) rebroadcast result)
         else Refuses (BroadcastFailed (stx_id signedTx) resultCode), w')
  | (Err e, w') =>
      broadcastTransaction api client hot deposit toString signedTx w = (Throws e, w')
  end.
Proof.
  cbv zeta. unfold broadcastTransaction.
  destruct (getTransactionInfo api client hot deposit toString (stx_id signedTx) w)
    as [[existing | r | e] w1]; cbn [fst snd].
  all: unfold andThen, await, refuse, done.
  all: destruct (retryDced api _ w1) as [[result | e'] w2]; cbn [settle]; try reflexivity.
  all: destruct (Js.startsWith "tes" _); reflexivity.
Qed.

End Facts.

End LedgeringFacts.

(** ** Payports validated against the ledger *)

Module ValidationFacts.
Import Helpers Utils Payments RetrySpec RetryFacts LedgerClient PayportValidation
  LedgeringFacts.

Section Facts.
Context {St : Type} (api : RippleAPI St) (client : LedgerClient.t St).
Variable errorMessage : Thrown -> Result string.

(** X25.  When the message of every caught value can be read,
    [getPayportValidationMessage] never throws, [validatePayport] refuses
    exactly when there is a message and [isValidPayport] is false exactly
    then, all three leaving the client in the same state.  An invalid
    address is reported without a remote call.  With a valid address, an
    extraId is judged by its form alone, and a payport without extraId is
    only refused when [getSettings] answered that the address requires a
    destination tag: a lookup that fails lets the payport pass. *)
Theorem validatePayport_outcome (payport : Payport) (w : World St) :
  (forall e, exists s, errorMessage e = Ok s) ->
  exists result w',
    getPayportValidationMessage api client errorMessage payport w = (Ok result, w')
    /\ validatePayport api client errorMessage payport w
       = (match result with
          | Some m => Refuses (InvalidPayport m)
          | None => Returns tt
          end, w')
    /\ isValidPayport api client errorMessage payport w
       = (Ok (match result with Some _ => false | None => true end), w')
    /\ (isValidAddress (pp_address payport) = false ->
        result = Some InvalidPayportAddress /\ w' = w)
    /\ (isValidAddress (pp_address payport) = true ->
        match pp_extraId payport with
        | Some extraId =>
            result = (if isValidExtraId extraId then None else Some InvalidPayportExtraId)
        | None =>
            result = None
            \/ result = Some (PayportExtraIdRequired (pp_address payport))
               /\ exists settings s s',
                    getSettings client (pp_address payport) s = (Ok settings, s')
                    /\ requireDestinationTag settings = Some true
        end).
Proof.
  intros Hmsg.
  assert (exists result w',
             getPayportValidationMessage api client errorMessage payport w = (Ok result, w')
             /\ (isValidAddress (pp_address payport) = false ->
                 result = Some InvalidPayportAddress /\ w' = w)
             /\ (isValidAddress (pp_address payport) = true ->
                 match pp_extraId payport with
                 | Some extraId =>
                     result = (if isValidExtraId extraId then None
                               else Some InvalidPayportExtraId)
                 | None =>
                     result = None
                     \/ result = Some (PayportExtraIdRequired (pp_address payport))
                        /\ exists settings s s',
                             getSettings client (pp_address payport) s = (Ok settings, s')
                             /\ requireDestinationTag settings = Some true
                 end)) as (result & w' & Hget & Hbad & Hgood).
  { unfold getPayportValidationMessage.
    destruct (isValidAddress (pp_address payport)) eqn:Ha; cbn [negb].
    2:{ eexists; eexists. split; [reflexivity|]. split; [now split | discriminate]. }
    unfold bind at 1. unfold _retryDced.
    destruct (retryIfDisconnected api (request (getSettings client (pp_address payport))) w)
      as [[settings | e] w1] eqn:Eset.
    - apply retryIfDisconnected_Ok_inv in Eset as (w0 & Eset).
      apply request_Ok_inv in Eset.
      destruct (pp_extraId payport) as [extraId|].
      + destruct (isValidExtraId extraId); cbn [negb]; unfold ret;
          eexists; eexists; (split; [reflexivity|]); split; try discriminate; reflexivity.
      + destruct (requireDestinationTag settings) as [[|]|] eqn:Er; unfold ret;
          eexists; eexists; (split; [reflexivity|]); (split; [discriminate|]); intros _.
        * right. split; [reflexivity|]. eauto.
        * now left.
        * now left.
    - destruct (Hmsg e) as (s & ->).
      destruct (pp_extraId payport) as [extraId|].
      + destruct (isValidExtraId extraId); cbn [negb]; unfold ret;
          eexists; eexists; (split; [reflexivity|]); split; try discriminate; reflexivity.
      + unfold ret. eexists; eexists. split; [reflexivity|]. split; [discriminate|].
        intros _. now left. }
  exists result, w'. split; [exact Hget|]. split; [|split; [|split; assumption]].
  - unfold validatePayport, andThen, await. rewrite Hget. cbn [settle].
    destruct result; reflexivity.
  - unfold isValidPayport, bind. rewrite Hget. reflexivity.
Qed.

End Facts.

End ValidationFacts.

(** ** Subscriptions *)

Module SubscriptionFacts.
Import Helpers Utils Monitor RetrySpec RetryFacts LedgerClient Subscriptions.

Section Facts.
Context {St : Type} (api : RippleAPI St) (client : LedgerClient.t St).
Variable toString : Thrown -> Result string.

Lemma for_each_assertValidAddress (addresses : list string) (w : World St) :
  forallb isValidAddress addresses = true ->
  for_each assertValidAddress addresses w = (Ok tt, w).
Proof.
  induction addresses as [|a l IH]; cbn [forallb for_each]; [reflexivity|].
  intros H. apply andb_prop in H as [Ha Hl].
  unfold bind, assertValidAddress. rewrite Ha. cbn [negb]. unfold ret. now apply IH.
Qed.

(** X26.  [subscribeAddresses] checks the addresses before it asks
    anything: with an invalid address in the list it throws the error of
    the first one and leaves the client untouched.  With valid addresses it
    resolves whenever the request is answered, warning when the status of
    the answer is not "success", and it throws what the request throws, or
    what printing that value for the log throws. *)
Theorem subscribeAddresses_outcome (addresses : list string) (w : World St) :
  (forall before a after,
     addresses = (before ++ a :: after)%list ->
     forallb isValidAddress before = true ->
     isValidAddress a = false ->
     subscribeAddresses api client toString addresses w
     = (Err (Local (InvalidAddress a)), w))
  /\ (forallb isValidAddress addresses = true ->
      match retryDced api (request (subscribe client addresses)) w with
      | (Ok res, w') =>
          subscribeAddresses api client toString addresses w
          = (Ok tt, if String.eqb (status res) "success" then w'
                    else mkWorld (api_state w') (EvWarn :: trace w'))
      | (Err e, w') =>
          subscribeAddresses api client toString addresses w
          = (match toString e with
             | Ok _ => Err e
             | Err thrown => Err thrown
             end, w')
      end).
Proof.
  split.
  - intros before a after -> Hb Ha. unfold subscribeAddresses. unfold bind at 1.
    assert (for_each (St:=St) assertValidAddress (before ++ a :: after) w
            = (Err (Local (InvalidAddress a)), w)) as ->; [|reflexivity].
    induction before as [|b l IH]; cbn [for_each app forallb] in *.
    + unfold bind, assertValidAddress. rewrite Ha. reflexivity.
    + apply andb_prop in Hb as [Hb Hl].
      unfold bind at 1. unfold assertValidAddress at 1. rewrite Hb. cbn [negb].
      unfold ret at 1. now apply IH.
  - intros Hall. unfold subscribeAddresses. unfold bind.
    rewrite for_each_assertValidAddress by assumption.
    destruct (retryDced api (request (subscribe client addresses)) w) as [[res | e] w'].
    + destruct (String.eqb (status res) "success"); reflexivity.
    + destruct (toString e); reflexivity.
Qed.

End Facts.

End SubscriptionFacts.

(** ** Runs against the scripted collaborators *)

Example toy_keys_are_valid :
  KeyFormat.isValidXprv ToyWallet.xprv = true
  /\ KeyFormat.isValidXpub ToyWallet.xpub = true
  /\ KeyFormat.isValidXpub ToyWallet.xprv = false
  /\ KeyFormat.isValidXprv "xprv9s21ZrQH143K" = false.
Proof. repeat split; reflexivity. Qed.

Example padLeft_runs :
  Utils.padLeft "7" 4 "ab" = "abab7"
  /\ Utils.padLeft "12345" 4 "0" = "12345"
  /\ Utils.padLeft "" 3 "0" = "000".
Proof. repeat split; reflexivity. Qed.




Lemma serializePayport_injective_witness :
  Payments.mkPayport "rPT1Sjq2YGrBMTttX4GZHjKu9dyfzbpAYe" (Some "7")
  = Payments.mkPayport "rPT1Sjq2YGrBMTttX4GZHjKu9dyfzbpAYe" (Some "7").
Proof.
  exact (@PayportFacts.serializePayport_injective
           (Payments.mkPayport "rPT1Sjq2YGrBMTttX4GZHjKu9dyfzbpAYe" (Some "7"))
           (Payments.mkPayport "rPT1Sjq2YGrBMTttX4GZHjKu9dyfzbpAYe" (Some "7"))
           eq_refl eq_refl eq_refl).
Defined.

Example serializePayport_runs :
  BaseRipplePayments.serializePayport
    (Payments.mkPayport "rPT1Sjq2YGrBMTttX4GZHjKu9dyfzbpAYe" (Some "7"))
  = "rPT1Sjq2YGrBMTttX4GZHjKu9dyfzbpAYe:7"
  /\ BaseRipplePayments.serializePayport
       (Payments.mkPayport "rPT1Sjq2YGrBMTttX4GZHjKu9dyfzbpAYe" None)
     = "rPT1Sjq2YGrBMTttX4GZHjKu9dyfzbpAYe".
Proof. split; reflexivity. Qed.

(** From the sub-account 2 to the sub-account 3 of the deposit address. *)
Lemma transfer_within_address_refused_witness :
  exists e w',
    Account.createTransaction 2 (Payments.ByIndex 3) (BigNumber.of_Z 1)
      (Account.with_payportBalance 5) (Mock.world (Mock.funded 100))
    = (Err e, w')
    /\ count_events is_preparePayment w'
       = count_events is_preparePayment (Mock.world (Mock.funded 100)).
Proof.
  exact (proj1 (@TransferFacts.transfer_within_address_refused _ Mock.api
                  Account.hot Account.deposit None Helpers.createUnitConverters
                  2 3 (BigNumber.of_Z 1) (Account.with_payportBalance 5)
                  (Mock.world (Mock.funded 100)) eq_refl)).
Defined.

Example transfer_within_address_runs :
  fst (Account.createTransaction 2 (Payments.ByIndex 3) (BigNumber.of_Z 1)
         (Account.with_payportBalance 5) (Mock.world (Mock.funded 100)))
  = Err (Local SendToSelf)
  /\ fst (Account.createTransaction 0 (Payments.ByIndex 3) (BigNumber.of_Z 1)
            Payments.DEFAULT_CREATE_TRANSACTION_OPTIONS (Mock.world (Mock.funded 100)))
     <> Err (Local SendToSelf).
Proof. split; [reflexivity | vm_compute; discriminate]. Qed.

(** A sweep of an address that holds the reserve and the fee, no more. *)
Lemma createSweepTransaction_balance_equals_fee_witness :
  fst (Account.createSweepTransaction 0 (Payments.ByAddress Account.elsewhere)
         Payments.DEFAULT_CREATE_TRANSACTION_OPTIONS
         (Mock.world (Mock.funded (20000012 # 1000000))))
  = Err (Local InvalidAmount).
Proof.
  refine (f_equal fst
            (@TransferFacts.createSweepTransaction_balance_equals_fee _ Mock.api
               Account.hot Account.deposit None Helpers.createUnitConverters
               0 (Payments.ByAddress Account.elsewhere)
               Payments.DEFAULT_CREATE_TRANSACTION_OPTIONS
               (Mock.world (Mock.funded (20000012 # 1000000)))
               _ _ _ _ _ _ (12 # 1000000) eq_refl eq_refl eq_refl eq_refl _)).
  reflexivity.
Defined.

(** A payment of 79 XRP from the hot address. *)
Lemma createTransaction_prepares_witness :
  exists tx w',
    Account.createTransaction 0 (Payments.ByAddress Account.elsewhere)
      (BigNumber.of_Z 79) Payments.DEFAULT_CREATE_TRANSACTION_OPTIONS
      (Mock.world (Mock.funded 100)) = (Ok tx, w')
    /\ Payments.utx_fromAddress tx = "rHb9CJAWyB4rj91VRWn96DkukG4bwdtyTh"
    /\ Payments.utx_toAddress tx = Account.elsewhere
    /\ hd_error (trace w')
       = Some (EvPreparePayment "rHb9CJAWyB4rj91VRWn96DkukG4bwdtyTh"
                 (mkPaymentSpec
                    (mkPaymentEnd "rHb9CJAWyB4rj91VRWn96DkukG4bwdtyTh" None "XRP"
                       (BigNumber.of_Z 79))
                    (mkPaymentEnd Account.elsewhere None "XRP" (BigNumber.of_Z 79)))).
Proof.
  eexists. eexists. split; [lazy; reflexivity|].
  destruct (@TransferFacts.createTransaction_prepares _ Mock.api
              Account.hot Account.deposit None Helpers.createUnitConverters
              0 (Payments.ByAddress Account.elsewhere) (BigNumber.of_Z 79)
              Payments.DEFAULT_CREATE_TRANSACTION_OPTIONS
              (Mock.world (Mock.funded 100)) _ _ eq_refl)
    as (toPayport & offset & s & _ & _ & Hfrom & _ & Hto & _ & _ & _ & _ & _ & _ & _
        & _ & Hhead).
  split; [exact Hfrom|]. split; [reflexivity | exact Hhead].
Defined.

(** A request from ledger 0 to ledger 2000000 of a server that holds the
    ledgers 1 to 1000000. *)
Lemma resolveFromToLedgers_clamps_witness :
  exists w',
    Monitor.resolveFromToLedgers Mock.api (Monitor.mkRange (Some 0%N) (Some 2000000%N))
      (Mock.world (Mock.funded 100))
    = (Ok (1%N, 1000000%N), w')
    /\ count_events is_warn w' = 2.
Proof.
  destruct (@LedgerRangeFacts.resolveFromToLedgers_clamps _ Mock.api
              (Monitor.mkRange (Some 0%N) (Some 2000000%N))
              (Mock.world (Mock.funded 100)) _ 1%N 1000000%N eq_refl)
    as (w' & H & _ & Hwarn).
  exists w'. split; [exact H | exact Hwarn].
Defined.

(** The incoming leg of a payment to the tag 7. *)
Lemma txToBalanceActivity_legs_witness :
  exists a w',
    Monitor.txToBalanceActivity Mock.api Account.elsewhere
      (History.payment "tx" 1000000 3 "-1.000012") (Mock.world (Mock.funded 100))
    = (Ok (Some a), w')
    /\ Monitor.ba_type a = Monitor.In_
    /\ Monitor.ba_extraId a = Some "7".
Proof.
  eexists. eexists. split; [lazy; reflexivity|].
  destruct (@LedgerRangeFacts.txToBalanceActivity_legs _ Mock.api Account.elsewhere
              (History.payment "tx" 1000000 3 "-1.000012")
              (Mock.world (Mock.funded 100)) _ _ eq_refl)
    as (outcome & change & _ & _ & _ & _ & _ & Htype & Hextra & _).
  split; [reflexivity | exact Hextra].
Defined.

(** The loop over a ledger of twelve transactions, with a callback that
    records what it is handed. *)
Lemma retrieveBalanceActivities_reports_within_witness :
  exists t,
    trace (snd (Monitor.retrieveBalanceActivities (Mock.api_with History.twelve) 15
                  History.monitored ActivitySpec.record_activity
                  (Monitor.mkRange None None) (Mock.world (Mock.funded 100))))
    = (t ++ [])%list
    /\ Forall (ActivitySpec.reports_within 1 1000000) t.
Proof.
  exact (proj1 (@LedgerRangeFacts.retrieveBalanceActivities_reports_within _
                  (Mock.api_with History.twelve) 15 History.monitored
                  (Monitor.mkRange None None) (Mock.world (Mock.funded 100)) _
                  1%N 1000000%N eq_refl)).
Defined.

(** The stand-ins for the key arithmetic derive the public half of a child
    from the public half of its parent. *)
Lemma toy_public_derivation (key : KeyDerivation.BIP32Node) (index : N) :
  (index < KeyDerivation.HIGHEST_BIT)%N ->
  ToyWallet.childPublicKey (KeyDerivation.neutered key) index
  = ToyWallet.childPublicKey key index
  /\ ToyWallet.childChainCode (KeyDerivation.neutered key) index
     = ToyWallet.childChainCode key index
  /\ ToyWallet.fingerprint (KeyDerivation.neutered key) = ToyWallet.fingerprint key.
Proof. intros _. repeat split. Qed.

Lemma watch_key_derives_same_addresses_witness :
  ToyWallet.xprvToXpub (inl ToyWallet.xprv) = Ok ToyWallet.xpub
  /\ ToyWallet.xprvToXpub (inr ToyKeys.root) = Ok ToyWallet.xpub
  /\ ToyWallet.deriveSignatory ToyWallet.xpub 1
     = match ToyWallet.deriveSignatory ToyWallet.xprv 1 with
       | Ok signatory => Ok (KeySpec.watch_only signatory)
       | Err e => Err e
       end.
Proof.
  exact (@WatchKeyFacts.watch_key_derives_same_addresses ToyWallet.fromBase58
           ToyWallet.toBase58 ToyWallet.childPrivateKey ToyWallet.childPublicKey
           ToyWallet.childChainCode ToyWallet.fingerprint (fun b => b) (fun b => b)
           ToyWallet.Buffer_from_hex ToyWallet.base58_encode
           toy_public_derivation ToyWallet.xprv ToyKeys.root ToyWallet.base 1
           eq_refl eq_refl eq_refl eq_refl).
Defined.

Example watch_key_runs :
  match ToyWallet.deriveSignatory ToyWallet.xprv 1,
        ToyWallet.deriveSignatory ToyWallet.xpub 1 with
  | Ok full, Ok watch =>
      KeyDerivation.hd_address watch = KeyDerivation.hd_address full
      /\ String.length (KeyDerivation.kp_privateKey (KeyDerivation.hd_secret full)) = 64
      /\ KeyDerivation.kp_privateKey (KeyDerivation.hd_secret watch) = ""
  | _, _ => False
  end.
Proof. vm_compute. repeat split. Qed.

(** The account of the toy xprv and its read-only twin. *)
Lemma hd_watch_only_twin_witness :
  exists this twin,
    ToyWallet.new ToyWallet.xprv = Returns this
    /\ HdRipplePayments.isReadOnly this = false
    /\ ToyWallet.new ToyWallet.xpub = Returns twin
    /\ HdRipplePayments.isReadOnly twin = true
    /\ HdRipplePayments.hotSignatory twin
       = KeySpec.watch_only (HdRipplePayments.hotSignatory this)
    /\ HdRipplePayments.depositSignatory twin
       = KeySpec.watch_only (HdRipplePayments.depositSignatory this).
Proof.
  destruct (ToyWallet.new ToyWallet.xprv) as [this | r | e] eqn:Hnew;
    [| vm_compute in Hnew; discriminate Hnew ..].
  assert (KeyFormat.isValidXprv ToyWallet.xprv = true) as Hxprv
    by (vm_compute; reflexivity).
  assert (ToyWallet.fromBase58 ToyWallet.xprv = Ok ToyKeys.root) as Hkey
    by (vm_compute; reflexivity).
  assert (KeyDerivation.deriveBasePath ToyWallet.childPrivateKey ToyWallet.childPublicKey
            ToyWallet.childChainCode ToyWallet.fingerprint ToyKeys.root
          = Ok ToyWallet.base) as Hbase by (vm_compute; reflexivity).
  assert (ToyWallet.toBase58 (KeyDerivation.neutered ToyWallet.base) = ToyWallet.xpub)
    as Hstring by (vm_compute; reflexivity).
  assert (ToyWallet.fromBase58 (ToyWallet.toBase58 (KeyDerivation.neutered ToyWallet.base))
          = Ok (KeyDerivation.neutered ToyWallet.base)) as Hread
    by (vm_compute; reflexivity).
  assert (KeyFormat.isValidXpub
            (ToyWallet.toBase58 (KeyDerivation.neutered ToyWallet.base)) = true) as Hxpub
    by (vm_compute; reflexivity).
  destruct (@HdFacts.hd_watch_only_twin ToyWallet.fromBase58
              ToyWallet.toBase58 ToyWallet.childPrivateKey ToyWallet.childPublicKey
              ToyWallet.childChainCode ToyWallet.fingerprint (fun b => b) (fun b => b)
              ToyWallet.Buffer_from_hex ToyWallet.base58_encode
              toy_public_derivation ToyWallet.xprv ToyKeys.root ToyWallet.base this
              Hnew Hxprv Hkey Hbase Hread Hxpub)
    as (Hro & Hsame & _ & _ & twin & Htwin & Hreadonly & _ & Hhot & Hdeposit).
  rewrite Hsame, Hstring in Htwin.
  exists this, twin. repeat split; assumption.
Defined.

(** An account whose hot config carries a secret and whose deposit config
    is a bare address. *)
Lemma account_read_only_witness :
  exists this,
    AccountRipplePayments.new MockClient.deriveAddress
      (AccountRipplePayments.ConfigSecretPair "rHb9CJAWyB4rj91VRWn96DkukG4bwdtyTh" "sHot")
      (AccountRipplePayments.ConfigAddress "rPT1Sjq2YGrBMTttX4GZHjKu9dyfzbpAYe")
    = Returns this
    /\ AccountRipplePayments.isReadOnly this = true.
Proof.
  eexists. split; [lazy; reflexivity|].
  exact (proj1 (@AccountFacts.account_read_only MockClient.deriveAddress
                  (AccountRipplePayments.ConfigSecretPair
                     "rHb9CJAWyB4rj91VRWn96DkukG4bwdtyTh" "sHot")
                  (AccountRipplePayments.ConfigAddress
                     "rPT1Sjq2YGrBMTttX4GZHjKu9dyfzbpAYe") _ eq_refl)).
Defined.

Lemma getAccountId_matches_payport_witness :
  AccountRipplePayments.getAccountId
    (AccountRipplePayments.mk true
       (AccountRipplePayments.mkRippleSignatory "rHb9CJAWyB4rj91VRWn96DkukG4bwdtyTh"
          (AccountRipplePayments.SecretString "sHot"))
       (AccountRipplePayments.mkRippleSignatory "rPT1Sjq2YGrBMTttX4GZHjKu9dyfzbpAYe"
          (AccountRipplePayments.SecretString ""))) 7
  = Returns "rPT1Sjq2YGrBMTttX4GZHjKu9dyfzbpAYe".
Proof.
  exact (proj2 (@AccountFacts.getAccountId_matches_payport
                  (AccountRipplePayments.mk true
                     (AccountRipplePayments.mkRippleSignatory
                        "rHb9CJAWyB4rj91VRWn96DkukG4bwdtyTh"
                        (AccountRipplePayments.SecretString "sHot"))
                     (AccountRipplePayments.mkRippleSignatory
                        "rPT1Sjq2YGrBMTttX4GZHjKu9dyfzbpAYe"
                        (AccountRipplePayments.SecretString "")))
                  Account.hot Account.deposit 7 eq_refl eq_refl)).
Defined.

(** A payment from the sub-account 7 is signed with the secret of the
    deposit signatory. *)
Lemma signTransaction_of_created_witness :
  exists tx w' signResult,
    Account.createTransaction 7 (Payments.ByAddress Account.elsewhere)
      (BigNumber.of_Z 1) (Account.with_payportBalance 5) (Mock.world (Mock.funded 100))
    = (Ok tx, w')
    /\ LedgerClient.sign MockClient.client (Payments.utx_data tx) "sDeposit"
       = Ok signResult
    /\ Ledgering.signTransaction MockClient.client Account.hot Account.deposit false tx w'
       = (Returns (Ledgering.mkSignedTransaction tx (LedgerClient.sign_id signResult)
                     signResult Payments.Signed), w').
Proof.
  eexists. eexists. eexists. split; [lazy; reflexivity|]. split; [lazy; reflexivity|].
  exact (proj2 (@LedgeringFacts.signTransaction_of_created _ Mock.api MockClient.client
                  Account.hot Account.deposit None Helpers.createUnitConverters
                  7 (Payments.ByAddress Account.elsewhere) (BigNumber.of_Z 1)
                  (Account.with_payportBalance 5) (Mock.world (Mock.funded 100)) _ _ _
                  (or_introl eq_refl))).
Defined.

(** The lookup of the payment that the scripted ledger knows. *)
Lemma getTransactionInfo_reports_witness :
  exists info w',
    Ledgering.getTransactionInfo Mock.api MockClient.client Account.hot Account.deposit
      MockClient.toString (LedgerClient.id MockClient.payment)
      (Mock.world (Mock.funded 100))
    = (Returns info, w')
    /\ Ledgering.info_status info = Ledgering.Confirmed
    /\ Ledgering.info_isExecuted info = true
    /\ Ledgering.info_isConfirmed info = true.
Proof.
  eexists. eexists. split; [lazy; reflexivity|].
  destruct (@LedgeringFacts.getTransactionInfo_reports _ Mock.api MockClient.client
              Account.hot Account.deposit MockClient.toString
              (LedgerClient.id MockClient.payment) (Mock.world (Mock.funded 100)) _ _
              eq_refl)
    as (_ & _ & _ & _ & _ & Hstatus & Hexecuted & Hconfirmed & _).
  split; [exact Hstatus|]. split; [exact Hexecuted | exact Hconfirmed].
Defined.


Example getTransactionInfo_not_found_runs :
  fst (Ledgering.getTransactionInfo Mock.api MockClient.client Account.hot Account.deposit
         MockClient.toString "ABCD"
         (Mock.world (Mock.mkState true ["NotFoundError"] None)))
  = Refuses (TransactionNotFound "[NotFoundError()]")
  /\ fst (Ledgering.getTransactionInfo Mock.api MockClient.client Account.hot
            Account.deposit MockClient.toString "ABCD"
            (Mock.world (Mock.mkState true ["ValidationError"] None)))
     = Throws (Foreign "ValidationError").
Proof. split; reflexivity. Qed.

Example broadcastTransaction_runs :
  let signedTx :=
    Ledgering.mkSignedTransaction
      (Payments.mkUnsignedTransaction 0 "rHb9CJAWyB4rj91VRWn96DkukG4bwdtyTh" None None
         Account.elsewhere None (BigNumber.of_Z 1) Payments.Medium BigNumber.zero
         Payments.Main BigNumber.zero Payments.Unsigned "txJSON")
      "ABCD" (LedgerClient.mkSignResult "blob" "ABCD") Payments.Signed in
  fst (Ledgering.broadcastTransaction Mock.api MockClient.client Account.hot
         Account.deposit MockClient.toString signedTx
         (Mock.world (Mock.mkState true ["NotFoundError"] None)))
  = Returns (Ledgering.mkBroadcastResult "ABCD" false
               (LedgerClient.mkSubmitResult None (Some "tesSUCCESS"))).
Proof. reflexivity. Qed.

(** A payport without extraId, at an address that requires a destination
    tag. *)
Lemma validatePayport_outcome_witness :
  exists result w',
    PayportValidation.getPayportValidationMessage Mock.api MockClient.client
      MockClient.errorMessage (Payments.mkPayport Account.elsewhere None)
      (Mock.world (Mock.funded 100))
    = (Ok result, w')
    /\ PayportValidation.validatePayport Mock.api MockClient.client
         MockClient.errorMessage (Payments.mkPayport Account.elsewhere None)
         (Mock.world (Mock.funded 100))
       = (match result with
          | Some m => Refuses (InvalidPayport m)
          | None => Returns tt
          end, w').
Proof.
  destruct (@ValidationFacts.validatePayport_outcome _ Mock.api MockClient.client
              MockClient.errorMessage (Payments.mkPayport Account.elsewhere None)
              (Mock.world (Mock.funded 100)))
    as (result & w' & Hget & Hvalidate & _).
  - intros [| f | name]; eexists; reflexivity.
  - exists result, w'. split; [exact Hget | exact Hvalidate].
Defined.

Example validatePayport_runs :
  fst (PayportValidation.validatePayport Mock.api MockClient.client
         MockClient.errorMessage (Payments.mkPayport Account.elsewhere None)
         (Mock.world (Mock.funded 100)))
  = Refuses (InvalidPayport (PayportExtraIdRequired Account.elsewhere))
  /\ fst (PayportValidation.validatePayport Mock.api MockClient.client
            MockClient.errorMessage (Payments.mkPayport Account.elsewhere None)
            (Mock.world (Mock.mkState true ["ValidationError"] None)))
     = Returns tt.
Proof. split; reflexivity. Qed.
